(** * Engagement KPI pipeline: a shallow embedding of [src/engagement_analysis.py]

    The Python program computes global KPIs ([compute_kpis]) and per-category
    breakdowns ([segment_analysis]) over a pandas table, and renders one KPI as
    a percentage ([_format_percentage]).

    Layout of this file:
    - [PyFloat]: Python floats (IEEE binary64) on [spec_float], with the
      built-in [round(x, n)];
    - [PyStr]: Python strings as sequences of code points, with [str.strip]
      and [str.title] over the Unicode tables they consult, and the
      [".2f"] format;
    - [Pandas]: the table model and the column operations the program calls;
    - [Engagement]: the program itself, function by function;
    - [Ref]: executable instances of the library interfaces;
    - [Spec], [Examples]: the statements of the specification and the tables
      of its scenarios;
    - the properties, each module of lemmas followed at the end of the file
      by the theorems on the program.

    What belongs to Python and pandas and not to the program is modelled by
    its documented behaviour: text conversions and the sums of floats, the
    Unicode tables and the index sort are interfaces ([Numerics], [UCD],
    [Sorter]). *)

From Stdlib Require Import Strings.String Strings.Ascii.
From Stdlib Require Import ZArith NArith PArith List Bool Lia Arith.
From Stdlib Require Import Permutation Sorted.
From Stdlib Require Import Numbers.DecimalPos.
From Stdlib Require Import Floats.SpecFloat.
Import ListNotations.

Set Implicit Arguments.

(* ------------------------------------------------------------------ *)
(** * Python floats *)

Module PyFloat.

Definition float := spec_float.

Definition prec : Z := 53.
Definition emax : Z := 1024.

Definition nan : float := S754_nan.
Definition pzero : float := S754_zero false.

Definition fadd : float -> float -> float := SFadd prec emax.
Definition fmul : float -> float -> float := SFmul prec emax.
Definition fdiv : float -> float -> float := SFdiv prec emax.

(** [float(n)] for an integer: the nearest binary64, ties to even. *)
Definition of_Z (z : Z) : float := binary_normalize prec emax z 0 false.

(** The nearest binary64 to the fraction [n / d] ([d] positive): what reading
    a decimal literal gives. *)
Definition of_ratio (n : Z) (d : positive) : float :=
  match n with
  | Z0 => pzero
  | Zpos p => fdiv (S754_finite false p 0) (S754_finite false d 0)
  | Zneg p => fdiv (S754_finite true p 0) (S754_finite false d 0)
  end.

Definition is_nan (x : float) : bool :=
  match x with S754_nan => true | _ => false end.

Definition is_zero (x : float) : bool :=
  match x with S754_zero _ => true | _ => false end.

Definition is_finite (x : float) : bool :=
  match x with S754_zero _ | S754_finite _ _ _ => true | _ => false end.

Definition sign_bit (x : float) : bool :=
  match x with
  | S754_zero s | S754_infinity s | S754_finite s _ _ => s
  | S754_nan => false
  end.

(** Division of [n] by the positive [d], rounded to the nearest integer, ties
    to the even one. *)
Definition div_half_even (n d : Z) : Z :=
  let q := Z.div n d in
  let r := Z.modulo n d in
  match Z.compare (2 * r) d with
  | Lt => q
  | Gt => q + 1
  | Eq => if Z.even q then q else q + 1
  end.

(** [scaled_magnitude nd x]: the integer nearest to [|x| * 10^nd] (ties to
    even), computed on the exact value [m * 2^e] of a finite [x]. *)
Definition scaled_magnitude (nd : nat) (x : float) : Z :=
  match x with
  | S754_finite _ m e =>
      let p := Z.pow 10 (Z.of_nat nd) in
      match e with
      | Zneg k => div_half_even (Zpos m * p) (Z.pow 2 (Zpos k))
      | _ => Zpos m * p * Z.pow 2 e
      end
  | _ => 0
  end.

(** The built-in [round(x, nd)] on a float, [nd >= 0]: NaN, infinities and
    zeros round to themselves; a finite value goes to the decimal with [nd]
    places nearest to its exact value, read back as a float; the sign of [x]
    is kept when the result is zero. *)
Definition round (x : float) (nd : nat) : float :=
  match x with
  | S754_finite s _ _ =>
      match scaled_magnitude nd x with
      | Z0 => S754_zero s
      | k => of_ratio (if s then Z.opp k else k)
                      (Z.to_pos (Z.pow 10 (Z.of_nat nd)))
      end
  | _ => x
  end.

End PyFloat.

(* ------------------------------------------------------------------ *)
(** * Python strings *)

Module PyStr.

Import PyFloat.

(** A [str] is a sequence of Unicode code points. *)
Definition pystr := list N.

(** Literals of this file are ASCII; [lit] reads one as code points. *)
Definition lit (s : string) : pystr := map N_of_ascii (list_ascii_of_string s).

Fixpoint pystr_eqb (a b : pystr) : bool :=
  match a, b with
  | [], [] => true
  | x :: a', y :: b' => N.eqb x y && pystr_eqb a' b'
  | _, _ => false
  end.

(** The rows of the Unicode Character Database that [str.strip] and
    [str.title] consult (CPython: [Py_UNICODE_ISSPACE], [_PyUnicode_IsCased],
    [_PyUnicode_IsCaseIgnorable], [_PyUnicode_ToLowerFull],
    [_PyUnicode_ToTitleFull]).  The database is not part of the program; it is
    taken as an interface. *)
Class UCD := {
  is_space : N -> bool;
  is_cased : N -> bool;
  is_case_ignorable : N -> bool;
  to_lower_full : N -> list N;
  to_title_full : N -> list N
}.

Section Casing.
Context {U : UCD}.

(** [str.strip()] with no argument: drop white space at both ends. *)
Fixpoint lstrip (s : pystr) : pystr :=
  match s with
  | c :: r => if is_space c then lstrip r else s
  | [] => []
  end.

Definition rstrip (s : pystr) : pystr := rev (lstrip (rev s)).

Definition strip (s : pystr) : pystr := rstrip (lstrip s).

Fixpoint skip_ignorable (s : pystr) : pystr :=
  match s with
  | c :: r => if is_case_ignorable c then skip_ignorable r else s
  | [] => []
  end.

(** CPython's [handle_capital_sigma]: U+03A3 lowers to the final form U+03C2
    when a cased letter precedes it and none follows (case-ignorable
    characters skipped on both sides).  [before] is the text to the left,
    nearest character first. *)
Definition sigma_is_final (before after : pystr) : bool :=
  match skip_ignorable before with
  | c :: _ =>
      is_cased c &&
      match skip_ignorable after with
      | d :: _ => negb (is_cased d)
      | [] => true
      end
  | [] => false
  end.

Definition lower_at (before : pystr) (c : N) (after : pystr) : list N :=
  if N.eqb c 931 then [if sigma_is_final before after then 962%N else 963%N]
  else to_lower_full c.

(** CPython's [do_title]: a character that follows a cased one is lowered,
    any other is title-cased. *)
Fixpoint do_title (before : pystr) (previous_is_cased : bool) (s : pystr)
  : pystr :=
  match s with
  | [] => []
  | c :: r =>
      (if previous_is_cased then lower_at before c r else to_title_full c)
        ++ do_title (c :: before) (is_cased c) r
  end.

Definition title (s : pystr) : pystr := do_title [] false s.

(** The categorical normalization of the program, on a value that is already
    a string: [.str.strip().str.title()]. *)
Definition strip_title (s : pystr) : pystr := title (strip s).

(** A string that does not start with white space; one with none at either
    end; two strings with white space at the same places. *)
Definition starts_clean (s : pystr) : Prop :=
  match s with
  | c :: _ => is_space c = false
  | [] => True
  end.

Definition clean_ends (s : pystr) : Prop :=
  starts_clean s /\ starts_clean (rev s).

Definition same_space : pystr -> pystr -> Prop :=
  Forall2 (fun a b => is_space a = is_space b).

End Casing.

(** [sep.join(parts)]. *)
Fixpoint join (sep : pystr) (parts : list pystr) : pystr :=
  match parts with
  | [] => []
  | [x] => x
  | x :: r => x ++ sep ++ join sep r
  end.

(** [s.strip(chars)] for a one-character [chars]. *)
Fixpoint lstrip_char (ch : N) (s : pystr) : pystr :=
  match s with
  | c :: r => if N.eqb c ch then lstrip_char ch r else s
  | [] => []
  end.

Definition strip_char (ch : N) (s : pystr) : pystr :=
  rev (lstrip_char ch (rev (lstrip_char ch s))).

(** ** Decimal output *)

Definition is_digit (c : N) : bool := ((48 <=? c) && (c <=? 57))%N.

Definition digit_cp (d : N) : N := (48 + d)%N.

Fixpoint uint_cps (u : Decimal.uint) : pystr :=
  match u with
  | Decimal.Nil => []
  | Decimal.D0 r => 48%N :: uint_cps r
  | Decimal.D1 r => 49%N :: uint_cps r
  | Decimal.D2 r => 50%N :: uint_cps r
  | Decimal.D3 r => 51%N :: uint_cps r
  | Decimal.D4 r => 52%N :: uint_cps r
  | Decimal.D5 r => 53%N :: uint_cps r
  | Decimal.D6 r => 54%N :: uint_cps r
  | Decimal.D7 r => 55%N :: uint_cps r
  | Decimal.D8 r => 56%N :: uint_cps r
  | Decimal.D9 r => 57%N :: uint_cps r
  end.

(** The decimal digits of a natural number, ["0"] for zero. *)
Definition nat_digits (n : N) : pystr := uint_cps (N.to_uint n).

(** [str(z)] for an integer. *)
Definition int_repr (z : Z) : pystr :=
  match z with
  | Zneg p => 45%N :: nat_digits (Npos p)
  | _ => nat_digits (Z.to_N z)
  end.

(** [pad_digits w n]: the last [w] decimal digits of [n], zeros on the left. *)
Fixpoint pad_digits (w : nat) (n : N) : pystr :=
  match w with
  | O => []
  | S w' => pad_digits w' (n / 10) ++ [digit_cp (n mod 10)]
  end.

(** [format(x, ".<nd>f")], [nd >= 1]: fixed notation with [nd] digits after
    the point, the digits being those of the exact value of [x] correctly
    rounded (ties to even); the sign bit shows also on a zero; NaN and the
    infinities print as [nan], [inf] and [-inf]. *)
Definition format_fixed (nd : nat) (x : float) : pystr :=
  match x with
  | S754_nan => lit "nan"
  | S754_infinity s => (if s then lit "-" else []) ++ lit "inf"
  | _ =>
      let k := Z.to_N (scaled_magnitude nd x) in
      let p := N.pow 10 (N.of_nat nd) in
      (if sign_bit x then lit "-" else [])
        ++ nat_digits (k / p) ++ lit "." ++ pad_digits nd (k mod p)
  end.

End PyStr.

(* ------------------------------------------------------------------ *)
(** * Errors *)

(** The exceptions that can leave the functions modelled here. *)
Inductive pyexn := ValueError | TypeError | KeyError | OverflowError.

Inductive result (A : Type) := Ok (a : A) | Raise (e : pyexn).
Arguments Ok {A} a.
Arguments Raise {A} e.

Definition bind {A B : Type} (r : result A) (k : A -> result B) : result B :=
  match r with
  | Ok a => k a
  | Raise e => Raise e
  end.

Notation "x <- r ;; k" := (bind r (fun x => k))
  (at level 61, r at next level, right associativity).

(* ------------------------------------------------------------------ *)
(** * The pandas operations the program calls *)

Module Pandas.

Import PyFloat PyStr.

(** A cell of a table: a string, an integer, a float (NaN is the missing
    value) or a boolean. *)
Inductive cell :=
| VStr (s : pystr)
| VInt (z : Z)
| VFloat (f : float)
| VBool (b : bool).

Definition column := list cell.

(** A [DataFrame]: a row count (the length of its index) and named columns in
    order.  A name is looked up from the left; the tables of this development
    are those whose labels identify one column each, as in the record tables
    of the specification. *)
Record DataFrame := {
  nrows : nat;
  columns : list (pystr * column)
}.

(** [pd.DataFrame()]. *)
Definition empty_frame : DataFrame := {| nrows := 0; columns := [] |}.

(** [col in df.columns] (and [col in df]). *)
Definition has_column (name : pystr) (df : DataFrame) : bool :=
  existsb (fun p => pystr_eqb (fst p) name) (columns df).

(** [df[col]]. *)
Definition get_column (name : pystr) (df : DataFrame) : option column :=
  option_map snd (find (fun p => pystr_eqb (fst p) name) (columns df)).

(** [df[col] = values] for a column that exists. *)
Definition set_column (name : pystr) (values : column) (df : DataFrame)
  : DataFrame :=
  {| nrows := nrows df;
     columns := map (fun p => if pystr_eqb (fst p) name
                              then (fst p, values) else p) (columns df) |}.

(** [df[col] = values] for a column that does not exist: it comes last. *)
Definition add_column (name : pystr) (values : column) (df : DataFrame)
  : DataFrame :=
  {| nrows := nrows df; columns := columns df ++ [(name, values)] |}.

(** [df.shape[1]]. *)
Definition ncols (df : DataFrame) : nat := length (columns df).

(** Every column is as long as the index. *)
Definition well_formed (df : DataFrame) : Prop :=
  Forall (fun p => length (snd p) = nrows df) (columns df).

(** What pandas, numpy and Python supply on numbers, taken as an interface.

    Text: [to_numeric_str] is [pd.to_numeric(..., errors="coerce")] on one
    string (NaN when it does not parse) and [int_of_str] tells the strings it
    reads as an integer (an [int64]) from the others; [float_of_str] is
    [float(s)] ([None] when it raises [ValueError]); [float_repr] is [str(x)]
    of a float.

    Sums of floats, whose order of additions belongs to the library:
    [array_sum] is the sum [Series.mean] takes of a numeric column without
    missing values, as a float (numpy adds an array pairwise, the optional
    bottleneck from left to right); [group_fsum] is the sum of the float
    values of one group in [groupby(...).agg], which pandas adds with a
    running compensation. *)
Class Numerics := {
  to_numeric_str : pystr -> float;
  int_of_str : pystr -> option Z;
  float_of_str : pystr -> option float;
  float_repr : float -> pystr;
  array_sum : column -> float;
  group_fsum : list float -> float
}.

Definition is_null (c : cell) : bool :=
  match c with
  | VFloat f => is_nan f
  | _ => false
  end.

(** The float a numeric cell stands for. *)
Definition bool_float (b : bool) : float := if b then of_Z 1 else pzero.

(** ** Order and equality of cells *)

Fixpoint pystr_leb (a b : pystr) : bool :=
  match a, b with
  | [], _ => true
  | _ :: _, [] => false
  | x :: a', y :: b' =>
      if N.ltb x y then true
      else if N.eqb x y then pystr_leb a' b' else false
  end.

(** [x <= y] on floats that are not NaN. *)
Definition float_leb (x y : float) : bool :=
  match SFcompare x y with
  | Some Gt => false
  | Some _ => true
  | None => false
  end.

Definition kind_rank (c : cell) : nat :=
  match c with
  | VFloat _ => 0
  | VInt _ => 1
  | VBool _ => 2
  | VStr _ => 3
  end.

(** The order sorting uses.  Within one kind of value it is the order of
    Python; a missing value comes below everything, so that it is last in a
    descending sort ([na_position="last"]).  A sorted column of this program
    holds one kind of value; across kinds the order is by kind and no result
    depends on it. *)
Definition cell_leb (a b : cell) : bool :=
  if is_null a then true
  else if is_null b then false
  else
    match a, b with
    | VStr s, VStr t => pystr_leb s t
    | VInt x, VInt y => Z.leb x y
    | VFloat x, VFloat y => float_leb x y
    | VBool x, VBool y => implb x y
    | _, _ => Nat.leb (kind_rank a) (kind_rank b)
    end.

Definition float_eqb (x y : float) : bool :=
  match x, y with
  | S754_zero s, S754_zero t => Bool.eqb s t
  | S754_infinity s, S754_infinity t => Bool.eqb s t
  | S754_nan, S754_nan => true
  | S754_finite s m e, S754_finite t n f =>
      Bool.eqb s t && Pos.eqb m n && Z.eqb e f
  | _, _ => false
  end.

(** Identity of cell values, as grouping uses it on the labels of a column. *)
Definition cell_eqb (a b : cell) : bool :=
  match a, b with
  | VStr s, VStr t => pystr_eqb s t
  | VInt x, VInt y => Z.eqb x y
  | VFloat x, VFloat y => float_eqb x y
  | VBool x, VBool y => Bool.eqb x y
  | _, _ => false
  end.

(** ** Sorting *)

(** [sort_values(by=..., ascending=False)] goes through an index sort of the
    key column (numpy's default [quicksort]), which is free in the order it
    gives to equal keys.  The index sort is taken as an interface;
    [sorter_ok] is what it guarantees. *)
Class Sorter := { argsort_desc : list cell -> list nat }.

(** [take idx col]: the cells of [col] at the positions [idx]. *)
Definition take (idx : list nat) (col : column) : column :=
  flat_map (fun i => match nth_error col i with
                     | Some c => [c]
                     | None => []
                     end) idx.

(** Descending: each cell is at least the next one. *)
Definition descending (col : column) : Prop :=
  Sorted (fun a b => cell_leb b a = true) col.

Fixpoint descendingb (col : column) : bool :=
  match col with
  | a :: (b :: _) as r => cell_leb b a && descendingb r
  | _ => true
  end.

Definition sorter_ok (S : Sorter) : Prop :=
  forall keys : list cell,
    Permutation (argsort_desc keys) (seq 0 (length keys)) /\
    descending (take (argsort_desc keys) keys).

(** ** Column operations *)

Section Columns.
Context {U : UCD} {Nm : Numerics}.

(** [str(v)] of one cell. *)
Definition str_of_cell (c : cell) : pystr :=
  match c with
  | VStr s => s
  | VInt z => int_repr z
  | VFloat f => float_repr f
  | VBool b => if b then lit "True" else lit "False"
  end.

(** [series.astype(str)]. *)
Definition astype_str (col : column) : column :=
  map (fun c => VStr (str_of_cell c)) col.

(** [series.str.<method>()]: the method on every string, NaN elsewhere. *)
Definition str_map (f : pystr -> pystr) (col : column) : column :=
  map (fun c => match c with
                | VStr s => VStr (f s)
                | _ => VFloat nan
                end) col.

Definition str_strip : column -> column := str_map strip.
Definition str_title : column -> column := str_map title.

(** The float a numeric cell is read as; a string is not numeric. *)
Definition numeric_view (c : cell) : float :=
  match c with
  | VFloat f => f
  | VInt z => of_Z z
  | VBool b => bool_float b
  | VStr _ => nan
  end.

(** [pd.to_numeric(series, errors="coerce")]: numbers stay as they are, a
    string is parsed, to an integer where it is one, and what does not parse
    becomes NaN. *)
Definition to_numeric_cell (c : cell) : cell :=
  match c with
  | VStr s =>
      match int_of_str s with
      | Some z => VInt z
      | None => VFloat (to_numeric_str s)
      end
  | _ => c
  end.

Definition to_numeric (col : column) : column := map to_numeric_cell col.

(** The values of a numeric column that are not missing. *)
Definition valid_values (col : column) : list float :=
  filter (fun f => negb (is_nan f)) (map numeric_view col).

(** A numeric column with zero in the place of a missing value. *)
Definition zero_filled (col : column) : column :=
  map (fun c => if is_nan (numeric_view c) then VFloat pzero else c) col.

(** [series.mean()] ([skipna=True]) on a numeric column, which is
    [nanops.nanmean]: the sum of the array with the missing values set to
    zero, over the number of values that are not missing; NaN when there is
    none. *)
Definition mean (col : column) : float :=
  match valid_values col with
  | [] => nan
  | vs => fdiv (array_sum (zero_filled col)) (of_Z (Z.of_nat (length vs)))
  end.

End Columns.

(** [series.count()]: the cells that are not missing. *)
Definition count (col : column) : Z :=
  Z.of_nat (length (filter (fun c => negb (is_null c)) col)).

(** [(series == s).sum()] for a string [s]. *)
Definition count_eq (col : column) (s : pystr) : Z :=
  Z.of_nat (length (filter (fun c => cell_eqb c (VStr s)) col)).

(** ** Grouped aggregation *)

Inductive aggfunc := Mean | Sum | Count.

Definition aggfunc_name (f : aggfunc) : pystr :=
  match f with
  | Mean => lit "mean"
  | Sum => lit "sum"
  | Count => lit "count"
  end.

(** The value of an aggregation dictionary: one function name, or a list. *)
Inductive aggspec := One (f : aggfunc) | Many (fs : list aggfunc).

Definition is_many (a : aggspec) : bool :=
  match a with Many _ => true | One _ => false end.

(** An [int64] holds the integers from -2^63 to 2^63 - 1; arithmetic on it
    wraps around. *)
Definition wrap64 (z : Z) : Z := ((z + 2 ^ 63) mod 2 ^ 64 - 2 ^ 63)%Z.

(** The cells of an integer column ([int64], or [bool], which a grouped sum
    reads as 0 and 1). *)
Definition is_integral (c : cell) : bool :=
  match c with
  | VInt _ | VBool _ => true
  | _ => false
  end.

Definition int_view (c : cell) : Z :=
  match c with
  | VInt z => z
  | VBool b => if b then 1%Z else 0%Z
  | _ => 0%Z
  end.

Section Reductions.
Context {Nm : Numerics}.

(** The mean of one group in [groupby(...).agg]: the values are read as
    floats, the missing ones are skipped, and a group without a value has
    NaN. *)
Definition group_mean (group : column) : float :=
  match valid_values group with
  | [] => nan
  | vs => fdiv (group_fsum vs) (of_Z (Z.of_nat (length vs)))
  end.

(** The sum of one group ([min_count=0]).  It has the type of the column
    [whole] the group is taken from: on an integer column it is an [int64]
    and wraps around; on any other numeric column it is the float sum of the
    values that are not missing. *)
Definition group_sum (whole group : column) : cell :=
  if forallb is_integral whole
  then VInt (wrap64 (fold_right Z.add 0%Z (map int_view group)))
  else VFloat (group_fsum (valid_values group)).

(** One aggregation function on the cells [group] of one group of the column
    [whole]. *)
Definition apply_agg (f : aggfunc) (whole group : column) : cell :=
  match f with
  | Mean => VFloat (group_mean group)
  | Sum => group_sum whole group
  | Count => VInt (count group)
  end.

(** A column label of an aggregation result: the column name when every
    dictionary value is a single function, a pair (name, function) as soon as
    one value is a list. *)
Inductive label := LStr (s : pystr) | LTuple (parts : list pystr).

(** The result of [groupby(...).agg(...)]: the group labels as index, and the
    aggregated columns; [L] is the type of column labels. *)
Record Grouped (L : Type) := {
  index : column;
  data : list (L * column)
}.

Fixpoint insert_key (k : cell) (keys : list cell) : list cell :=
  match keys with
  | [] => [k]
  | h :: r =>
      if cell_eqb k h then keys
      else if cell_leb k h then k :: keys
      else h :: insert_key k r
  end.

(** The groups of [groupby(col)] ([sort=True], [dropna=True]): the distinct
    labels that are not missing, in ascending order. *)
Definition group_keys (keycol : column) : list cell :=
  fold_right insert_key [] (filter (fun c => negb (is_null c)) keycol).

(** The cells of [col] on the rows of the group [k]. *)
Definition members (keycol col : column) (k : cell) : column :=
  map snd (filter (fun p => cell_eqb (fst p) k) (combine keycol col)).

Definition agg_labels (multi : bool) (name : pystr) (spec : aggspec)
  : list (label * aggfunc) :=
  match spec with
  | One f => [(if multi then LTuple [name; aggfunc_name f] else LStr name, f)]
  | Many fs => map (fun f => (LTuple [name; aggfunc_name f], f)) fs
  end.

Definition agg_one (df : DataFrame) (keycol : column) (keys : list cell)
  (multi : bool) (entry : pystr * aggspec) : result (list (label * column)) :=
  match get_column (fst entry) df with
  | None => Raise KeyError
  | Some col =>
      Ok (map (fun lf => (fst lf,
                          map (fun k => apply_agg (snd lf) col
                                                  (members keycol col k))
                              keys))
              (agg_labels multi (fst entry) (snd entry)))
  end.

Fixpoint agg_all (df : DataFrame) (keycol : column) (keys : list cell)
  (multi : bool) (aggs : list (pystr * aggspec))
  : result (list (label * column)) :=
  match aggs with
  | [] => Ok []
  | entry :: rest =>
      cols <- agg_one df keycol keys multi entry ;;
      more <- agg_all df keycol keys multi rest ;;
      Ok (cols ++ more)
  end.

(** [df.groupby(key).agg(aggs)] for a dictionary [aggs] from column names to
    functions.  An empty dictionary leaves pandas with nothing to put
    together and it raises [ValueError] ("No objects to concatenate"); a name
    that is no column raises [KeyError]. *)
Definition groupby_agg (key : pystr) (df : DataFrame)
  (aggs : list (pystr * aggspec)) : result (Grouped label) :=
  match get_column key df with
  | None => Raise KeyError
  | Some keycol =>
      match aggs with
      | [] => Raise ValueError
      | _ =>
          let keys := group_keys keycol in
          let multi := existsb (fun e => is_many (snd e)) aggs in
          cols <- agg_all df keycol keys multi aggs ;;
          Ok {| index := keys; data := cols |}
      end
  end.

End Reductions.

(** [grouped.columns.values], and assignment to [grouped.columns]. *)
Definition labels {L : Type} (g : Grouped L) : list L := map fst (data g).

Definition set_labels {L M : Type} (ls : list M) (g : Grouped L) : Grouped M :=
  {| index := index g; data := combine ls (map snd (data g)) |}.

(** [grouped.rename(columns={old: new})]. *)
Definition rename (old new : pystr) (g : Grouped pystr) : Grouped pystr :=
  {| index := index g;
     data := map (fun p => if pystr_eqb (fst p) old then (new, snd p) else p)
                 (data g) |}.

(** [grouped.reset_index()]: the index becomes the first column, under the
    name of the grouping column. *)
Definition reset_index (key : pystr) (g : Grouped pystr) : DataFrame :=
  {| nrows := length (index g);
     columns := (key, index g) :: data g |}.

(** [df.sort_values(by=name, ascending=False)]. *)
Definition sort_values_desc {S : Sorter} (by_ : pystr) (df : DataFrame)
  : result DataFrame :=
  match get_column by_ df with
  | None => Raise KeyError
  | Some keys =>
      let idx := argsort_desc keys in
      Ok {| nrows := nrows df;
            columns := map (fun p => (fst p, take idx (snd p))) (columns df) |}
  end.

End Pandas.

(* ------------------------------------------------------------------ *)
(** * The program *)

Module Engagement.

Import PyFloat PyStr Pandas.

(** Column names. *)
Definition PlayTimeHours := lit "PlayTimeHours".
Definition InGamePurchases := lit "InGamePurchases".
Definition SessionsPerWeek := lit "SessionsPerWeek".
Definition AvgSessionDurationMinutes := lit "AvgSessionDurationMinutes".
Definition PlayerLevel := lit "PlayerLevel".
Definition AchievementsUnlocked := lit "AchievementsUnlocked".
Definition EngagementLevel := lit "EngagementLevel".
Definition GameGenre := lit "GameGenre".
Definition Location := lit "Location".
Definition PlayerID := lit "PlayerID".

(** [_safe_divide]:
    [float(numerator) / float(denominator) if float(denominator or 0) != 0
     else 0.0].  Both arguments are counts of rows, which [float] converts;
    on an integer beyond the range of floats [float] raises [OverflowError],
    and the definition is the function on the integers [float] converts. *)
Definition _safe_divide (numerator denominator : Z) : float :=
  if negb (is_zero (of_Z (if Z.eqb denominator 0 then 0 else denominator)))
  then fdiv (of_Z numerator) (of_Z denominator)
  else pzero.

(** The dictionary [compute_kpis] returns. *)
Record KPIs := {
  total_players : Z;
  average_session_duration_minutes : float;
  average_sessions_per_week : float;
  average_purchases_per_user : float;
  retention_rate_high_engagement : float
}.

(** The dictionary [segment_analysis] returns. *)
Record Segments := {
  by_genre : DataFrame;
  by_location : DataFrame;
  by_engagement : DataFrame
}.

Section Program.
Context {U : UCD} {Nm : Numerics}.

(** [for col in names: if col in df.columns: df[col] = f(df[col])] *)
Definition update_columns (f : column -> column) (names : list pystr)
  (df : DataFrame) : DataFrame :=
  fold_left
    (fun d col =>
       match get_column col d with
       | Some c => set_column col (f c) d
       | None => d
       end)
    names df.

(** The loop with [pd.to_numeric(df[col], errors="coerce")]. *)
Definition coerce_numeric : list pystr -> DataFrame -> DataFrame :=
  update_columns to_numeric.

(** The loop with [df[col].astype(str).str.strip().str.title()]. *)
Definition normalize_categorical : list pystr -> DataFrame -> DataFrame :=
  update_columns (fun c => str_title (str_strip (astype_str c))).

Definition numeric_cols : list pystr :=
  [PlayTimeHours; InGamePurchases; SessionsPerWeek; AvgSessionDurationMinutes;
   PlayerLevel; AchievementsUnlocked].

(** [float(df[col].mean()) if col in df else np.nan] *)
Definition column_mean (col : pystr) (df : DataFrame) : float :=
  match get_column col df with
  | Some c => mean c
  | None => nan
  end.

(** [round(x, nd) if not np.isnan(x) else np.nan] *)
Definition round_unless_nan (x : float) (nd : nat) : float :=
  if negb (is_nan x) then round x nd else nan.

(** [compute_kpis].  [df.copy()] is the table itself: nothing here changes a
    table in place. *)
Definition compute_kpis (df : DataFrame) : KPIs :=
  let df_local := df in
  let df_local := coerce_numeric numeric_cols df_local in
  let df_local := normalize_categorical [EngagementLevel] df_local in
  let total_players := Z.of_nat (nrows df_local) in
  let avg_session_duration := column_mean AvgSessionDurationMinutes df_local in
  let avg_sessions_per_week := column_mean SessionsPerWeek df_local in
  let avg_purchases_per_user := column_mean InGamePurchases df_local in
  let retention_rate :=
    match get_column EngagementLevel df_local with
    | Some c =>
        let high_count := count_eq c (lit "High") in
        _safe_divide high_count total_players
    | None => nan
    end in
  {| total_players := total_players;
     average_session_duration_minutes := round_unless_nan avg_session_duration 2;
     average_sessions_per_week := round_unless_nan avg_sessions_per_week 2;
     average_purchases_per_user := round_unless_nan avg_purchases_per_user 2;
     retention_rate_high_engagement := round_unless_nan retention_rate 4 |}.

(** The table [compute_kpis] reads its columns from. *)
Definition kpi_table (df : DataFrame) : DataFrame :=
  normalize_categorical [EngagementLevel] (coerce_numeric numeric_cols df).

(** The [aggregations] dictionary, in its order. *)
Definition aggregations : list (pystr * aggspec) :=
  [(AvgSessionDurationMinutes, One Mean);
   (SessionsPerWeek, One Mean);
   (InGamePurchases, Many [Mean; Sum]);
   (PlayerID, One Count)].

(** What iterating a column label yields: the parts of a tuple, the
    characters of a string. *)
Definition label_parts (l : label) : list pystr :=
  match l with
  | LTuple parts => parts
  | LStr s => map (fun c => [c]) s
  end.

(** ["_".join([c for c in map(str, col_tuple) if c != ""]).strip("_")] *)
Definition flatten_label (l : label) : pystr :=
  strip_char 95
    (join (lit "_")
          (filter (fun c => negb (pystr_eqb c [])) (label_parts l))).

Context {S : Sorter}.

(** The inner function [group_by] of [segment_analysis]; [df_local] is the
    table after coercion and normalization. *)
Definition group_by (df_local : DataFrame) (col : pystr) : result DataFrame :=
  let available_aggs :=
    filter (fun kv => has_column (fst kv) df_local) aggregations in
  if negb (has_column col df_local) then Ok empty_frame
  else
    grouped <- groupby_agg col df_local available_aggs ;;
    let grouped := set_labels (map flatten_label (labels grouped)) grouped in
    let grouped := rename (lit "PlayerID_count") (lit "num_players") grouped in
    sort_values_desc
      (if Nat.ltb 1 (length (data grouped))
       then nth 1 (labels grouped) col
       else col)
      (reset_index col grouped).

(** The table [segment_analysis] hands to [group_by]. *)
Definition prepare_segments (df : DataFrame) : DataFrame :=
  let df_local := df in
  let df_local :=
    coerce_numeric
      [AvgSessionDurationMinutes; SessionsPerWeek; InGamePurchases] df_local in
  normalize_categorical [GameGenre; Location; EngagementLevel] df_local.

(** [segment_analysis]: the three groupings are computed in the order of
    the returned dictionary, and an exception of one leaves the function. *)
Definition segment_analysis (df : DataFrame) : result Segments :=
  let df_local := prepare_segments df in
  g <- group_by df_local GameGenre ;;
  l <- group_by df_local Location ;;
  e <- group_by df_local EngagementLevel ;;
  Ok {| by_genre := g; by_location := l; by_engagement := e |}.

End Program.

(** A value handed to [_format_percentage]. *)
Inductive pyobj :=
| PFloat (f : float)
| PInt (z : Z)
| PBool (b : bool)
| PStr (s : pystr)
| PNone.

(** [float(x)]: [None] when it raises ([TypeError] on [None], [ValueError] on
    a string that is no number, [OverflowError] on an integer beyond the
    range of floats). *)
Definition py_float {Nm : Numerics} (x : pyobj) : option float :=
  match x with
  | PFloat f => Some f
  | PInt z =>
      match of_Z z with
      | S754_infinity _ => None
      | f => Some f
      end
  | PBool b => Some (bool_float b)
  | PStr s => float_of_str s
  | PNone => None
  end.

(** [_format_percentage]:
    [try: return f"{100.0 * float(x):.2f}%" except Exception: return "n/a"] *)
Definition _format_percentage {Nm : Numerics} (x : pyobj) : pystr :=
  match py_float x with
  | Some f => format_fixed 2 (fmul (of_Z 100) f) ++ lit "%"
  | None => lit "n/a"
  end.

End Engagement.

(* ------------------------------------------------------------------ *)
(** * Reference instances of the interfaces

    Executable instances, used to run the program on concrete tables: the
    Unicode rows of the ASCII range and of two further code points, a reader
    and a printer of decimal literals, the pairwise and the compensated sum,
    and a stable insertion sort. *)

Module Ref.

Import PyFloat PyStr Pandas.

(** ** Unicode rows *)

Definition ascii_space (c : N) : bool :=
  ((9 <=? c) && (c <=? 13) || (28 <=? c) && (c <=? 32))%N.

Definition ascii_upper (c : N) : bool := ((65 <=? c) && (c <=? 90))%N.
Definition ascii_lower (c : N) : bool := ((97 <=? c) && (c <=? 122))%N.

Definition ascii_to_lower (c : N) : N := if ascii_upper c then (c + 32)%N else c.
Definition ascii_to_upper (c : N) : N := if ascii_lower c then (c - 32)%N else c.

(** The apostrophe, full stop, colon, circumflex and grave accent. *)
Definition ascii_case_ignorable (c : N) : bool :=
  existsb (N.eqb c) [39; 46; 58; 94; 96]%N.

(** U+0130 LATIN CAPITAL LETTER I WITH DOT ABOVE is cased and lowers to the
    two code points U+0069 U+0307; U+0307 COMBINING DOT ABOVE is not cased,
    is case-ignorable and maps to itself.  Code points outside the ASCII
    range other than these two get the default row of the database (no white
    space, no case, identity mappings) and are not used below. *)
Definition I_dot : N := 304.
Definition dot_above : N := 775.

#[export] Instance ucd_rows : UCD := {
  is_space := ascii_space;
  is_cased c := ascii_upper c || ascii_lower c || N.eqb c I_dot;
  is_case_ignorable c := ascii_case_ignorable c || N.eqb c dot_above;
  to_lower_full c :=
    if N.eqb c I_dot then [105%N; dot_above] else [ascii_to_lower c];
  to_title_full c := [ascii_to_upper c]
}.

(** A table of rows agrees with the database on the ASCII range. *)
Definition ascii_rows (U : UCD) : Prop :=
  forall c : N, (c < 128)%N ->
    is_space c = ascii_space c /\
    is_cased c = (ascii_upper c || ascii_lower c) /\
    to_lower_full c = [ascii_to_lower c] /\
    to_title_full c = [ascii_to_upper c].

(** [str.title] restricted to the ASCII rows: one character for each. *)
Definition ascii_letter (c : N) : bool := ascii_upper c || ascii_lower c.

Fixpoint ascii_title (previous_is_cased : bool) (s : pystr) : pystr :=
  match s with
  | [] => []
  | c :: r =>
      (if previous_is_cased then ascii_to_lower c else ascii_to_upper c)
        :: ascii_title (ascii_letter c) r
  end.

Definition is_ascii (s : pystr) : Prop := Forall (fun c => (c < 128)%N) s.

(** ** Decimal literals *)

(** [read_digits s acc n]: the leading digits of [s] appended to the number
    [acc]; returns the number, how many digits were read, and the rest. *)
Fixpoint read_digits (s : pystr) (acc : Z) (n : nat) : Z * nat * pystr :=
  match s with
  | c :: r =>
      if is_digit c then read_digits r (10 * acc + Z.of_N (c - 48)) (S n)
      else (acc, n, s)
  | [] => (acc, n, [])
  end.

Definition read_sign (s : pystr) : bool * pystr :=
  match s with
  | 45%N :: r => (true, r)
  | 43%N :: r => (false, r)
  | _ => (false, s)
  end.

(** The exponent part: empty, or [e]/[E], a sign and digits up to the end. *)
Definition read_exponent (s : pystr) : option Z :=
  match s with
  | [] => Some 0%Z
  | c :: r =>
      if (N.eqb c 101 || N.eqb c 69)%bool then
        let '(neg, r1) := read_sign r in
        match read_digits r1 0 0 with
        | (_, O, _) => None
        | (v, _, []) => Some (if neg then Z.opp v else v)
        | _ => None
        end
      else None
  end.

Definition scale10 (neg : bool) (mant : Z) (e10 : Z) : float :=
  match mant with
  | Z0 => S754_zero neg
  | _ =>
      let m := if neg then Z.opp mant else mant in
      match e10 with
      | Zneg k => of_ratio m (Pos.pow 10 k)
      | _ => of_ratio (m * Z.pow 10 e10) 1
      end
  end.

Definition special_word (s : pystr) : option float :=
  let w := map ascii_to_lower s in
  if pystr_eqb w (lit "nan") then Some nan
  else if (pystr_eqb w (lit "inf") || pystr_eqb w (lit "infinity"))%bool
       then Some (S754_infinity false)
       else None.

(** A signed decimal literal with optional fraction and exponent, or one of
    the words [nan], [inf], [infinity]; white space around it is ignored. *)
Definition parse_decimal (s : pystr) : option float :=
  let '(neg, body) := read_sign (strip (U := ucd_rows) s) in
  match special_word body with
  | Some f => Some (if neg then SFopp f else f)
  | None =>
      let '(ip, ni, r1) := read_digits body 0 0 in
      let '(mant, nf, r2) :=
        match r1 with
        | 46%N :: r => read_digits r ip 0
        | _ => (ip, O, r1)
        end in
      match (ni + nf)%nat with
      | O => None
      | _ =>
          match read_exponent r2 with
          | Some e => Some (scale10 neg mant (e - Z.of_nat nf))
          | None => None
          end
      end
  end.

(** ** Printing a float: the shortest decimal that reads back as it *)

Fixpoint count_up (fuel : nat) (num den : Z) (p : Z) : Z :=
  match fuel with
  | O => p
  | S f => if Z.leb (10 * den) num then count_up f num (10 * den) (p + 1) else p
  end.

Fixpoint count_down (fuel : nat) (num den : Z) (p : Z) : Z :=
  match fuel with
  | O => p
  | S f => if Z.ltb num den then count_down f (10 * num) den (p - 1) else p
  end.

(** The decimal exponent [p] of [num / den]: [10^p <= num / den < 10^(p+1)]. *)
Definition decimal_exponent (num den : Z) : Z :=
  if Z.leb den num then count_up 400 num den 0 else count_down 400 num den 0.

(** [d * 10^t] as a float. *)
Definition of_decimal (d t : Z) : float :=
  match t with
  | Zneg k => of_ratio d (Pos.pow 10 k)
  | _ => of_ratio (d * Z.pow 10 t) 1
  end.

(** The shortest digit string for the positive canonical float [x] with value
    [num / den]: with [n] digits, the two neighbours of the value are tried,
    the nearer one first. *)
Fixpoint shortest (fuel n : nat) (x : float) (num den p : Z) : Z * Z :=
  let t := (p + 1 - Z.of_nat n)%Z in
  let '(sn, sd) := match t with
                   | Zneg k => (num * Z.pow 10 (Zpos k), den)
                   | _ => (num, den * Z.pow 10 t)
                   end%Z in
  let lo := Z.div sn sd in
  let near := div_half_even sn sd in
  let far := if Z.eqb near lo then (lo + 1)%Z else lo in
  if float_eqb (of_decimal near t) x then (near, t)
  else if float_eqb (of_decimal far t) x then (far, t)
  else match fuel with
       | O => (near, t)
       | S f => shortest f (S n) x num den p
       end.

Fixpoint drop_zeros (fuel : nat) (d t : Z) : Z * Z :=
  match fuel with
  | O => (d, t)
  | S f => if Z.eqb (d mod 10) 0 then drop_zeros f (d / 10) (t + 1) else (d, t)
  end.

Definition zeros (n : Z) : pystr := repeat 48%N (Z.to_nat n).

Definition repr_finite (x : float) (m : positive) (e : Z) : pystr :=
  let '(num, den) := match e with
                     | Zneg k => (Zpos m, Z.pow 2 (Zpos k))
                     | _ => (Zpos m * Z.pow 2 e, 1)
                     end%Z in
  let p := decimal_exponent num den in
  let '(d0, t0) := shortest 17 1 (SFabs x) num den p in
  let '(d, t) := drop_zeros 20 d0 t0 in
  let ds := nat_digits (Z.to_N d) in
  let nd := Z.of_nat (length ds) in
  let decpt := (nd + t)%Z in
  if ((decpt <=? -4) || (16 <? decpt))%Z then
    let ex := (decpt - 1)%Z in
    firstn 1 ds
      ++ (match skipn 1 ds with [] => [] | r => lit "." ++ r end)
      ++ lit "e" ++ (if Z.ltb ex 0 then lit "-" else lit "+")
      ++ (if Z.ltb (Z.abs ex) 10 then lit "0" else [])
      ++ nat_digits (Z.to_N (Z.abs ex))
  else if (decpt <=? 0)%Z then lit "0." ++ zeros (- decpt) ++ ds
  else if (nd <=? decpt)%Z then ds ++ zeros (decpt - nd) ++ lit ".0"
  else firstn (Z.to_nat decpt) ds ++ lit "." ++ skipn (Z.to_nat decpt) ds.

Definition repr (x : float) : pystr :=
  match x with
  | S754_nan => lit "nan"
  | S754_infinity s => (if s then lit "-" else []) ++ lit "inf"
  | S754_zero s => (if s then lit "-" else []) ++ lit "0.0"
  | S754_finite s m e => (if s then lit "-" else []) ++ repr_finite x m e
  end.

(** ** Integer literals *)

(** A sign and digits that give an [int64]; white space around them is
    ignored. *)
Definition parse_int (s : pystr) : option Z :=
  let '(neg, body) := read_sign (strip (U := ucd_rows) s) in
  match read_digits body 0 0 with
  | (_, O, _) => None
  | (v, _, []) =>
      let z := if neg then Z.opp v else v in
      if (Z.leb (- 2 ^ 63) z && Z.ltb z (2 ^ 63))%bool then Some z else None
  | _ => None
  end.

(** ** Sums of floats *)

Definition fsub : float -> float -> float := SFsub prec emax.

(** Eight running sums, put together in pairs. *)
Definition sum8 (r : list float) : float :=
  match r with
  | [r0; r1; r2; r3; r4; r5; r6; r7] =>
      fadd (fadd (fadd r0 r1) (fadd r2 r3)) (fadd (fadd r4 r5) (fadd r6 r7))
  | _ => pzero
  end.

Fixpoint add_lanes (r xs : list float) : list float :=
  match r, xs with
  | x :: r', y :: xs' => fadd x y :: add_lanes r' xs'
  | _, _ => r
  end.

(** [blocks] further blocks of eight values added to the running sums. *)
Fixpoint lanes (blocks : nat) (r xs : list float) : list float * list float :=
  match blocks with
  | O => (r, xs)
  | S b => lanes b (add_lanes r (firstn 8 xs)) (skipn 8 xs)
  end.

(** A block of at most 128 values: fewer than eight are added from left to
    right; otherwise eight running sums take the values in turn, and what is
    left after the last full block of eight is added to their sum. *)
Definition block_sum (xs : list float) : float :=
  let n := length xs in
  if Nat.ltb n 8 then fold_left fadd xs pzero
  else
    let '(r, rest) := lanes (n / 8 - 1) (firstn 8 xs) (skipn 8 xs) in
    fold_left fadd rest (sum8 r).

(** The pairwise sum of numpy: more than 128 values are cut in two, the first
    part a multiple of eight. *)
Fixpoint pairwise (fuel : nat) (xs : list float) : float :=
  let n := length xs in
  match fuel with
  | O => block_sum xs
  | S f =>
      if Nat.leb n 128 then block_sum xs
      else
        let n2 := (n / 2 - (n / 2) mod 8)%nat in
        fadd (pairwise f (firstn n2 xs)) (pairwise f (skipn n2 xs))
  end.

Definition pairwise_sum (xs : list float) : float :=
  fadd pzero (pairwise (length xs) xs).

(** The sum of a numeric column, its cells read as floats. *)
Definition column_sum (col : column) : float :=
  pairwise_sum (map numeric_view col).

(** The compensated sum of a group: the rounding error of each addition is
    carried to the next one, and dropped when it is not a number. *)
Definition kahan_step (st : float * float) (v : float) : float * float :=
  let '(s, c) := st in
  let y := fsub v c in
  let t := fadd s y in
  let c' := fsub (fsub t s) y in
  (t, if is_nan c' then pzero else c').

Definition kahan_sum (xs : list float) : float :=
  fst (fold_left kahan_step xs (pzero, pzero)).

#[export] Instance decimal_numerics : Numerics := {
  to_numeric_str s := match parse_decimal s with Some f => f | None => nan end;
  int_of_str := parse_int;
  float_of_str := parse_decimal;
  float_repr := repr;
  array_sum := column_sum;
  group_fsum := kahan_sum
}.

(** ** Index sort *)

Fixpoint insert_desc (p : nat * cell) (l : list (nat * cell))
  : list (nat * cell) :=
  match l with
  | [] => [p]
  | q :: r =>
      if cell_leb (snd q) (snd p) then p :: l else q :: insert_desc p r
  end.

Definition sort_pairs (l : list (nat * cell)) : list (nat * cell) :=
  fold_right insert_desc [] l.

(** The order [sort_pairs] establishes between neighbours. *)
Definition pair_ge (p q : nat * cell) : Prop := cell_leb (snd q) (snd p) = true.

#[export] Instance insertion_sorter : Sorter := {
  argsort_desc keys :=
    map fst (sort_pairs (combine (seq 0 (length keys)) keys))
}.

End Ref.

(* ------------------------------------------------------------------ *)
(** * The statements of the specification, as definitions *)

Module Spec.

Import PyFloat PyStr Pandas Engagement.

Section Statements.
Context {U : UCD} {Nm : Numerics}.

(** "Convert to string, trim leading/trailing whitespace, then title-case". *)
Definition normalized (c : cell) : pystr := strip_title (str_of_cell c).

Definition normalize_str (s : pystr) : pystr := normalized (VStr s).

(** "The number of rows whose normalized engagement value is exactly the
    string High". *)
Definition high_rows (col : column) : nat :=
  length (filter (fun c => pystr_eqb (normalized c) (lit "High")) col).

(** "... divided by the total row count, rounded to 4 decimal places";
    "division-by-zero (empty table) yields 0.0". *)
Definition retention_rate (col : column) (rows : nat) : float :=
  match rows with
  | O => pzero
  | _ => round (fdiv (of_Z (Z.of_nat (high_rows col))) (of_Z (Z.of_nat rows))) 4
  end.

(** The number a cell parses to, NaN when it does not parse. *)
Definition parsed (c : cell) : float := numeric_view (to_numeric_cell c).

(** "The successfully parsed (non-missing) values of its source column". *)
Definition parsed_values (col : column) : list float :=
  filter (fun f => negb (is_nan f)) (map parsed col).

(** The sum of the parsed values of a column, as the library adds a column:
    a value that does not parse is left out by standing as zero. *)
Definition parsed_sum (col : column) : float :=
  array_sum (map (fun c => if is_nan (parsed c) then VFloat pzero
                           else to_numeric_cell c) col).

(** "The arithmetic mean ..., rounded to 2 decimal places", and the
    undefined sentinel when there is no value: the sum of the parsed values
    over their number. *)
Definition rounded_mean (col : column) : float :=
  match parsed_values col with
  | [] => nan
  | vs => round (fdiv (parsed_sum col) (of_Z (Z.of_nat (length vs)))) 2
  end.

(** What the specification asks of one mean KPI [value] computed from the
    column [name] of [df]. *)
Definition mean_kpi (df : DataFrame) (name : pystr) (value : float) : Prop :=
  match get_column name df with
  | None => value = nan
  | Some col =>
      value = rounded_mean col /\
      (parsed_values col = [] -> value = nan) /\
      (nrows df = 0 -> well_formed df -> value = nan)
  end.

End Statements.

Definition flag (b : bool) : nat := if b then 1 else 0.

(** The number of columns the aggregation dictionary contributes on [df]:
    one for each of the duration, sessions and player-id columns that is
    present, two for the purchases column. *)
Definition aggregated_columns (df : DataFrame) : nat :=
  flag (has_column AvgSessionDurationMinutes df)
  + flag (has_column SessionsPerWeek df)
  + 2 * flag (has_column InGamePurchases df)
  + flag (has_column PlayerID df).

Definition grouping_keys : list pystr := [GameGenre; Location; EngagementLevel].

(** The values of the [i]-th column of a table. *)
Definition column_at (i : nat) (df : DataFrame) : column :=
  match nth_error (columns df) i with
  | Some p => snd p
  | None => []
  end.

(** The column count C4 announces: the numeric columns present, one for
    [num_players], one for the grouping column. *)
Definition announced_columns (df : DataFrame) : nat :=
  flag (has_column AvgSessionDurationMinutes df)
  + flag (has_column SessionsPerWeek df)
  + flag (has_column InGamePurchases df) + 1 + 1.

(** [t] is the table [u] with its rows taken in the order [idx]. *)
Definition reordered (idx : list nat) (u t : DataFrame) : Prop :=
  nrows t = nrows u /\
  columns t = map (fun p => (fst p, take idx (snd p))) (columns u).

(** How [group_by] arranges a table: [t] is a well-formed table with its
    rows in the order the index sort gives to its [i]-th column. *)
Definition index_sorted {S : Sorter} (i : nat) (t : DataFrame) : Prop :=
  exists u : DataFrame,
    well_formed u /\ i < ncols u /\
    reordered (argsort_desc (column_at i u)) u t.

(** On [n] aggregated columns: with two or more, by the third column (the
    second aggregated one); with one, by the first column (the grouping
    column). *)
Definition arranged_table {S : Sorter} (n : nat) (t : DataFrame) : Prop :=
  (2 <= n -> index_sorted 2 t) /\ (n = 1 -> index_sorted 0 t).

(** The three tables of a result, each with its grouping column. *)
Definition segment_tables (segs : Segments) : list (pystr * DataFrame) :=
  [(GameGenre, by_genre segs);
   (Location, by_location segs);
   (EngagementLevel, by_engagement segs)].

(** The entries of the aggregation dictionary kept for the columns flagged
    present, in the order of the dictionary. *)
Definition select_aggs (a s i p : bool) : list (pystr * aggspec) :=
  (if a then [(AvgSessionDurationMinutes, One Mean)] else [])
  ++ (if s then [(SessionsPerWeek, One Mean)] else [])
  ++ (if i then [(InGamePurchases, Many [Mean; Sum])] else [])
  ++ (if p then [(PlayerID, One Count)] else []).

(** The column labels [agg] gives to a dictionary. *)
Definition agg_output_labels (aggs : list (pystr * aggspec)) : list label :=
  flat_map (fun e => map fst (agg_labels (existsb (fun e => is_many (snd e)) aggs)
                                         (fst e) (snd e)))
           aggs.

Definition rename_count (n : pystr) : pystr :=
  if pystr_eqb n (lit "PlayerID_count") then lit "num_players" else n.

(** The names of the aggregated columns after flattening and renaming. *)
Definition output_names (aggs : list (pystr * aggspec)) : list pystr :=
  map rename_count (map flatten_label (agg_output_labels aggs)).

(** The table [group_by] hands to [sort_values]: the groups of the key column
    as first column, then the aggregated columns under their output names. *)
Definition grouped_table (d : DataFrame) (key : pystr) (keycol : column)
  (lcols : list (label * column)) : DataFrame :=
  {| nrows := length (group_keys keycol);
     columns :=
       (key, group_keys keycol)
       :: combine (output_names
                     (filter (fun kv => has_column (fst kv) d) aggregations))
                  (map snd lcols) |}.

(** The column [group_by] sorts by. *)
Definition sort_key (key : pystr) (names : list pystr) : pystr :=
  if Nat.ltb 1 (length names) then nth 1 names key else key.

(** What the proofs need of the names, decided by computation: there are as
    many as the dictionary announces, and when there are two or more the
    second one differs from the first one and from the grouping column. *)
Definition names_ok (key : pystr) (a s i p : bool) : bool :=
  let names := output_names (select_aggs a s i p) in
  Nat.eqb (length names) (flag a + flag s + 2 * flag i + flag p)
  && (if Nat.ltb 1 (length names)
      then negb (pystr_eqb key (nth 1 names key))
           && negb (pystr_eqb (nth 0 names key) (nth 1 names key))
      else true).

(** A fixed-point rendering with two decimals: an optional minus sign, at
    least one digit, a point, two digits. *)
Definition two_decimals (s : pystr) : Prop :=
  exists (sign int_part : pystr) (d1 d2 : N),
    s = sign ++ int_part ++ lit "." ++ [d1; d2] /\
    (sign = [] \/ sign = lit "-") /\
    int_part <> [] /\ forallb is_digit int_part = true /\
    is_digit d1 = true /\ is_digit d2 = true.

End Spec.

(* ------------------------------------------------------------------ *)
(** * Example tables *)

Module Examples.

Import PyFloat PyStr Pandas Engagement.

Local Open Scope string_scope.
Local Open Scope Z_scope.

Definition strs (l : list string) : column := map (fun s => VStr (lit s)) l.
Definition ints (l : list Z) : column := map VInt l.

(** A table with player identifiers only. *)
Definition players_only : DataFrame :=
  {| nrows := 3%nat; columns := [(PlayerID, ints [1; 2; 3])] |}.

(** EngagementLevel = ["high", "High", "Low", " LOW "]. *)
Definition four_levels : DataFrame :=
  {| nrows := 4%nat;
     columns := [(EngagementLevel, strs ["high"; "High"; "Low"; " LOW "])] |}.

(** AvgSessionDurationMinutes = ["10", "bad", "20"]. *)
Definition one_bad_duration : DataFrame :=
  {| nrows := 3%nat;
     columns := [(AvgSessionDurationMinutes, strs ["10"; "bad"; "20"])] |}.

(** Two genres; the first has the lower mean duration and the higher mean
    number of sessions. *)
Definition two_genres : DataFrame :=
  {| nrows := 2%nat;
     columns := [(PlayerID, ints [1; 2]);
                 (GameGenre, strs ["action"; "puzzle"]);
                 (AvgSessionDurationMinutes, ints [1; 2]);
                 (SessionsPerWeek, ints [5; 1]);
                 (InGamePurchases, ints [3; 4])] |}.

(** Two genres and one aggregated column. *)
Definition sessions_only : DataFrame :=
  {| nrows := 2%nat;
     columns := [(GameGenre, strs ["action"; "puzzle"]);
                 (SessionsPerWeek, ints [5; 1])] |}.

(** A table with every column the segment analysis reads. *)
Definition full_table : DataFrame :=
  {| nrows := 3%nat;
     columns := [(PlayerID, ints [1; 2; 3]);
                 (GameGenre, strs ["rpg"; "Action"; " RPG"]);
                 (Location, strs ["eu"; "us"; "eu"]);
                 (EngagementLevel, strs ["High"; "low"; "high"]);
                 (AvgSessionDurationMinutes, strs ["30"; "45.5"; "x"]);
                 (SessionsPerWeek, ints [3; 7; 4]);
                 (InGamePurchases, ints [10; 0; 30])] |}.

(** Only a location column: a grouping column and nothing to aggregate. *)
Definition location_only : DataFrame :=
  {| nrows := 2%nat; columns := [(Location, strs ["eu"; "us"])] |}.

(** Only a genre column. *)
Definition genre_only : DataFrame :=
  {| nrows := 1%nat; columns := [(GameGenre, strs ["rpg"])] |}.

End Examples.

(* ------------------------------------------------------------------ *)
(** * Loading and reporting: [load_data] and [main] *)

Module Report.

Import PyFloat PyStr Pandas Engagement.

(** What [pd.read_csv(path)] comes to: the file is not there
    ([FileNotFoundError]), reading raises something else, or a table. *)
Inductive read_outcome :=
| FileNotFound
| ReadRaises (e : pyexn)
| ReadOk (df : DataFrame).

(** The file system and the csv reader, as the program sees them. *)
Class Reader := { read_csv : pystr -> read_outcome }.

(** [seg_df.head(5).to_string(index=False)]: the text pandas prints for a
    table. *)
Class Printer := { to_string : DataFrame -> pystr }.

Section Loading.
Context {U : UCD}.

(** [df.columns = [c.strip() for c in df.columns]] *)
Definition strip_columns (df : DataFrame) : DataFrame :=
  {| nrows := nrows df;
     columns := map (fun p => (strip (fst p), snd p)) (columns df) |}.

(** [load_data]. *)
Definition load_data {R : Reader} (path : pystr) : read_outcome :=
  match read_csv path with
  | ReadOk df => ReadOk (strip_columns df)
  | other => other
  end.

End Loading.

(** [df.head(n)]. *)
Definition head (n : nat) (df : DataFrame) : DataFrame :=
  {| nrows := Nat.min n (nrows df);
     columns := map (fun p => (fst p, firstn n (snd p))) (columns df) |}.

(** [df.empty]: an axis of length zero. *)
Definition is_empty (df : DataFrame) : bool :=
  Nat.eqb (nrows df) 0 || Nat.eqb (ncols df) 0.

(** [segments.items()], in the order of the dictionary. *)
Definition segment_items (segs : Segments) : list (pystr * DataFrame) :=
  [(lit "by_genre", by_genre segs);
   (lit "by_location", by_location segs);
   (lit "by_engagement", by_engagement segs)].

Section Main.
Context {U : UCD} {Nm : Numerics} {S : Sorter} {R : Reader} {P : Printer}.

(** The five lines under "=== Top-level KPIs ===". *)
Definition kpi_lines (kpis : KPIs) : list pystr :=
  [lit "=== Top-level KPIs ===";
   lit "Players: " ++ int_repr (total_players kpis);
   lit "Avg Session Duration (min): "
     ++ float_repr (average_session_duration_minutes kpis);
   lit "Avg Sessions/Week: " ++ float_repr (average_sessions_per_week kpis);
   lit "Avg Purchases/User: " ++ float_repr (average_purchases_per_user kpis);
   lit "High Engagement Retention: "
     ++ _format_percentage (PFloat (retention_rate_high_engagement kpis))].

(** The loop over the segments: an empty table is skipped, another one gives
    a title line and its first five rows. *)
Definition segment_lines (segs : Segments) : list pystr :=
  flat_map
    (fun item =>
       if is_empty (snd item) then []
       else [[10%N] ++ lit "=== Segment: " ++ fst item ++ lit " ===";
             to_string (head 5 (snd item))])
    (segment_items segs).

(** [main], after the command line is parsed: [data] is [args.data].  The
    result is what was printed, one string for each call of [print], and the
    value returned or the exception that leaves the function. *)
Definition main (data : pystr) : list pystr * result Z :=
  match load_data data with
  | FileNotFound =>
      ([lit "Data file not found at '" ++ data
          ++ lit "'. Place the CSV and try again."],
       Ok 1%Z)
  | ReadRaises e => ([], Raise e)
  | ReadOk df =>
      let kpis := compute_kpis df in
      match segment_analysis df with
      | Raise e => ([], Raise e)
      | Ok segments => (kpi_lines kpis ++ segment_lines segments, Ok 0%Z)
      end
  end.

End Main.

End Report.

(* ------------------------------------------------------------------ *)
(** * The project checks: [src/check_project.py] *)

Module ProjectCheck.

Import PyStr.

Local Open Scope string_scope.
Local Open Scope list_scope.

(** A dictionary with its keys in insertion order. *)
Definition dict (V : Type) := list (pystr * V).

Fixpoint dict_set {V : Type} (k : pystr) (v : V) (d : dict V) : dict V :=
  match d with
  | [] => [(k, v)]
  | (k', v') :: r =>
      if pystr_eqb k' k then (k', v) :: r else (k', v') :: dict_set k v r
  end.

(** [{key: f(key) for key in keys}] *)
Definition dict_comprehension {V : Type} (f : pystr -> V) (keys : list pystr)
  : dict V :=
  fold_left (fun d k => dict_set k (f k) d) keys [].

(** [x in xs] for a list of strings. *)
Definition mem (x : pystr) (xs : list pystr) : bool :=
  existsb (pystr_eqb x) xs.

(** [prefix] starts [s]. *)
Fixpoint starts_with (prefix s : pystr) : bool :=
  match prefix, s with
  | [], _ => true
  | _ :: _, [] => false
  | a :: p, b :: r => N.eqb a b && starts_with p r
  end.

(** [needle in haystack] for two strings. *)
Fixpoint contains (needle haystack : pystr) : bool :=
  starts_with needle haystack
  || match haystack with
     | [] => false
     | _ :: r => contains needle r
     end.

(** What [pd.read_csv(path, nrows=5)] comes to for a file that exists: it
    raises, or gives a table with these column labels. *)
Inductive head_outcome :=
| HeadRaises
| HeadColumns (names : list pystr).

(** The files, as the checks see them: [os.path.exists], the csv reader, and
    [open(path).read()], which raises or gives the text. *)
Class Files := {
  path_exists : pystr -> bool;
  read_head : pystr -> head_outcome;
  read_text : pystr -> option pystr
}.

Definition REQUIRED_FILES : list pystr :=
  map lit
    ["data/engagement_data.csv"; "notebooks/engagement_analysis.ipynb";
     "dashboards/powerbi_dashboard.pbix"; "dashboards/tableau_dashboard.twb";
     "dashboards/screenshots"; "src/engagement_analysis.py"; "README.md";
     "requirements.txt"; ".gitignore"].

Definition REQUIRED_COLUMNS : list pystr :=
  map lit
    ["PlayerID"; "Age"; "Gender"; "Location"; "GameGenre"; "PlayTimeHours";
     "InGamePurchases"; "GameDifficulty"; "SessionsPerWeek";
     "AvgSessionDurationMinutes"; "PlayerLevel"; "AchievementsUnlocked";
     "EngagementLevel"].

Definition README_SECTIONS : list pystr :=
  map lit
    ["Overview"; "Dataset"; "KPIs"; "Dashboards"; "Tech Stack";
     "Example Insight"; "Quickstart"].

(** The dictionary [check_dataset_columns] returns. *)
Record ColumnReport := {
  present : list pystr;
  missing : list pystr
}.

Section Checks.
Context {U : UCD} {F : Files}.

(** [str.lower()]: every character lowered where it stands. *)
Fixpoint do_lower (before s : pystr) : pystr :=
  match s with
  | [] => []
  | c :: r => lower_at before c r ++ do_lower (c :: before) r
  end.

Definition lower (s : pystr) : pystr := do_lower [] s.

(** [check_files]. *)
Definition check_files (paths : list pystr) : dict bool :=
  dict_comprehension path_exists paths.

(** [check_dataset_columns], with pandas installed: its import stands
    before the [try].  Whatever reading the header raises is caught. *)
Definition check_dataset_columns (csv_path : pystr)
  (required_cols : list pystr) : ColumnReport :=
  if negb (path_exists csv_path)
  then {| missing := required_cols; present := [] |}
  else
    match read_head csv_path with
    | HeadColumns names =>
        let cols := map strip names in
        let present := filter (fun c => mem c cols) required_cols in
        let missing := filter (fun c => negb (mem c cols)) required_cols in
        {| present := present; missing := missing |}
    | HeadRaises => {| present := []; missing := required_cols |}
    end.

(** [check_readme_sections]; [None] when [open] or [read] raises. *)
Definition check_readme_sections (path : pystr)
  (required_sections : list pystr) : option (dict bool) :=
  if negb (path_exists path)
  then Some (dict_comprehension (fun _ => false) required_sections)
  else
    match read_text path with
    | None => None
    | Some content =>
        Some (dict_comprehension
                (fun s => contains (lower s) (lower content))
                required_sections)
    end.

(** [[k for k, ok in d.items() if not ok]] *)
Definition not_ok (d : dict bool) : list pystr :=
  map fst (filter (fun kv => negb (snd kv)) d).

Definition comma_join (l : list pystr) : pystr := join (lit ", ") l.

(** [main]: what was printed, one string for each call of [print], and the
    value returned, [None] when reading the README raises. *)
Definition main : list pystr * option Z :=
  let start := [lit "Running project health checks..." ++ [10%N]] in
  let file_results := check_files REQUIRED_FILES in
  let missing_files := not_ok file_results in
  let dataset_results :=
    check_dataset_columns (lit "data/engagement_data.csv") REQUIRED_COLUMNS in
  match check_readme_sections (lit "README.md") README_SECTIONS with
  | None => (start, None)
  | Some readme_results =>
      let missing_readme := not_ok readme_results in
      let files_block :=
        match missing_files with
        | [] => []
        | _ => [lit "Missing files/directories:"]
               ++ map (fun p => lit " - " ++ p) missing_files ++ [[]]
        end in
      let columns_block :=
        match missing dataset_results with
        | [] => []
        | m => [lit "Dataset is missing required columns:"; comma_join m; []]
        end in
      let readme_block :=
        match missing_readme with
        | [] => []
        | m => [lit "README is missing sections:"; comma_join m; []]
        end in
      let issues :=
        match missing_files, missing dataset_results, missing_readme with
        | [], [], [] => false
        | _, _, _ => true
        end in
      (start ++ files_block ++ columns_block ++ readme_block
         ++ [if issues
             then lit "Warnings found. Please address the items above."
             else lit "Project is GitHub-ready! You can confidently publish."],
       Some (if issues then 1%Z else 0%Z))
  end.

End Checks.

End ProjectCheck.

(* ------------------------------------------------------------------ *)
(** * Example files *)

Module FileExamples.

Import PyStr Pandas Report ProjectCheck.

Local Open Scope string_scope.
Local Open Scope list_scope.

(** A directory with one csv file. *)
Definition one_csv (name : pystr) (df : DataFrame) : Reader :=
  {| read_csv := fun p => if pystr_eqb p name then ReadOk df
                          else FileNotFound |}.


(** A project directory: the paths that exist, the header of its csv files
    and the text of its other files. *)
Definition project (paths : list pystr) (header : head_outcome)
  (text : option pystr) : Files :=
  {| path_exists := fun p => mem p paths;
     read_head := fun _ => header;
     read_text := fun _ => text |}.

(** A data file with every required column, each header with a space before
    it, and two rows. *)
Definition spaced_table : DataFrame :=
  {| nrows := 2;
     columns := map (fun n => (lit " " ++ n, [VInt 1; VInt 2]))
                    REQUIRED_COLUMNS |}.

End FileExamples.

(* ------------------------------------------------------------------ *)
(** * Tables: columns read and written *)

Module TableFacts.

Import PyFloat PyStr Pandas Engagement.

Lemma pystr_eqb_eq (a b : pystr) : pystr_eqb a b = true <-> a = b.
Proof.
  revert b; induction a as [|x a IH]; intros [|y b]; simpl;
    try (split; [discriminate | discriminate]); try tauto.
  rewrite andb_true_iff, N.eqb_eq, IH.
  split; [intros [-> ->]; reflexivity | intros E; inversion E; auto].
Qed.

Lemma pystr_eqb_refl (a : pystr) : pystr_eqb a a = true.
Proof. apply pystr_eqb_eq; reflexivity. Qed.

Lemma pystr_eqb_neq (a b : pystr) : pystr_eqb a b = false <-> a <> b.
Proof.
  rewrite <- pystr_eqb_eq. destruct (pystr_eqb a b); split; congruence.
Qed.

Lemma has_column_get (n : pystr) (df : DataFrame) :
  has_column n df = match get_column n df with Some _ => true | None => false end.
Proof.
  unfold has_column, get_column.
  induction (columns df) as [|p l IH]; simpl; [reflexivity|].
  destruct (pystr_eqb (fst p) n); simpl; auto.
Qed.

Lemma has_column_true (n : pystr) (df : DataFrame) :
  has_column n df = true -> exists c, get_column n df = Some c.
Proof.
  rewrite has_column_get. destruct (get_column n df) as [c|]; [eauto | discriminate].
Qed.

Lemma has_column_false (n : pystr) (df : DataFrame) :
  has_column n df = false -> get_column n df = None.
Proof.
  rewrite has_column_get. destruct (get_column n df); [discriminate | reflexivity].
Qed.

Lemma get_set_column (n m : pystr) (v : column) (df : DataFrame) :
  get_column n (set_column m v df) =
  option_map (fun c => if pystr_eqb n m then v else c) (get_column n df).
Proof.
  unfold get_column, set_column; simpl.
  induction (columns df) as [|p l IH]; simpl; [reflexivity|].
  destruct (pystr_eqb (fst p) m) eqn:Em; simpl;
    destruct (pystr_eqb (fst p) n) eqn:En; simpl; auto.
  - apply pystr_eqb_eq in En; subst n. rewrite Em; reflexivity.
  - apply pystr_eqb_eq in En; subst n. rewrite Em; reflexivity.
Qed.

Lemma get_add_column_other (n k : pystr) (v : column) (df : DataFrame) :
  n <> k -> get_column n (add_column k v df) = get_column n df.
Proof.
  intros Hn. unfold get_column, add_column. simpl.
  induction (columns df) as [|p l IH]; simpl.
  - replace (pystr_eqb k n) with false; [reflexivity|].
    symmetry. apply pystr_eqb_neq. congruence.
  - destruct (pystr_eqb (fst p) n); [reflexivity | exact IH].
Qed.

Section Update.
Variable f : column -> column.

Lemma nrows_update_columns (names : list pystr) (df : DataFrame) :
  nrows (update_columns f names df) = nrows df.
Proof.
  unfold update_columns. revert df.
  induction names as [|a r IH]; intros df; simpl; [reflexivity|].
  rewrite IH. destruct (get_column a df); reflexivity.
Qed.

Lemma get_update_columns (names : list pystr) (n : pystr) (df : DataFrame) :
  NoDup names ->
  get_column n (update_columns f names df) =
  option_map (fun c => if existsb (pystr_eqb n) names then f c else c)
             (get_column n df).
Proof.
  unfold update_columns. intros ND; revert df.
  induction ND as [|a r Hin ND IH]; intros df; simpl.
  - destruct (get_column n df); reflexivity.
  - rewrite IH.
    destruct (pystr_eqb n a) eqn:E; simpl.
    + apply pystr_eqb_eq in E; subst a.
      assert (Hr : existsb (pystr_eqb n) r = false).
      { apply not_true_is_false; intros H; apply existsb_exists in H.
        destruct H as [x [Hx Ex]]. apply pystr_eqb_eq in Ex; subst x; auto. }
      rewrite Hr.
      destruct (get_column n df) as [c|] eqn:G; simpl.
      * rewrite get_set_column, G; simpl. rewrite pystr_eqb_refl; reflexivity.
      * rewrite G; reflexivity.
    + destruct (get_column a df) as [ca|] eqn:G; simpl; [|reflexivity].
      rewrite get_set_column. rewrite E.
      destruct (get_column n df); reflexivity.
Qed.

Lemma has_update_columns (names : list pystr) (n : pystr) (df : DataFrame) :
  NoDup names ->
  has_column n (update_columns f names df) = has_column n df.
Proof.
  intros ND. rewrite !has_column_get, get_update_columns by assumption.
  destruct (get_column n df); reflexivity.
Qed.

End Update.

(** The name lists of the program have no repetition. *)
Ltac distinct_names :=
  vm_compute;
  repeat (constructor; [simpl; intuition discriminate|]); constructor.

Lemma numeric_cols_distinct : NoDup numeric_cols.
Proof. distinct_names. Qed.

Lemma segment_numeric_distinct :
  NoDup [AvgSessionDurationMinutes; SessionsPerWeek; InGamePurchases].
Proof. distinct_names. Qed.

Lemma categorical_distinct : NoDup [GameGenre; Location; EngagementLevel].
Proof. distinct_names. Qed.

Lemma engagement_distinct : NoDup [EngagementLevel].
Proof. distinct_names. Qed.

End TableFacts.

(* ------------------------------------------------------------------ *)
(** * Floats: rounding never loses a positive integer *)

Module FloatFacts.

Import PyFloat.

Lemma round_nan (nd : nat) : round nan nd = nan.
Proof. reflexivity. Qed.

Lemma digits2_pos_log2 (p : positive) :
  Zpos (digits2_pos p) = (Z.log2 (Zpos p) + 1)%Z.
Proof.
  assert (S : forall q, digits2_pos q = Pos.size q)
    by (induction q; simpl; congruence).
  destruct p; simpl; rewrite ?S; lia.
Qed.

Lemma shr_1_m (r : shr_record) :
  (0 <= shr_m r)%Z -> shr_m (shr_1 r) = Z.div2 (shr_m r).
Proof.
  destruct r as [m a b]; simpl.
  destruct m as [|[p|p|]|p]; simpl; intros H; try reflexivity; lia.
Qed.

Lemma shr_iter_m (n : positive) :
  forall r : shr_record,
    (0 <= shr_m r)%Z ->
    shr_m (iter_pos shr_1 n r) = Z.shiftr (shr_m r) (Zpos n).
Proof.
  assert (step : forall r, (0 <= shr_m r)%Z ->
            shr_m (shr_1 r) = Z.shiftr (shr_m r) 1 /\ (0 <= shr_m (shr_1 r))%Z).
  { intros r H. rewrite shr_1_m by assumption. rewrite Z.div2_spec.
    split; [reflexivity | apply Z.shiftr_nonneg; assumption]. }
  induction n as [n IH|n IH|]; intros r H; simpl.
  - destruct (step r H) as [E1 P1].
    rewrite IH; [rewrite IH by assumption|].
    + rewrite E1, !Z.shiftr_shiftr by lia. f_equal; lia.
    + rewrite IH by assumption. apply Z.shiftr_nonneg; assumption.
  - rewrite IH; [rewrite IH by assumption|].
    + rewrite Z.shiftr_shiftr by lia. f_equal; lia.
    + rewrite IH by assumption. apply Z.shiftr_nonneg; assumption.
  - apply step; assumption.
Qed.

Lemma shr_record_of_loc_m (m : Z) (l : location) :
  shr_m (shr_record_of_loc m l) = m.
Proof. destruct l as [|[| |]]; reflexivity. Qed.

(** A mantissa whose leading bit is not below the least exponent keeps a
    positive mantissa through the shift to the target exponent. *)
Lemma shr_fexp_positive (m e : Z) (l : location) :
  (0 < m)%Z -> (emin prec emax <= e + Z.log2 m)%Z ->
  let '(mrs, e') := shr_fexp prec emax m e l in
  (0 < shr_m mrs)%Z /\ (emin prec emax <= e' + Z.log2 (shr_m mrs))%Z.
Proof.
  intros Hm He. unfold shr_fexp, shr.
  assert (D : Zdigits2 m = (Z.log2 m + 1)%Z).
  { destruct m as [|p|p]; try lia. apply digits2_pos_log2. }
  rewrite D.
  destruct (fexp prec emax (Z.log2 m + 1 + e) - e)%Z as [|k|k] eqn:En;
    rewrite ?shr_record_of_loc_m; try (split; assumption).
  rewrite shr_iter_m by (rewrite shr_record_of_loc_m; lia).
  rewrite shr_record_of_loc_m.
  assert (Hk : (Zpos k <= Z.log2 m)%Z).
  { revert En He. unfold fexp, emin, prec, emax. lia. }
  assert (L : Z.log2 (Z.shiftr m (Zpos k)) = (Z.log2 m - Zpos k)%Z).
  { rewrite Z.log2_shiftr by assumption. lia. }
  split.
  - assert (N : (0 <= Z.shiftr m (Zpos k))%Z) by (apply Z.shiftr_nonneg; lia).
    assert (Z.shiftr m (Zpos k) <> 0%Z); [|lia].
    intros Z0. apply Z.shiftr_eq_0_iff in Z0. lia.
  - rewrite L. lia.
Qed.

Lemma round_nearest_even_ge (m : Z) (l : location) :
  (m <= round_nearest_even m l)%Z.
Proof.
  destruct l as [|[| |]]; simpl; try lia. destruct (Z.even m); lia.
Qed.

Lemma binary_round_aux_positive (s : bool) (m e : Z) (l : location) :
  (0 < m)%Z -> (emin prec emax <= e + Z.log2 m)%Z ->
  exists s' m' e',
    binary_round_aux prec emax s m e l = S754_finite s' m' e' \/
    binary_round_aux prec emax s m e l = S754_infinity s'.
Proof.
  intros Hm He. unfold binary_round_aux.
  pose proof (@shr_fexp_positive m e l Hm He) as P1.
  destruct (shr_fexp prec emax m e l) as [mrs1 e1].
  destruct P1 as [M1 E1].
  set (m1 := round_nearest_even (shr_m mrs1) (loc_of_shr_record mrs1)).
  assert (G : (shr_m mrs1 <= m1)%Z) by apply round_nearest_even_ge.
  assert (L : (Z.log2 (shr_m mrs1) <= Z.log2 m1)%Z) by (apply Z.log2_le_mono; lia).
  assert (Hm1 : (0 < m1)%Z) by lia.
  assert (He1 : (emin prec emax <= e1 + Z.log2 m1)%Z) by lia.
  pose proof (@shr_fexp_positive m1 e1 loc_Exact Hm1 He1) as P2.
  destruct (shr_fexp prec emax m1 e1 loc_Exact) as [mrs2 e2].
  destruct P2 as [M2 _].
  destruct (shr_m mrs2) as [|q|q]; try lia.
  destruct (e2 <=? emax - prec)%Z;
    exists s, q, e2; [left | right]; reflexivity.
Qed.

(** [float(n)] of a positive integer is a positive number or infinity. *)
Lemma of_Z_positive (p : positive) :
  exists s m e, of_Z (Zpos p) = S754_finite s m e \/
                of_Z (Zpos p) = S754_infinity s.
Proof.
  unfold of_Z, binary_normalize, binary_round.
  destruct (shl_align p 0 (fexp prec emax (Zpos (digits2_pos p) + 0)))
    as [mz ez] eqn:A.
  apply binary_round_aux_positive; [lia|].
  assert (Hez : (emin prec emax <= ez)%Z).
  { revert A. unfold shl_align, fexp, emin, prec, emax.
    destruct (Z.max (Zpos (digits2_pos p) + 0 - 53) (3 - 1024 - 53) - 0)%Z eqn:D;
      intros A; inversion A; subst; lia. }
  pose proof (Z.log2_nonneg (Zpos mz)). lia.
Qed.

Lemma of_Z_positive_not_zero (z : Z) :
  (0 < z)%Z -> is_zero (of_Z z) = false.
Proof.
  destruct z as [|p|p]; try lia. intros _.
  destruct (of_Z_positive p) as [s [m [e [E|E]]]]; rewrite E; reflexivity.
Qed.

End FloatFacts.

(* ------------------------------------------------------------------ *)
(** * The global KPIs *)

Module KpiFacts.

Import PyFloat PyStr Pandas Engagement TableFacts FloatFacts.

Section Kpis.
Context {U : UCD} {Nm : Numerics}.

Lemma round_unless_nan_round (x : float) (nd : nat) :
  round_unless_nan x nd = round x nd.
Proof. destruct x; reflexivity. Qed.

Lemma kpi_table_engagement (df : DataFrame) :
  get_column EngagementLevel (kpi_table df) =
  option_map (fun c => str_title (str_strip (astype_str c)))
             (get_column EngagementLevel df).
Proof.
  unfold kpi_table, normalize_categorical, coerce_numeric.
  rewrite get_update_columns by apply engagement_distinct.
  rewrite get_update_columns by apply numeric_cols_distinct.
  replace (existsb (pystr_eqb EngagementLevel) [EngagementLevel])
    with true by reflexivity.
  replace (existsb (pystr_eqb EngagementLevel) numeric_cols)
    with false by reflexivity.
  destruct (get_column EngagementLevel df); reflexivity.
Qed.

Lemma kpi_table_numeric (name : pystr) (df : DataFrame) :
  existsb (pystr_eqb name) numeric_cols = true ->
  get_column name (kpi_table df) = option_map to_numeric (get_column name df).
Proof.
  intros Hin.
  unfold kpi_table, normalize_categorical, coerce_numeric.
  rewrite get_update_columns by apply engagement_distinct.
  rewrite get_update_columns by apply numeric_cols_distinct.
  rewrite Hin.
  assert (E : existsb (pystr_eqb name) [EngagementLevel] = false).
  { simpl. rewrite orb_false_r. apply pystr_eqb_neq. intros ->.
    revert Hin. vm_compute. discriminate. }
  rewrite E. destruct (get_column name df); reflexivity.
Qed.

Lemma nrows_kpi_table (df : DataFrame) : nrows (kpi_table df) = nrows df.
Proof.
  unfold kpi_table, normalize_categorical, coerce_numeric.
  rewrite !nrows_update_columns. reflexivity.
Qed.

Lemma count_high_normalized (col : column) :
  count_eq (str_title (str_strip (astype_str col))) (lit "High") =
  Z.of_nat (Spec.high_rows col).
Proof.
  unfold count_eq, Spec.high_rows. f_equal.
  induction col as [|c col IH]; simpl; [reflexivity|].
  unfold Spec.normalized, strip_title.
  destruct (pystr_eqb (title (strip (str_of_cell c))) (lit "High"));
    simpl; rewrite IH; reflexivity.
Qed.

Lemma safe_divide_counts (h : Z) (rows : nat) :
  _safe_divide h (Z.of_nat rows) =
  match rows with
  | O => pzero
  | _ => fdiv (of_Z h) (of_Z (Z.of_nat rows))
  end.
Proof.
  unfold _safe_divide. destruct rows as [|k]; [reflexivity|].
  replace (Z.of_nat (S k) =? 0)%Z with false by (symmetry; apply Z.eqb_neq; lia).
  rewrite of_Z_positive_not_zero by lia. reflexivity.
Qed.

Lemma retention_value (df : DataFrame) :
  retention_rate_high_engagement (compute_kpis df) =
  match get_column EngagementLevel df with
  | Some col => Spec.retention_rate col (nrows df)
  | None => nan
  end.
Proof.
  unfold compute_kpis. cbn [retention_rate_high_engagement].
  fold (kpi_table df).
  rewrite round_unless_nan_round, kpi_table_engagement, nrows_kpi_table.
  destruct (get_column EngagementLevel df) as [col|]; simpl; [|reflexivity].
  rewrite count_high_normalized, safe_divide_counts.
  unfold Spec.retention_rate. destruct (nrows df); reflexivity.
Qed.

Lemma retention_absent (df : DataFrame) :
  has_column EngagementLevel df = false ->
  retention_rate_high_engagement (compute_kpis df) = nan.
Proof.
  intros H. rewrite retention_value.
  rewrite (has_column_false _ _ H). reflexivity.
Qed.

Lemma valid_values_to_numeric (col : column) :
  valid_values (to_numeric col) = Spec.parsed_values col.
Proof.
  unfold valid_values, Spec.parsed_values, Spec.parsed, to_numeric.
  rewrite map_map. reflexivity.
Qed.

Lemma zero_filled_to_numeric (col : column) :
  array_sum (zero_filled (to_numeric col)) = Spec.parsed_sum col.
Proof.
  unfold zero_filled, Spec.parsed_sum, Spec.parsed, to_numeric.
  rewrite map_map. reflexivity.
Qed.

Lemma column_mean_value (name : pystr) (df : DataFrame) :
  existsb (pystr_eqb name) numeric_cols = true ->
  round_unless_nan (column_mean name (kpi_table df)) 2 =
  match get_column name df with
  | Some col => Spec.rounded_mean col
  | None => nan
  end.
Proof.
  intros Hin. rewrite round_unless_nan_round.
  unfold column_mean. rewrite kpi_table_numeric by assumption.
  destruct (get_column name df) as [col|]; simpl; [|reflexivity].
  unfold mean. rewrite valid_values_to_numeric, zero_filled_to_numeric.
  unfold Spec.rounded_mean. destruct (Spec.parsed_values col); reflexivity.
Qed.

Lemma well_formed_get (name : pystr) (df : DataFrame) (col : column) :
  well_formed df -> get_column name df = Some col -> length col = nrows df.
Proof.
  unfold well_formed, get_column. intros W G.
  destruct (find (fun p => pystr_eqb (fst p) name) (columns df)) as [p|] eqn:F;
    [|discriminate].
  inversion G; subst. apply find_some in F. destruct F as [Hin _].
  rewrite Forall_forall in W. apply W; assumption.
Qed.

Lemma mean_kpi_holds (name : pystr) (df : DataFrame) :
  existsb (pystr_eqb name) numeric_cols = true ->
  Spec.mean_kpi df name (round_unless_nan (column_mean name (kpi_table df)) 2).
Proof.
  intros Hin. rewrite column_mean_value by assumption.
  unfold Spec.mean_kpi.
  destruct (get_column name df) as [col|] eqn:G; [|reflexivity].
  split; [reflexivity|]. split.
  - intros E. unfold Spec.rounded_mean. rewrite E. reflexivity.
  - intros Hz W. pose proof (well_formed_get _ W G) as L.
    rewrite Hz in L. destruct col; [reflexivity | discriminate].
Qed.

End Kpis.

End KpiFacts.

(* ------------------------------------------------------------------ *)
(** * The percentage formatter *)

Module FormatFacts.

Import PyFloat PyStr Pandas Engagement.

Lemma uint_cps_digits (u : Decimal.uint) :
  forallb is_digit (uint_cps u) = true.
Proof. induction u; simpl; auto. Qed.

Lemma uint_cps_nonnil (u : Decimal.uint) : u <> Decimal.Nil -> uint_cps u <> [].
Proof. destruct u; simpl; congruence. Qed.

Lemma nat_digits_digits (n : N) : forallb is_digit (nat_digits n) = true.
Proof. apply uint_cps_digits. Qed.

Lemma nat_digits_nonnil (n : N) : nat_digits n <> [].
Proof.
  apply uint_cps_nonnil. destruct n as [|p]; simpl; [discriminate|].
  apply Unsigned.to_uint_nonnil.
Qed.

Lemma digit_cp_digit (d : N) : (d < 10)%N -> is_digit (digit_cp d) = true.
Proof.
  intros H. unfold is_digit, digit_cp.
  apply andb_true_iff; split; apply N.leb_le; lia.
Qed.

Lemma pad_two (n : N) :
  pad_digits 2 n = [digit_cp ((n / 10) mod 10); digit_cp (n mod 10)].
Proof. reflexivity. Qed.

(** A finite value prints with a sign, digits, a point and two digits. *)
Lemma format_fixed_two_decimals (v : float) :
  is_finite v = true -> Spec.two_decimals (format_fixed 2 v).
Proof.
  intros F. unfold Spec.two_decimals.
  assert (G : forall k : N,
    exists d1 d2, pad_digits 2 k = [d1; d2] /\
                  is_digit d1 = true /\ is_digit d2 = true).
  { intros k. rewrite pad_two. do 2 eexists. split; [reflexivity|].
    split; apply digit_cp_digit; apply N.mod_lt; discriminate. }
  destruct v as [s|s| |s m e]; try discriminate; unfold format_fixed;
    cbv zeta;
    match goal with
    | |- context [pad_digits 2 ?k] => destruct (G k) as [d1 [d2 [E [D1 D2]]]]
    end;
    rewrite E;
    match goal with
    | |- context [nat_digits ?q] =>
        exists (if s then lit "-" else []), (nat_digits q), d1, d2
    end;
    (split; [reflexivity|]);
    (split; [destruct s; auto|]);
    (split; [apply nat_digits_nonnil|]);
    (split; [apply nat_digits_digits|]); auto.
Qed.

Lemma percent_is_not_na (s : pystr) : s ++ lit "%" <> lit "n/a".
Proof.
  change (lit "n/a") with ([110; 47] ++ [97])%N. change (lit "%") with [37%N].
  intros E. apply app_inj_tail in E. destruct E as [_ E]. discriminate.
Qed.

End FormatFacts.

(* ------------------------------------------------------------------ *)
(** * Trimming and title-casing *)

Module TitleFacts.

Import PyStr Ref.

Section Trim.
Context {U : UCD}.

Lemma lstrip_clean (s : pystr) : starts_clean (lstrip s).
Proof.
  induction s as [|c r IH]; simpl; [exact I|].
  destruct (is_space c) eqn:E; [assumption | exact E].
Qed.

Lemma lstrip_fixed (s : pystr) : starts_clean s -> lstrip s = s.
Proof. destruct s as [|c r]; simpl; [reflexivity | intros ->; reflexivity]. Qed.

Lemma lstrip_suffix (s : pystr) : exists sp, s = sp ++ lstrip s.
Proof.
  induction s as [|c r [sp IH]]; simpl; [exists []; reflexivity|].
  destruct (is_space c).
  - exists (c :: sp). simpl. f_equal. exact IH.
  - exists []. reflexivity.
Qed.

Lemma starts_clean_prefix (a b : pystr) :
  starts_clean (a ++ b) -> a <> [] -> starts_clean a.
Proof. destruct a; simpl; [congruence | auto]. Qed.

Lemma strip_clean_ends (s : pystr) : clean_ends (strip s).
Proof.
  unfold clean_ends, strip, rstrip.
  set (x := lstrip s). set (y := lstrip (rev x)).
  split.
  - destruct (lstrip_suffix (rev x)) as [sp E]. fold y in E.
    assert (X : x = rev y ++ rev sp).
    { rewrite <- (rev_involutive x), E, rev_app_distr. reflexivity. }
    destruct y as [|c y'] eqn:Y; [exact I|].
    apply starts_clean_prefix with (b := rev sp).
    + rewrite <- X. apply lstrip_clean.
    + simpl. intros N. apply app_eq_nil in N. destruct N; discriminate.
  - rewrite rev_involutive. apply lstrip_clean.
Qed.

Lemma strip_fixed (s : pystr) : clean_ends s -> strip s = s.
Proof.
  intros [A B]. unfold strip, rstrip.
  rewrite (lstrip_fixed _ A), (lstrip_fixed _ B). apply rev_involutive.
Qed.

Lemma lstrip_forall (P : N -> Prop) (s : pystr) :
  Forall P s -> Forall P (lstrip s).
Proof.
  induction 1 as [|c r Hc Hr IH]; simpl; [constructor|].
  destruct (is_space c); [assumption | constructor; assumption].
Qed.

Lemma strip_forall (P : N -> Prop) (s : pystr) :
  Forall P s -> Forall P (strip s).
Proof.
  intros H. unfold strip, rstrip.
  apply Forall_rev, lstrip_forall, Forall_rev, lstrip_forall, H.
Qed.

Lemma same_space_rev (a b : pystr) :
  same_space a b -> same_space (rev a) (rev b).
Proof.
  unfold same_space. induction 1; simpl; [constructor|].
  apply Forall2_app; [assumption | constructor; [assumption | constructor]].
Qed.

Lemma same_space_starts (a b : pystr) :
  same_space a b -> starts_clean a -> starts_clean b.
Proof. destruct 1 as [|x y ? ? E]; simpl; [auto | congruence]. Qed.

Lemma same_space_clean_ends (a b : pystr) :
  same_space a b -> clean_ends a -> clean_ends b.
Proof.
  intros S [A B]. split.
  - exact (same_space_starts S A).
  - exact (same_space_starts (same_space_rev S) B).
Qed.

End Trim.

(** ** Title-casing in the ASCII range *)

Ltac ascii_cases :=
  unfold ascii_letter, ascii_to_lower, ascii_to_upper, ascii_upper,
    ascii_lower, ascii_space;
  repeat match goal with
         | |- context [(?a <=? ?b)%N] =>
             lazymatch a with
             | context [if _ then _ else _] => fail
             | _ => idtac
             end;
             lazymatch b with
             | context [if _ then _ else _] => fail
             | _ => idtac
             end;
             destruct (N.leb_spec a b); cbn [andb orb]
         end;
  try reflexivity; try lia.

Lemma ascii_letter_lower (c : N) : ascii_letter (ascii_to_lower c) = ascii_letter c.
Proof. ascii_cases. Qed.

Lemma ascii_letter_upper (c : N) : ascii_letter (ascii_to_upper c) = ascii_letter c.
Proof. ascii_cases. Qed.

Lemma ascii_lower_lower (c : N) : ascii_to_lower (ascii_to_lower c) = ascii_to_lower c.
Proof. ascii_cases. Qed.

Lemma ascii_upper_upper (c : N) : ascii_to_upper (ascii_to_upper c) = ascii_to_upper c.
Proof. ascii_cases. Qed.

Lemma ascii_space_lower (c : N) : ascii_space (ascii_to_lower c) = ascii_space c.
Proof. ascii_cases. Qed.

Lemma ascii_space_upper (c : N) : ascii_space (ascii_to_upper c) = ascii_space c.
Proof. ascii_cases. Qed.

Lemma ascii_lower_bound (c : N) : (c < 128 -> ascii_to_lower c < 128)%N.
Proof. ascii_cases. Qed.

Lemma ascii_upper_bound (c : N) : (c < 128 -> ascii_to_upper c < 128)%N.
Proof. ascii_cases. Qed.

Lemma ascii_title_idempotent (s : pystr) :
  forall prev, ascii_title prev (ascii_title prev s) = ascii_title prev s.
Proof.
  induction s as [|c r IH]; intros prev; simpl; [reflexivity|].
  destruct prev.
  - rewrite ascii_lower_lower, ascii_letter_lower, IH. reflexivity.
  - rewrite ascii_upper_upper, ascii_letter_upper, IH. reflexivity.
Qed.

Lemma ascii_title_is_ascii (s : pystr) :
  forall prev, is_ascii s -> is_ascii (ascii_title prev s).
Proof.
  unfold is_ascii.
  induction s as [|c r IH]; intros prev H; simpl; [constructor|].
  inversion H; subst. constructor; [|apply IH; assumption].
  destruct prev; [apply ascii_lower_bound | apply ascii_upper_bound]; assumption.
Qed.

Section AsciiRows.
Context {U : UCD}.
Hypothesis rows : ascii_rows U.

Lemma do_title_ascii (s : pystr) :
  forall before prev, is_ascii s -> do_title before prev s = ascii_title prev s.
Proof.
  induction s as [|c r IH]; intros before prev H; simpl; [reflexivity|].
  inversion H as [|? ? Hc Hr]; subst.
  destruct (rows Hc) as [_ [Ec [El Et]]].
  rewrite IH by assumption. rewrite Ec. fold (ascii_letter c).
  unfold lower_at.
  replace (c =? 931)%N with false by (symmetry; apply N.eqb_neq; lia).
  rewrite El, Et. destruct prev; reflexivity.
Qed.

Lemma title_ascii (s : pystr) : is_ascii s -> title s = ascii_title false s.
Proof. apply do_title_ascii. Qed.

Lemma ascii_title_same_space (s : pystr) :
  forall prev, is_ascii s -> same_space s (ascii_title prev s).
Proof.
  unfold same_space.
  induction s as [|c r IH]; intros prev H; simpl; [constructor|].
  inversion H as [|? ? Hc Hr]; subst.
  constructor; [|apply IH; assumption].
  destruct (rows Hc) as [Es _]. rewrite Es.
  destruct prev.
  - destruct (rows (ascii_lower_bound Hc)) as [Es' _].
    rewrite Es'. symmetry; apply ascii_space_lower.
  - destruct (rows (ascii_upper_bound Hc)) as [Es' _].
    rewrite Es'. symmetry; apply ascii_space_upper.
Qed.

(** On ASCII text, trimming and title-casing twice is the same as once. *)
Lemma strip_title_idempotent_ascii (s : pystr) :
  is_ascii s -> strip_title (strip_title s) = strip_title s.
Proof.
  intros A. unfold strip_title.
  assert (At : is_ascii (strip s)) by (apply strip_forall; exact A).
  rewrite (title_ascii At).
  assert (Au : is_ascii (ascii_title false (strip s)))
    by (apply ascii_title_is_ascii; exact At).
  rewrite strip_fixed.
  - rewrite (title_ascii Au). apply ascii_title_idempotent.
  - apply same_space_clean_ends with (a := strip s).
    + apply ascii_title_same_space; exact At.
    + apply strip_clean_ends.
Qed.

End AsciiRows.

Lemma ucd_rows_ascii : ascii_rows ucd_rows.
Proof.
  intros c Hc. simpl. unfold I_dot.
  replace (c =? 304)%N with false by (symmetry; apply N.eqb_neq; lia).
  rewrite orb_false_r. repeat split; reflexivity.
Qed.

End TitleFacts.

(* ------------------------------------------------------------------ *)
(** * The segment tables *)

Module SegmentFacts.

Import PyFloat PyStr Pandas Engagement TableFacts Spec.

Lemma names_ok_all (key : pystr) (a s i p : bool) :
  In key grouping_keys -> names_ok key a s i p = true.
Proof.
  intros [<-|[<-|[<-|[]]]]; destruct a, s, i, p; vm_compute; reflexivity.
Qed.

Lemma map_fst_combine {A B : Type} (l : list A) (l' : list B) :
  length l = length l' -> map fst (combine l l') = l.
Proof.
  revert l'; induction l as [|x l IH]; intros [|y l'] H; simpl in *;
    try discriminate; [reflexivity|]. f_equal. apply IH. lia.
Qed.

Lemma rename_combine (names : list pystr) (cols : list column) :
  map (fun p : pystr * column =>
         if pystr_eqb (fst p) (lit "PlayerID_count")
         then (lit "num_players", snd p) else p)
      (combine names cols)
  = combine (map rename_count names) cols.
Proof.
  revert cols; induction names as [|n names IH]; intros [|c cols]; simpl;
    try reflexivity.
  rewrite IH. unfold rename_count.
  destruct (pystr_eqb n (lit "PlayerID_count")); reflexivity.
Qed.

Section Grouping.
Context {U : UCD} {Nm : Numerics} {S : Sorter}.

Lemma has_prepare_segments (n : pystr) (df : DataFrame) :
  has_column n (prepare_segments df) = has_column n df.
Proof.
  unfold prepare_segments, normalize_categorical, coerce_numeric.
  rewrite has_update_columns by apply categorical_distinct.
  apply has_update_columns. apply segment_numeric_distinct.
Qed.

Lemma available_aggs_select (d : DataFrame) :
  filter (fun kv => has_column (fst kv) d) aggregations
  = select_aggs (has_column AvgSessionDurationMinutes d)
                (has_column SessionsPerWeek d)
                (has_column InGamePurchases d)
                (has_column PlayerID d).
Proof.
  unfold aggregations, select_aggs. cbn [filter fst].
  destruct (has_column AvgSessionDurationMinutes d),
           (has_column SessionsPerWeek d),
           (has_column InGamePurchases d),
           (has_column PlayerID d); reflexivity.
Qed.

Lemma agg_all_present (d : DataFrame) (keycol : column) (keys : list cell)
  (multi : bool) (aggs : list (pystr * aggspec)) :
  Forall (fun e => has_column (fst e) d = true) aggs ->
  exists cols,
    agg_all d keycol keys multi aggs = Ok cols /\
    map fst cols
    = flat_map (fun e => map fst (agg_labels multi (fst e) (snd e))) aggs /\
    Forall (fun c => length c = length keys) (map snd cols).
Proof.
  induction 1 as [|e r He Hr [more [E [M F]]]]; simpl.
  - exists []. repeat split. constructor.
  - destruct (has_column_true _ _ He) as [col G].
    unfold agg_one. rewrite G. simpl. rewrite E. simpl.
    eexists. split; [reflexivity|]. split.
    + rewrite map_app, M, map_map. reflexivity.
    + rewrite map_app. apply Forall_app. split; [|exact F].
      rewrite map_map. apply Forall_forall. intros c Hc.
      apply in_map_iff in Hc. destruct Hc as [lf [<- _]].
      simpl. apply length_map.
Qed.

(** With its column present and something to aggregate, [group_by] sorts a
    table made of the groups and of one column for each output name. *)
Lemma group_by_shape (d : DataFrame) (key : pystr) :
  has_column key d = true ->
  filter (fun kv => has_column (fst kv) d) aggregations <> [] ->
  exists (keys : column) (cols : list column),
    let names :=
      output_names (filter (fun kv => has_column (fst kv) d) aggregations) in
    length cols = length names /\
    Forall (fun c => length c = length keys) cols /\
    group_by d key
    = sort_values_desc (sort_key key names)
        {| nrows := length keys; columns := (key, keys) :: combine names cols |}.
Proof.
  intros Hk Hne. unfold group_by. rewrite Hk. simpl negb. cbv iota.
  set (aggs := filter (fun kv => has_column (fst kv) d) aggregations) in *.
  destruct (has_column_true _ _ Hk) as [keycol G].
  unfold groupby_agg. rewrite G.
  destruct aggs as [|e r] eqn:Ea; [congruence|]. rewrite <- Ea.
  assert (P : Forall (fun e => has_column (fst e) d = true) aggs).
  { apply Forall_forall. intros x Hx. unfold aggs in Hx.
    apply filter_In in Hx. tauto. }
  destruct (agg_all_present d keycol (group_keys keycol)
              (existsb (fun e => is_many (snd e)) aggs) P)
    as [lcols [E [M F]]].
  rewrite E. simpl bind.
  exists (group_keys keycol), (map snd lcols).
  assert (L : length (map snd lcols) = length (output_names aggs)).
  { unfold output_names, agg_output_labels. rewrite <- M.
    rewrite !length_map. reflexivity. }
  split; [exact L|]. split; [exact F|].
  unfold set_labels, rename, labels, reset_index. simpl.
  rewrite rename_combine.
  replace (map rename_count (map flatten_label (map fst lcols)))
    with (output_names aggs)
    by (unfold output_names, agg_output_labels; rewrite M; reflexivity).
  rewrite map_fst_combine by (symmetry; exact L).
  rewrite length_combine, L, Nat.min_id.
  reflexivity.
Qed.

(** Sorting by the name of the [i]-th column. *)
Lemma sort_values_at (by_ : pystr) (u : DataFrame) (i : nat) :
  get_column by_ u = Some (column_at i u) ->
  exists t,
    sort_values_desc by_ u = Ok t /\
    ncols t = ncols u /\
    reordered (argsort_desc (column_at i u)) u t.
Proof.
  intros G. unfold sort_values_desc. rewrite G.
  eexists. split; [reflexivity|]. split.
  - unfold ncols. simpl. apply length_map.
  - split; reflexivity.
Qed.

Lemma well_formed_groups (key : pystr) (keys : column) (names : list pystr)
  (cols : list column) :
  Forall (fun c => length c = length keys) cols ->
  well_formed {| nrows := length keys;
                 columns := (key, keys) :: combine names cols |}.
Proof.
  intros F. unfold well_formed. simpl. constructor; [reflexivity|].
  apply Forall_forall. intros [n c] Hin. simpl.
  apply in_combine_r in Hin. rewrite Forall_forall in F. apply F, Hin.
Qed.

Lemma select_aggs_nil (a s i p : bool) :
  select_aggs a s i p = [] -> flag a + flag s + 2 * flag i + flag p = 0.
Proof. destruct a, s, i, p; simpl; intros H; try discriminate; reflexivity. Qed.

Lemma select_aggs_nil_iff (a s i p : bool) :
  flag a + flag s + 2 * flag i + flag p = 0 -> select_aggs a s i p = [].
Proof. destruct a, s, i, p; simpl; intros H; try discriminate; reflexivity. Qed.

Lemma group_by_present (d : DataFrame) (key : pystr) :
  In key grouping_keys ->
  has_column key d = true ->
  1 <= aggregated_columns d ->
  exists t,
    group_by d key = Ok t /\
    ncols t = aggregated_columns d + 1 /\
    (2 <= aggregated_columns d -> index_sorted 2 t) /\
    (aggregated_columns d = 1 -> index_sorted 0 t).
Proof.
  intros Hin Hk Hc.
  assert (Hne : filter (fun kv => has_column (fst kv) d) aggregations <> []).
  { rewrite available_aggs_select. intros N.
    apply select_aggs_nil in N. unfold aggregated_columns in Hc. lia. }
  destruct (group_by_shape d key Hk Hne) as [keys [cols [L [F E]]]].
  rewrite E. clear E. revert L.
  rewrite available_aggs_select.
  pose proof (names_ok_all (has_column AvgSessionDurationMinutes d)
                (has_column SessionsPerWeek d) (has_column InGamePurchases d)
                (has_column PlayerID d) Hin) as OK.
  unfold names_ok in OK. fold (aggregated_columns d) in OK.
  set (names := output_names _) in *.
  apply andb_true_iff in OK. destruct OK as [Len Distinct].
  apply Nat.eqb_eq in Len.
  clearbody names.
  intros L. unfold sort_key.
  pose proof (@well_formed_groups key keys names cols F) as W.
  assert (N : ncols {| nrows := length keys;
                       columns := (key, keys) :: combine names cols |}
              = aggregated_columns d + 1).
  { unfold ncols. simpl. rewrite length_combine, <- L, Nat.min_id.
    rewrite L, Len. lia. }
  destruct names as [|n0 [|n1 ns]]; simpl in Len.
  - lia.
  - pose (u := {| nrows := length keys;
                  columns := (key, keys) :: combine [n0] cols |}).
    destruct (@sort_values_at key u 0) as [t [E [C R]]].
    { unfold u, get_column, column_at. simpl.
      rewrite pystr_eqb_refl. reflexivity. }
    simpl Nat.ltb. cbv iota. exists t. split; [exact E|].
    fold u in N, W. split; [lia|].
    split; [lia|]. intros _. exists u. split; [exact W|].
    split; [lia | exact R].
  - destruct cols as [|c0 [|c1 cs]]; simpl in L; try discriminate.
    simpl in Distinct. apply andb_true_iff in Distinct.
    destruct Distinct as [D0 D1].
    apply negb_true_iff in D0. apply negb_true_iff in D1.
    pose (u := {| nrows := length keys;
                  columns := (key, keys)
                    :: combine (n0 :: n1 :: ns) (c0 :: c1 :: cs) |}).
    destruct (@sort_values_at n1 u 2) as [t [E [C R]]].
    { unfold u, get_column, column_at. simpl.
      rewrite D0, D1, pystr_eqb_refl. reflexivity. }
    simpl Nat.ltb. cbv iota. simpl nth.
    exists t. split; [exact E|].
    fold u in N, W. split; [lia|].
    split; [|lia]. intros _. exists u. split; [exact W|].
    split; [lia | exact R].
Qed.

Lemma agg_all_same (d1 d2 : DataFrame) (keycol : column) (keys : list cell)
  (multi : bool) (aggs : list (pystr * aggspec)) :
  Forall (fun e => get_column (fst e) d1 = get_column (fst e) d2) aggs ->
  agg_all d1 keycol keys multi aggs = agg_all d2 keycol keys multi aggs.
Proof.
  induction 1 as [|e r He Hr IH]; simpl; [reflexivity|].
  unfold agg_one. rewrite He, IH. reflexivity.
Qed.

(** [group_by] reads its table at the grouping column and at the columns of
    the aggregation dictionary only. *)
Lemma group_by_same (d1 d2 : DataFrame) (key : pystr) :
  (forall n, In n (key :: map fst aggregations) ->
             get_column n d1 = get_column n d2) ->
  group_by d1 key = group_by d2 key.
Proof.
  intros H.
  assert (Hh : forall n, In n (key :: map fst aggregations) ->
                         has_column n d1 = has_column n d2).
  { intros n Hn. rewrite !has_column_get, (H n Hn). reflexivity. }
  unfold group_by.
  assert (F : filter (fun kv => has_column (fst kv) d1) aggregations
              = filter (fun kv => has_column (fst kv) d2) aggregations).
  { apply filter_ext_in. intros e He. apply Hh. right.
    apply in_map. exact He. }
  rewrite F, (Hh key (or_introl eq_refl)).
  set (aggs := filter (fun kv => has_column (fst kv) d2) aggregations).
  assert (A : Forall (fun e => get_column (fst e) d1 = get_column (fst e) d2)
                     aggs).
  { apply Forall_forall. intros e He. apply H. right.
    apply in_map. unfold aggs in He. apply filter_In in He. tauto. }
  clearbody aggs.
  destruct (has_column key d2); cbn [negb]; [|reflexivity].
  unfold groupby_agg. rewrite (H key (or_introl eq_refl)).
  destruct (get_column key d2) as [keycol|]; [|reflexivity].
  destruct aggs as [|e r]; [reflexivity|].
  rewrite (@agg_all_same d1 d2 keycol (group_keys keycol)
             (existsb (fun e0 => is_many (snd e0)) (e :: r)) (e :: r) A).
  reflexivity.
Qed.

Lemma get_prepare_segments (n : pystr) (df : DataFrame) :
  get_column n (prepare_segments df)
  = option_map
      (fun c =>
         let c' :=
           if existsb (pystr_eqb n)
                [AvgSessionDurationMinutes; SessionsPerWeek; InGamePurchases]
           then to_numeric c else c in
         if existsb (pystr_eqb n) [GameGenre; Location; EngagementLevel]
         then str_title (str_strip (astype_str c')) else c')
      (get_column n df).
Proof.
  unfold prepare_segments, normalize_categorical, coerce_numeric.
  rewrite get_update_columns by apply categorical_distinct.
  rewrite get_update_columns by apply segment_numeric_distinct.
  destruct (get_column n df); reflexivity.
Qed.

(** A column added under the name of a grouping column leaves the groupings
    by the other columns as they are. *)
Lemma group_by_other_column (df : DataFrame) (key other : pystr) (v : column) :
  In key grouping_keys -> other <> key ->
  group_by (prepare_segments (add_column key v df)) other
  = group_by (prepare_segments df) other.
Proof.
  intros Hk Ho. apply group_by_same. intros n Hn.
  rewrite !get_prepare_segments.
  rewrite get_add_column_other; [reflexivity|].
  destruct Hn as [<-|Hn]; [exact Ho|].
  intros ->. revert Hn.
  destruct Hk as [<-|[<-|[<-|[]]]]; vm_compute; intuition discriminate.
Qed.

Lemma group_by_absent (d : DataFrame) (key : pystr) :
  has_column key d = false -> group_by d key = Ok empty_frame.
Proof. intros H. unfold group_by. rewrite H. reflexivity. Qed.

Lemma group_by_nothing_to_aggregate (d : DataFrame) (key : pystr) :
  has_column key d = true -> aggregated_columns d = 0 ->
  group_by d key = Raise ValueError.
Proof.
  intros Hk Hz. unfold group_by. rewrite Hk. simpl negb. cbv iota.
  rewrite available_aggs_select, select_aggs_nil_iff by exact Hz.
  destruct (has_column_true _ _ Hk) as [keycol G].
  unfold groupby_agg. rewrite G. reflexivity.
Qed.

Lemma group_by_total (d : DataFrame) (key : pystr) :
  In key grouping_keys -> 1 <= aggregated_columns d ->
  exists t,
    group_by d key = Ok t /\
    (has_column key d = true ->
     ncols t = aggregated_columns d + 1 /\
     arranged_table (aggregated_columns d) t).
Proof.
  intros Hin Hc. destruct (has_column key d) eqn:Hk.
  - destruct (@group_by_present d key Hin Hk Hc) as [t [E [C [D2 D1]]]].
    exists t. split; [exact E|]. intros _. split; [exact C|]. split; assumption.
  - exists empty_frame. split; [apply group_by_absent; exact Hk|].
    discriminate.
Qed.

Lemma aggregated_prepare (df : DataFrame) :
  aggregated_columns (prepare_segments df) = aggregated_columns df.
Proof. unfold aggregated_columns. rewrite !has_prepare_segments. reflexivity. Qed.

(** With something to aggregate, [segment_analysis] returns, and each table
    of a present grouping column has its columns counted and its rows
    arranged by the index sort. *)
Lemma segment_analysis_tables (df : DataFrame) :
  1 <= aggregated_columns df ->
  exists segs,
    segment_analysis df = Ok segs /\
    forall key t,
      In (key, t) (segment_tables segs) -> has_column key df = true ->
      ncols t = aggregated_columns df + 1 /\
      arranged_table (aggregated_columns df) t.
Proof.
  intros Hc. unfold segment_analysis.
  rewrite <- aggregated_prepare in Hc.
  set (d := prepare_segments df) in *.
  destruct (@group_by_total d GameGenre) as [g [Eg Pg]];
    [simpl; auto | exact Hc |].
  destruct (@group_by_total d Location) as [l [El Pl]];
    [simpl; auto | exact Hc |].
  destruct (@group_by_total d EngagementLevel) as [e [Ee Pe]];
    [simpl; auto | exact Hc |].
  rewrite Eg, El, Ee. simpl.
  eexists. split; [reflexivity|].
  intros key t Hin Hk.
  rewrite <- (has_prepare_segments key df) in Hk. fold d in Hk.
  rewrite <- aggregated_prepare. fold d.
  simpl in Hin.
  destruct Hin as [H|[H|[H|[]]]]; inversion H; subst; auto.
Qed.

Lemma take_nil (idx : list nat) : take idx [] = [].
Proof.
  unfold take. induction idx as [|i r IH]; simpl; [reflexivity|].
  destruct i; exact IH.
Qed.

Lemma column_at_reordered (idx : list nat) (u t : DataFrame) (i : nat) :
  reordered idx u t -> column_at i t = take idx (column_at i u).
Proof.
  intros [_ C]. unfold column_at. rewrite C, nth_error_map.
  destruct (nth_error (columns u) i); simpl;
    [reflexivity | symmetry; apply take_nil].
Qed.

Lemma column_at_length (u : DataFrame) (i : nat) :
  well_formed u -> i < ncols u -> length (column_at i u) = nrows u.
Proof.
  unfold well_formed, ncols, column_at. intros W Hi.
  destruct (nth_error (columns u) i) as [p|] eqn:E.
  - rewrite Forall_forall in W. apply W. exact (nth_error_In _ _ E).
  - apply nth_error_None in E. lia.
Qed.

(** A table in the order of an index sort that sorts has the sort column
    descending. *)
Lemma index_sorted_descending (i : nat) (t : DataFrame) :
  sorter_ok S -> index_sorted i t -> descending (column_at i t).
Proof.
  intros Hs [u [W [Hi R]]].
  destruct (Hs (column_at i u)) as [P D].
  rewrite (column_at_reordered i R). exact D.
Qed.

End Grouping.

(** Without anything to aggregate, the first grouping column that is present
    makes [segment_analysis] raise. *)
Lemma segment_analysis_raises
  {U : UCD} {Nm : Numerics} {S : Sorter} (df : DataFrame) :
  aggregated_columns df = 0 ->
  existsb (fun key => has_column key df) grouping_keys = true ->
  segment_analysis df = Raise ValueError.
Proof.
  intros Hz Hk. unfold segment_analysis.
  rewrite <- aggregated_prepare in Hz.
  simpl in Hk. rewrite orb_false_r in Hk.
  rewrite <- !(has_prepare_segments _ df) in Hk.
  set (d := prepare_segments df) in *.
  destruct (has_column GameGenre d) eqn:G.
  { rewrite (group_by_nothing_to_aggregate d _ G Hz). reflexivity. }
  rewrite (group_by_absent d _ G). simpl.
  destruct (has_column Location d) eqn:L.
  { rewrite (group_by_nothing_to_aggregate d _ L Hz). reflexivity. }
  rewrite (group_by_absent d _ L). simpl.
  simpl in Hk.
  rewrite (group_by_nothing_to_aggregate d _ Hk Hz). reflexivity.
Qed.

Lemma descending_check (col : column) :
  descending col -> descendingb col = true.
Proof.
  unfold descending. induction 1 as [|a r Hr IH Hd]; [reflexivity|].
  destruct r as [|b r']; [reflexivity|].
  simpl. inversion Hd; subst.
  apply andb_true_iff. split; [assumption | exact IH].
Qed.

End SegmentFacts.

(* ------------------------------------------------------------------ *)
(** * The reference index sort meets the interface *)

Module SortFacts.

Import PyFloat PyStr Pandas Ref.

Lemma pystr_leb_total (a b : pystr) :
  pystr_leb a b = true \/ pystr_leb b a = true.
Proof.
  revert b; induction a as [|x a IH]; intros [|y b]; simpl; auto.
  destruct (N.ltb_spec x y), (N.ltb_spec y x); auto; try lia.
  replace (x =? y)%N with true by (symmetry; apply N.eqb_eq; lia).
  replace (y =? x)%N with true by (symmetry; apply N.eqb_eq; lia).
  apply IH.
Qed.

Lemma float_leb_total (x y : float) :
  is_nan x = false -> is_nan y = false ->
  float_leb x y = true \/ float_leb y x = true.
Proof.
  unfold float_leb.
  destruct x as [s|s| |s m e], y as [t|t| |t n f]; simpl;
    try discriminate; intros _ _;
    try (destruct s; auto; fail); try (destruct t; auto; fail);
    try (destruct s, t; auto; fail).
  assert (A : Pos.compare_cont Eq n m = CompOpp (Pos.compare_cont Eq m n))
    by (symmetry; apply (Pos.compare_cont_antisym m n Eq)).
  destruct s, t; auto;
    rewrite (Z.compare_antisym e f), A;
    destruct (Z.compare e f); simpl; auto;
    destruct (Pos.compare_cont Eq m n); simpl; auto.
Qed.

Lemma cell_leb_total (a b : cell) :
  cell_leb a b = true \/ cell_leb b a = true.
Proof.
  unfold cell_leb.
  destruct (is_null a) eqn:Na; [auto|].
  destruct (is_null b) eqn:Nb; [auto|].
  destruct a as [s|x|x|x], b as [t|y|y|y]; simpl; auto.
  - apply pystr_leb_total.
  - destruct (Z.leb_spec x y), (Z.leb_spec y x); auto; lia.
  - apply float_leb_total; assumption.
  - destruct x, y; auto.
Qed.

Lemma insert_desc_perm (p : nat * cell) (l : list (nat * cell)) :
  Permutation (insert_desc p l) (p :: l).
Proof.
  induction l as [|q r IH]; simpl; [apply Permutation_refl|].
  destruct (cell_leb (snd q) (snd p)); [apply Permutation_refl|].
  eapply perm_trans; [apply perm_skip, IH | apply perm_swap].
Qed.

Lemma sort_pairs_perm (l : list (nat * cell)) : Permutation (sort_pairs l) l.
Proof.
  induction l as [|p r IH]; simpl; [constructor|].
  eapply perm_trans; [apply insert_desc_perm | apply perm_skip, IH].
Qed.

Lemma insert_desc_sorted (p : nat * cell) (l : list (nat * cell)) :
  Sorted pair_ge l -> Sorted pair_ge (insert_desc p l).
Proof.
  induction 1 as [|q r Hr IH Hd]; simpl.
  - repeat constructor.
  - destruct (cell_leb (snd q) (snd p)) eqn:E.
    + constructor; [constructor; assumption | constructor; exact E].
    + constructor; [exact IH|].
      assert (Q : pair_ge q p).
      { unfold pair_ge. destruct (cell_leb_total (snd q) (snd p)); congruence. }
      destruct r as [|q' r']; simpl in *.
      * constructor; exact Q.
      * destruct (cell_leb (snd q') (snd p)); constructor;
          [exact Q | inversion Hd; assumption].
Qed.

Lemma sort_pairs_sorted (l : list (nat * cell)) : Sorted pair_ge (sort_pairs l).
Proof.
  induction l as [|p r IH]; simpl; [constructor|].
  apply insert_desc_sorted, IH.
Qed.

Lemma sorted_values (l : list (nat * cell)) :
  Sorted pair_ge l -> descending (map snd l).
Proof.
  unfold descending.
  induction 1 as [|q r Hr IH Hd]; simpl; constructor; [exact IH|].
  destruct Hd; simpl; constructor; assumption.
Qed.

Lemma take_positions (keys : column) (l : list (nat * cell)) :
  Forall (fun q => nth_error keys (fst q) = Some (snd q)) l ->
  take (map fst l) keys = map snd l.
Proof.
  unfold take. induction 1 as [|q r Hq Hr IH]; simpl; [reflexivity|].
  rewrite Hq, IH. reflexivity.
Qed.

Lemma enumerate_positions (keys pre : column) :
  Forall (fun q => nth_error (pre ++ keys) (fst q) = Some (snd q))
         (combine (seq (length pre) (length keys)) keys).
Proof.
  revert pre; induction keys as [|c keys IH]; intros pre; simpl;
    constructor.
  - simpl. rewrite nth_error_app2 by lia. rewrite Nat.sub_diag. reflexivity.
  - specialize (IH (pre ++ [c])).
    rewrite length_app, Nat.add_1_r, <- app_assoc in IH. exact IH.
Qed.

Lemma insertion_sorter_ok : sorter_ok insertion_sorter.
Proof.
  intros keys. simpl.
  set (pairs := combine (seq 0 (length keys)) keys).
  assert (P : Permutation (sort_pairs pairs) pairs) by apply sort_pairs_perm.
  split.
  - eapply perm_trans; [apply Permutation_map, P|].
    unfold pairs. rewrite SegmentFacts.map_fst_combine
      by (rewrite length_seq; reflexivity).
    apply Permutation_refl.
  - rewrite take_positions.
    + apply sorted_values, sort_pairs_sorted.
    + eapply Permutation_Forall; [apply Permutation_sym, P|].
      exact (enumerate_positions keys []).
Qed.

End SortFacts.

(* ------------------------------------------------------------------ *)
(** * Properties of the global KPIs and of the formatter *)

Import PyFloat PyStr Pandas Engagement.

(** C1, as amended: for every table that lacks the EngagementLevel column,
    [compute_kpis] returns the undefined sentinel (NaN) as
    retention_rate_high_engagement. *)
Theorem retention_undefined_without_engagement
  {U : UCD} {Nm : Numerics} (df : DataFrame) :
  has_column EngagementLevel df = false ->
  retention_rate_high_engagement (compute_kpis df) = nan.
Proof. apply KpiFacts.retention_absent. Qed.

Lemma retention_undefined_without_engagement_witness :
  has_column EngagementLevel Examples.players_only = false /\
  retention_rate_high_engagement
    (compute_kpis (U := Ref.ucd_rows) (Nm := Ref.decimal_numerics)
                  Examples.players_only) = nan.
Proof.
  split; [reflexivity|].
  apply (@retention_undefined_without_engagement
           Ref.ucd_rows Ref.decimal_numerics Examples.players_only).
  reflexivity.
Defined.

(** C1 as stated fails: on a table with player identifiers only, the
    retention rate is NaN and not 0.0. *)
Lemma retention_not_zero_without_engagement :
  has_column EngagementLevel Examples.players_only = false /\
  retention_rate_high_engagement
    (compute_kpis (U := Ref.ucd_rows) (Nm := Ref.decimal_numerics)
                  Examples.players_only) = nan /\
  retention_rate_high_engagement
    (compute_kpis (U := Ref.ucd_rows) (Nm := Ref.decimal_numerics)
                  Examples.players_only) <> pzero.
Proof.
  split; [reflexivity|]. split; [reflexivity|]. vm_compute. discriminate.
Qed.

(** C2: for every table with an EngagementLevel column, the retention rate is
    the number of rows whose normalized value is "High" divided by the row
    count and rounded to 4 places; it is 0.0 on zero rows; and it is 0.5 on
    the four values "high", "High", "Low", " LOW ". *)
Theorem retention_is_high_fraction
  {U : UCD} {Nm : Numerics} (df : DataFrame) (col : column) :
  get_column EngagementLevel df = Some col ->
  retention_rate_high_engagement (compute_kpis df)
    = Spec.retention_rate col (nrows df) /\
  (nrows df = 0 ->
   retention_rate_high_engagement (compute_kpis df) = pzero) /\
  retention_rate_high_engagement
    (compute_kpis (U := Ref.ucd_rows) (Nm := Ref.decimal_numerics)
                  Examples.four_levels) = of_ratio 1 2.
Proof.
  intros G. rewrite KpiFacts.retention_value, G.
  split; [reflexivity|]. split.
  - intros ->. reflexivity.
  - vm_compute. reflexivity.
Qed.

Lemma retention_is_high_fraction_witness :
  retention_rate_high_engagement
    (compute_kpis (U := Ref.ucd_rows) (Nm := Ref.decimal_numerics)
                  Examples.four_levels)
  = Spec.retention_rate (U := Ref.ucd_rows) (Nm := Ref.decimal_numerics)
      (Examples.strs ["high"; "High"; "Low"; " LOW "]%string) 4.
Proof.
  apply (@retention_is_high_fraction Ref.ucd_rows Ref.decimal_numerics
           Examples.four_levels
           (Examples.strs ["high"; "High"; "Low"; " LOW "]%string)).
  reflexivity.
Defined.

(** C5: each mean KPI is the mean of the parsed, non-missing values of its
    column rounded to 2 places: their sum, as the library adds the column
    with zero in the place of what does not parse, over their number.  It is
    the undefined sentinel when the column is absent, the table is empty or
    nothing parses; a value that does not parse is left out: the mean over
    "10", "bad", "20" is 15.0. *)
Theorem mean_kpis_skip_unparsed {U : UCD} {Nm : Numerics} (df : DataFrame) :
  Spec.mean_kpi df AvgSessionDurationMinutes
    (average_session_duration_minutes (compute_kpis df)) /\
  Spec.mean_kpi df SessionsPerWeek
    (average_sessions_per_week (compute_kpis df)) /\
  Spec.mean_kpi df InGamePurchases
    (average_purchases_per_user (compute_kpis df)) /\
  average_session_duration_minutes
    (compute_kpis (U := Ref.ucd_rows) (Nm := Ref.decimal_numerics)
                  Examples.one_bad_duration) = of_Z 15.
Proof.
  unfold compute_kpis.
  cbn [average_session_duration_minutes average_sessions_per_week
       average_purchases_per_user].
  fold (kpi_table df).
  split; [apply KpiFacts.mean_kpi_holds; reflexivity|].
  split; [apply KpiFacts.mean_kpi_holds; reflexivity|].
  split; [apply KpiFacts.mean_kpi_holds; reflexivity|].
  vm_compute. reflexivity.
Qed.

(** C7: the formatter answers "n/a" when the conversion to a number fails;
    otherwise it prints 100 times the value in fixed notation with two
    decimals, followed by "%": a sign, digits, a point and exactly two
    digits whenever the product is finite; 0.1234 gives "12.34%". *)
Theorem format_percentage_two_decimals {Nm : Numerics} (x : pyobj) :
  (py_float x = None -> _format_percentage x = lit "n/a") /\
  (forall f : float, py_float x = Some f ->
     _format_percentage x = format_fixed 2 (fmul (of_Z 100) f) ++ lit "%" /\
     (is_finite (fmul (of_Z 100) f) = true ->
      Spec.two_decimals (format_fixed 2 (fmul (of_Z 100) f)))) /\
  _format_percentage (PFloat (of_ratio 1234 10000)) = lit "12.34%".
Proof.
  unfold _format_percentage. split; [intros ->; reflexivity|]. split.
  - intros f ->. split; [reflexivity|].
    apply FormatFacts.format_fixed_two_decimals.
  - vm_compute. reflexivity.
Qed.

(** C10: the missing-value sentinel that [compute_kpis] returns without an
    EngagementLevel column is formatted as "nan%": converting NaN succeeds,
    and "n/a" is answered only when the conversion fails. *)
Theorem nan_is_formatted_as_nan_percent
  {U : UCD} {Nm : Numerics} (df : DataFrame) :
  has_column EngagementLevel df = false ->
  _format_percentage
    (PFloat (retention_rate_high_engagement (compute_kpis df))) = lit "nan%" /\
  py_float (PFloat nan) = Some nan /\
  _format_percentage (PFloat nan) <> lit "n/a" /\
  (forall x : pyobj, _format_percentage x = lit "n/a" -> py_float x = None).
Proof.
  intros H. rewrite (KpiFacts.retention_absent df H).
  split; [reflexivity|]. split; [reflexivity|]. split.
  - vm_compute. discriminate.
  - intros x. unfold _format_percentage.
    destruct (py_float x); [|reflexivity].
    intros E. exfalso. exact (FormatFacts.percent_is_not_na _ E).
Qed.

Lemma nan_is_formatted_as_nan_percent_witness :
  _format_percentage (Nm := Ref.decimal_numerics)
    (PFloat (retention_rate_high_engagement
               (compute_kpis (U := Ref.ucd_rows) (Nm := Ref.decimal_numerics)
                             Examples.players_only))) = lit "nan%".
Proof.
  apply (@nan_is_formatted_as_nan_percent Ref.ucd_rows Ref.decimal_numerics
           Examples.players_only).
  reflexivity.
Defined.

(** C6, as amended: on every string of ASCII characters, the categorical
    normalization (to string, trim, title-case) applied twice gives what it
    gives applied once. *)
Theorem normalization_idempotent_on_ascii
  {U : UCD} {Nm : Numerics} (s : pystr) :
  Ref.ascii_rows U -> Ref.is_ascii s ->
  Spec.normalize_str (Spec.normalize_str s) = Spec.normalize_str s.
Proof.
  intros R A. unfold Spec.normalize_str, Spec.normalized. simpl.
  apply TitleFacts.strip_title_idempotent_ascii; assumption.
Qed.

Lemma normalization_idempotent_on_ascii_witness :
  Spec.normalize_str (U := Ref.ucd_rows) (Nm := Ref.decimal_numerics)
    (Spec.normalize_str (U := Ref.ucd_rows) (Nm := Ref.decimal_numerics)
       (lit "  hIGH engagement "))
  = Spec.normalize_str (U := Ref.ucd_rows) (Nm := Ref.decimal_numerics)
      (lit "  hIGH engagement ").
Proof.
  apply (@normalization_idempotent_on_ascii Ref.ucd_rows Ref.decimal_numerics
           (lit "  hIGH engagement ")).
  - exact TitleFacts.ucd_rows_ascii.
  - unfold Ref.is_ascii. simpl. repeat constructor.
Defined.

(** C6 as stated fails: the string "a", U+0130, "b" normalizes to
    "A", "i", U+0307, "b", and that normalizes to "A", "i", U+0307, "B". *)
Lemma normalization_not_idempotent :
  Spec.normalize_str (U := Ref.ucd_rows) (Nm := Ref.decimal_numerics)
    [97; Ref.I_dot; 98]%N = [65; 105; Ref.dot_above; 98]%N /\
  Spec.normalize_str (U := Ref.ucd_rows) (Nm := Ref.decimal_numerics)
    [65; 105; Ref.dot_above; 98]%N = [65; 105; Ref.dot_above; 66]%N /\
  Spec.normalize_str (U := Ref.ucd_rows) (Nm := Ref.decimal_numerics)
    (Spec.normalize_str (U := Ref.ucd_rows) (Nm := Ref.decimal_numerics)
       [97; Ref.I_dot; 98]%N)
  <> Spec.normalize_str (U := Ref.ucd_rows) (Nm := Ref.decimal_numerics)
       [97; Ref.I_dot; 98]%N.
Proof.
  split; [reflexivity|]. split; [reflexivity|]. vm_compute. discriminate.
Qed.

(* ------------------------------------------------------------------ *)
(** * Properties of the segment tables *)

(** C3, at the failing inputs.  On the table of two genres with every
    aggregated column, the genre table comes out with the rows of Action and
    Puzzle in this order: its third column, the sessions mean, holds 5 and 1,
    and its second column, the duration mean, the first aggregated one,
    holds 1 and 2 and is not descending.  On the table with the sessions
    column alone, where one aggregated column exists, the rows come out
    with Puzzle before Action, and the second column, the sessions mean,
    holds 1 and 5 and is not descending. *)
Lemma segments_not_sorted_by_second_column :
  match segment_analysis (U := Ref.ucd_rows) (Nm := Ref.decimal_numerics)
          (S := Ref.insertion_sorter) Examples.two_genres with
  | Ok segs =>
      Spec.column_at 0 (by_genre segs)
        = [VStr (lit "Action"); VStr (lit "Puzzle")] /\
      Spec.column_at 1 (by_genre segs) = [VFloat (of_Z 1); VFloat (of_Z 2)] /\
      Spec.column_at 2 (by_genre segs) = [VFloat (of_Z 5); VFloat (of_Z 1)] /\
      ~ descending (Spec.column_at 1 (by_genre segs))
  | Raise _ => False
  end /\
  match segment_analysis (U := Ref.ucd_rows) (Nm := Ref.decimal_numerics)
          (S := Ref.insertion_sorter) Examples.sessions_only with
  | Ok segs =>
      Spec.column_at 0 (by_genre segs)
        = [VStr (lit "Puzzle"); VStr (lit "Action")] /\
      Spec.column_at 1 (by_genre segs) = [VFloat (of_Z 1); VFloat (of_Z 5)] /\
      ~ descending (Spec.column_at 1 (by_genre segs))
  | Raise _ => False
  end.
Proof.
  split.
  - destruct (segment_analysis Examples.two_genres) as [segs|e] eqn:E;
      vm_compute in E; [|discriminate].
    injection E as <-.
    split; [reflexivity|]. split; [reflexivity|]. split; [reflexivity|].
    intros H. apply SegmentFacts.descending_check in H.
    vm_compute in H. discriminate.
  - destruct (segment_analysis Examples.sessions_only) as [segs|e] eqn:E;
      vm_compute in E; [|discriminate].
    injection E as <-. split; [reflexivity|]. split; [reflexivity|].
    intros H. apply SegmentFacts.descending_check in H.
    vm_compute in H. discriminate.
Qed.

(** C4, as amended: when at least one of the four aggregated columns is
    present, the table of every grouping column that is present has one
    column for the grouping column, one for each of the duration, sessions
    and player-id columns that is present, and two (mean and sum) for the
    purchases column when it is present. *)
Theorem segment_column_count
  {U : UCD} {Nm : Numerics} {S : Sorter} (df : DataFrame) :
  1 <= Spec.aggregated_columns df ->
  exists segs,
    segment_analysis df = Ok segs /\
    forall key t,
      In (key, t) (Spec.segment_tables segs) -> has_column key df = true ->
      ncols t = Spec.aggregated_columns df + 1.
Proof.
  intros Hc.
  destruct (SegmentFacts.segment_analysis_tables df Hc) as [segs [E P]].
  exists segs. split; [exact E|].
  intros key t Hin Hk. apply (P key t Hin Hk).
Qed.

Lemma segment_column_count_witness :
  exists segs,
    segment_analysis (U := Ref.ucd_rows) (Nm := Ref.decimal_numerics)
      (S := Ref.insertion_sorter) Examples.full_table = Ok segs /\
    forall key t,
      In (key, t) (Spec.segment_tables segs) ->
      has_column key Examples.full_table = true ->
      ncols t = Spec.aggregated_columns Examples.full_table + 1.
Proof.
  apply (@segment_column_count Ref.ucd_rows Ref.decimal_numerics
           Ref.insertion_sorter Examples.full_table).
  vm_compute. lia.
Defined.

(** C4 as stated fails: with every column present the genre table has six
    columns, and the count announced is five. *)
Lemma segment_column_count_not_announced :
  has_column GameGenre Examples.full_table = true /\
  Spec.announced_columns Examples.full_table = 5 /\
  match segment_analysis (U := Ref.ucd_rows) (Nm := Ref.decimal_numerics)
          (S := Ref.insertion_sorter) Examples.full_table with
  | Ok segs =>
      map fst (columns (by_genre segs))
        = [lit "GameGenre"; lit "AvgSessionDurationMinutes_mean";
           lit "SessionsPerWeek_mean"; lit "InGamePurchases_mean";
           lit "InGamePurchases_sum"; lit "num_players"] /\
      ncols (by_genre segs) = 6 /\
      ncols (by_genre segs) <> Spec.announced_columns Examples.full_table
  | Raise _ => False
  end.
Proof.
  split; [reflexivity|]. split; [reflexivity|].
  destruct (segment_analysis Examples.full_table) as [segs|e] eqn:E;
    vm_compute in E; [|discriminate].
  injection E as <-. split; [reflexivity|]. split; [reflexivity|].
  vm_compute. discriminate.
Qed.

(** C8, with its failing input: for a grouping column that is absent the
    grouping step gives the empty table, and adding that column, with any
    values, leaves the groupings by the other columns as they are; but when
    nothing can be aggregated and another grouping column is present,
    [segment_analysis] raises and returns no table at all.  The table with a
    Location column only is such an input, GameGenre being the absent
    column. *)
Theorem absent_key_lost_when_another_raises
  {U : UCD} {Nm : Numerics} {S : Sorter} (df : DataFrame) (key : pystr) :
  In key Spec.grouping_keys ->
  has_column key df = false ->
  group_by (prepare_segments df) key = Ok empty_frame /\
  (forall (other : pystr) (v : column),
     other <> key ->
     group_by (prepare_segments (add_column key v df)) other
     = group_by (prepare_segments df) other) /\
  (Spec.aggregated_columns df = 0 ->
   existsb (fun k => has_column k df) Spec.grouping_keys = true ->
   segment_analysis df = Raise ValueError) /\
  segment_analysis (U := Ref.ucd_rows) (Nm := Ref.decimal_numerics)
    (S := Ref.insertion_sorter) Examples.location_only = Raise ValueError.
Proof.
  intros Hk H. split.
  - apply SegmentFacts.group_by_absent.
    rewrite SegmentFacts.has_prepare_segments. exact H.
  - split.
    + intros other v Ho. apply SegmentFacts.group_by_other_column; assumption.
    + split; [apply SegmentFacts.segment_analysis_raises | reflexivity].
Qed.

Lemma absent_key_lost_when_another_raises_witness :
  has_column GameGenre Examples.location_only = false /\
  group_by (Nm := Ref.decimal_numerics) (S := Ref.insertion_sorter)
    (prepare_segments (U := Ref.ucd_rows) (Nm := Ref.decimal_numerics)
       Examples.location_only) GameGenre = Ok empty_frame /\
  segment_analysis (U := Ref.ucd_rows) (Nm := Ref.decimal_numerics)
    (S := Ref.insertion_sorter) Examples.location_only = Raise ValueError.
Proof.
  split; [reflexivity|].
  destruct (@absent_key_lost_when_another_raises Ref.ucd_rows
              Ref.decimal_numerics Ref.insertion_sorter
              Examples.location_only GameGenre)
    as [G [_ [R _]]].
  - simpl. auto.
  - reflexivity.
  - split; [exact G | apply R; reflexivity].
Defined.

(** C9, at the failing inputs: when none of the four aggregated columns is
    present and one of the three grouping columns is, [segment_analysis]
    raises [ValueError]. *)
Theorem segment_analysis_raises_without_aggregates
  {U : UCD} {Nm : Numerics} {S : Sorter} (df : DataFrame) :
  Spec.aggregated_columns df = 0 ->
  existsb (fun key => has_column key df) Spec.grouping_keys = true ->
  segment_analysis df = Raise ValueError.
Proof. apply SegmentFacts.segment_analysis_raises. Qed.

Lemma segment_analysis_raises_without_aggregates_witness :
  segment_analysis (U := Ref.ucd_rows) (Nm := Ref.decimal_numerics)
    (S := Ref.insertion_sorter) Examples.genre_only = Raise ValueError.
Proof.
  apply (@segment_analysis_raises_without_aggregates Ref.ucd_rows
           Ref.decimal_numerics Ref.insertion_sorter Examples.genre_only);
    reflexivity.
Defined.

(* ------------------------------------------------------------------ *)
(** * More on floats: rounding gives a number *)

Module FloatMore.

Import PyFloat FloatFacts.

Lemma shr_fexp_nonneg (m e : Z) (l : location) :
  (0 <= m)%Z -> (0 <= shr_m (fst (shr_fexp prec emax m e l)))%Z.
Proof.
  intros Hm. unfold shr_fexp, shr.
  destruct (fexp prec emax (Zdigits2 m + e) - e)%Z as [|k|k]; simpl;
    rewrite ?shr_record_of_loc_m; try assumption.
  rewrite shr_iter_m by (rewrite shr_record_of_loc_m; assumption).
  rewrite shr_record_of_loc_m. apply Z.shiftr_nonneg. assumption.
Qed.

(** Rounding a mantissa that is not negative never gives NaN. *)
Lemma binary_round_aux_number (s : bool) (m e : Z) (l : location) :
  (0 <= m)%Z -> is_nan (binary_round_aux prec emax s m e l) = false.
Proof.
  intros Hm. unfold binary_round_aux.
  pose proof (@shr_fexp_nonneg m e l Hm) as P1.
  destruct (shr_fexp prec emax m e l) as [mrs1 e1]. simpl in P1.
  set (m1 := round_nearest_even (shr_m mrs1) (loc_of_shr_record mrs1)).
  assert (Hm1 : (0 <= m1)%Z).
  { pose proof (round_nearest_even_ge (shr_m mrs1) (loc_of_shr_record mrs1)).
    unfold m1. lia. }
  pose proof (@shr_fexp_nonneg m1 e1 loc_Exact Hm1) as P2.
  destruct (shr_fexp prec emax m1 e1 loc_Exact) as [mrs2 e2]. simpl in P2.
  destruct (shr_m mrs2) as [|q|q]; try lia; [reflexivity|].
  destruct (e2 <=? emax - prec)%Z; reflexivity.
Qed.

Lemma fdiv_finite_number (s t : bool) (m n : positive) (e f : Z) :
  is_nan (fdiv (S754_finite s m e) (S754_finite t n f)) = false.
Proof.
  unfold fdiv, SFdiv, SFdiv_core_binary.
  set (m' := match (e - f - _)%Z with
             | Zpos _ => _ | Z0 => _ | Zneg _ => _ end).
  assert (Hm' : (0 <= m')%Z).
  { unfold m'. destruct (e - f - _)%Z; try lia.
    apply Z.shiftl_nonneg. lia. }
  pose proof (Z_div_mod m' (Zpos n) eq_refl) as D.
  destruct (Z.div_eucl m' (Zpos n)) as [q r].
  apply binary_round_aux_number.
  destruct D as [D1 D2]. nia.
Qed.

(** A quotient of two numbers is NaN only on 0/0 and on two infinities. *)
Lemma fdiv_number (x y : float) :
  is_nan x = false -> is_nan y = false ->
  is_zero y = false ->
  is_finite x = true \/ is_finite y = true ->
  is_nan (fdiv x y) = false.
Proof.
  destruct x as [s|s| |s m e], y as [t|t| |t n f]; simpl;
    try discriminate; try reflexivity; intros _ _ _ H.
  - destruct H; discriminate.
  - apply fdiv_finite_number.
Qed.

Lemma of_ratio_number (n : Z) (d : positive) : is_nan (of_ratio n d) = false.
Proof.
  unfold of_ratio. destruct n; [reflexivity | | ]; apply fdiv_finite_number.
Qed.

(** [round(x, nd)] is NaN for NaN only. *)
Lemma round_number (x : float) (nd : nat) :
  is_nan (round x nd) = is_nan x.
Proof.
  destruct x as [s|s| |s m e]; try reflexivity.
  unfold round.
  destruct (scaled_magnitude nd (S754_finite s m e)); try reflexivity;
    apply of_ratio_number.
Qed.

Lemma of_Z_negative (p : positive) :
  exists s m e, of_Z (Zneg p) = S754_finite s m e \/
                of_Z (Zneg p) = S754_infinity s.
Proof.
  unfold of_Z, binary_normalize, binary_round.
  destruct (shl_align p 0 (fexp prec emax (Zpos (digits2_pos p) + 0)))
    as [mz ez] eqn:A.
  apply binary_round_aux_positive; [lia|].
  assert (Hez : (emin prec emax <= ez)%Z).
  { revert A. unfold shl_align, fexp, emin, prec, emax.
    destruct (Z.max (Zpos (digits2_pos p) + 0 - 53) (3 - 1024 - 53) - 0)%Z eqn:D;
      intros A; inversion A; subst; lia. }
  pose proof (Z.log2_nonneg (Zpos mz)). lia.
Qed.

(** [float(z)] is zero for the integer zero only, and never NaN. *)
Lemma of_Z_zero_iff (z : Z) : is_zero (of_Z z) = Z.eqb z 0.
Proof.
  destruct z as [|p|p]; [reflexivity | |].
  - destruct (of_Z_positive p) as [s [m [e [E|E]]]]; rewrite E; reflexivity.
  - destruct (of_Z_negative p) as [s [m [e [E|E]]]]; rewrite E; reflexivity.
Qed.

Lemma of_Z_number (z : Z) : is_nan (of_Z z) = false.
Proof.
  destruct z as [|p|p]; [reflexivity | |].
  - destruct (of_Z_positive p) as [s [m [e [E|E]]]]; rewrite E; reflexivity.
  - destruct (of_Z_negative p) as [s [m [e [E|E]]]]; rewrite E; reflexivity.
Qed.

Lemma round_nearest_even_le (m : Z) (l : location) :
  (round_nearest_even m l <= m + 1)%Z.
Proof.
  destruct l as [|[| |]]; simpl; try lia. destruct (Z.even m); lia.
Qed.

(** The shift to the target exponent keeps the position of the leading bit
    and ends on the larger of the two exponents. *)
Lemma shr_fexp_exact (m e : Z) (l : location) :
  (0 < m)%Z -> (emin prec emax <= e + Z.log2 m)%Z ->
  let '(mrs, e') := shr_fexp prec emax m e l in
  (0 < shr_m mrs)%Z /\
  (e' + Z.log2 (shr_m mrs) = e + Z.log2 m)%Z /\
  e' = Z.max e (fexp prec emax (Z.log2 m + 1 + e)).
Proof.
  intros Hm He. unfold shr_fexp, shr.
  assert (D : Zdigits2 m = (Z.log2 m + 1)%Z).
  { destruct m as [|p|p]; try lia. apply digits2_pos_log2. }
  rewrite D.
  destruct (fexp prec emax (Z.log2 m + 1 + e) - e)%Z as [|k|k] eqn:En;
    rewrite ?shr_record_of_loc_m; try (repeat split; lia).
  rewrite shr_iter_m by (rewrite shr_record_of_loc_m; lia).
  rewrite shr_record_of_loc_m.
  assert (Hk : (Zpos k <= Z.log2 m)%Z).
  { revert En He. unfold fexp, emin, prec, emax. lia. }
  assert (L : Z.log2 (Z.shiftr m (Zpos k)) = (Z.log2 m - Zpos k)%Z).
  { rewrite Z.log2_shiftr by assumption. lia. }
  split; [|split; [rewrite L; lia | lia]].
  assert (N : (0 <= Z.shiftr m (Zpos k))%Z) by (apply Z.shiftr_nonneg; lia).
  assert (Z.shiftr m (Zpos k) <> 0%Z); [|lia].
  intros Z0. apply Z.shiftr_eq_0_iff in Z0. lia.
Qed.

(** Below 2^1023 rounding stays finite. *)
Lemma binary_round_aux_finite (s : bool) (m e : Z) (l : location) :
  (0 < m)%Z -> (emin prec emax <= e + Z.log2 m)%Z ->
  (e + Z.log2 m <= 1022)%Z -> (e <= 971)%Z ->
  is_finite (binary_round_aux prec emax s m e l) = true.
Proof.
  intros Hm He Hb Hx. unfold binary_round_aux.
  pose proof (@shr_fexp_exact m e l Hm He) as P1.
  destruct (shr_fexp prec emax m e l) as [mrs1 e1].
  destruct P1 as [M1 [L1 E1]].
  set (m1 := round_nearest_even (shr_m mrs1) (loc_of_shr_record mrs1)).
  assert (G : (shr_m mrs1 <= m1)%Z) by apply round_nearest_even_ge.
  assert (G' : (m1 <= shr_m mrs1 + 1)%Z) by apply round_nearest_even_le.
  assert (La : (Z.log2 (shr_m mrs1) <= Z.log2 m1)%Z)
    by (apply Z.log2_le_mono; lia).
  assert (Lb : (Z.log2 m1 <= Z.log2 (shr_m mrs1) + 1)%Z).
  { pose proof (Z.log2_double (shr_m mrs1) M1) as Dl.
    assert (Z.log2 m1 <= Z.log2 (2 * shr_m mrs1))%Z
      by (apply Z.log2_le_mono; lia).
    lia. }
  assert (Hm1 : (0 < m1)%Z) by lia.
  assert (He1 : (emin prec emax <= e1 + Z.log2 m1)%Z) by lia.
  pose proof (@shr_fexp_exact m1 e1 loc_Exact Hm1 He1) as P2.
  destruct (shr_fexp prec emax m1 e1 loc_Exact) as [mrs2 e2].
  destruct P2 as [M2 [L2 E2]].
  assert (X : (e2 <= emax - prec)%Z).
  { revert E1 E2. unfold fexp, emin, prec, emax. lia. }
  destruct (shr_m mrs2) as [|q|q]; try lia.
  apply Z.leb_le in X. rewrite X. reflexivity.
Qed.

Lemma iter_xO_pow2 (p d : positive) :
  Zpos (Pos.iter xO p d) = (Zpos p * 2 ^ Zpos d)%Z.
Proof.
  induction d as [|d IH] using Pos.peano_ind.
  - simpl. lia.
  - rewrite Pos.iter_succ, Pos2Z.inj_xO, IH, Pos2Z.inj_succ.
    rewrite Z.pow_succ_r by lia. lia.
Qed.

(** [float(z)] is finite for an integer below 2^1023 in absolute value. *)
Lemma of_Z_finite (z : Z) :
  (Z.abs z < 2 ^ 1023)%Z -> is_finite (of_Z z) = true.
Proof.
  intros B.
  assert (K : forall (s : bool) (p : positive), (Zpos p < 2 ^ 1023)%Z ->
            is_finite (binary_round prec emax s p 0) = true).
  { intros s p Hp. unfold binary_round.
    assert (Lp : (Z.log2 (Zpos p) <= 1022)%Z).
    { assert (Z.log2 (Zpos p) < 1023)%Z; [|lia].
      apply Z.log2_lt_pow2; lia. }
    pose proof (Z.log2_nonneg (Zpos p)) as Ln.
    rewrite digits2_pos_log2.
    unfold shl_align.
    destruct (fexp prec emax (Z.log2 (Zpos p) + 1 + 0) - 0)%Z as [|k|k] eqn:D.
    - apply binary_round_aux_finite; unfold emin, prec, emax; lia.
    - apply binary_round_aux_finite; unfold emin, prec, emax; lia.
    - assert (Ef : fexp prec emax (Z.log2 (Zpos p) + 1 + 0) = Zneg k) by lia.
      rewrite Ef.
      assert (Lm : Z.log2 (Zpos (Pos.iter xO p k))
                   = (Zpos k + Z.log2 (Zpos p))%Z).
      { rewrite iter_xO_pow2. apply Z.log2_mul_pow2; lia. }
      apply binary_round_aux_finite; rewrite ?Lm;
        unfold emin, prec, emax; lia. }
  destruct z as [|p|p]; [reflexivity | |]; apply K; simpl in B; lia.
Qed.

End FloatMore.

(* ------------------------------------------------------------------ *)
(** * More on the global KPIs *)

Module KpiMore.

Import PyFloat PyStr Pandas Engagement TableFacts FloatFacts FloatMore KpiFacts.

Section Kpis.
Context {U : UCD} {Nm : Numerics}.

(** The mean KPI of the column [name], from the table given. *)
Definition mean_of (name : pystr) (df : DataFrame) : float :=
  match get_column name df with
  | Some col => Spec.rounded_mean col
  | None => nan
  end.

(** The retention KPI, from the table given. *)
Definition retention_of (df : DataFrame) : float :=
  match get_column EngagementLevel df with
  | Some col => Spec.retention_rate col (nrows df)
  | None => nan
  end.

(** [compute_kpis] in terms of the columns of its argument. *)
Lemma compute_kpis_value (df : DataFrame) :
  compute_kpis df =
  {| total_players := Z.of_nat (nrows df);
     average_session_duration_minutes := mean_of AvgSessionDurationMinutes df;
     average_sessions_per_week := mean_of SessionsPerWeek df;
     average_purchases_per_user := mean_of InGamePurchases df;
     retention_rate_high_engagement := retention_of df |}.
Proof.
  pose proof (retention_value df) as R.
  unfold compute_kpis in *. cbn [retention_rate_high_engagement] in R.
  fold (kpi_table df) in *.
  rewrite R, nrows_kpi_table.
  rewrite !column_mean_value by reflexivity.
  reflexivity.
Qed.

(** [pd.to_numeric] leaves what it has read as it is. *)
Lemma to_numeric_cell_twice (c : cell) :
  to_numeric_cell (to_numeric_cell c) = to_numeric_cell c.
Proof.
  destruct c as [s| | |]; try reflexivity.
  simpl. destruct (int_of_str s); reflexivity.
Qed.

Lemma parsed_to_numeric (c : cell) :
  Spec.parsed (to_numeric_cell c) = Spec.parsed c.
Proof. unfold Spec.parsed. rewrite to_numeric_cell_twice. reflexivity. Qed.

Lemma rounded_mean_to_numeric (col : column) :
  Spec.rounded_mean (to_numeric col) = Spec.rounded_mean col.
Proof.
  unfold Spec.rounded_mean, Spec.parsed_values, Spec.parsed_sum, to_numeric.
  rewrite !map_map.
  rewrite (map_ext _ _ parsed_to_numeric).
  rewrite (map_ext
             (fun c => if is_nan (Spec.parsed (to_numeric_cell c))
                       then VFloat pzero
                       else to_numeric_cell (to_numeric_cell c))
             (fun c => if is_nan (Spec.parsed c) then VFloat pzero
                       else to_numeric_cell c))
    by (intros c; rewrite parsed_to_numeric, to_numeric_cell_twice;
        reflexivity).
  reflexivity.
Qed.

Lemma safe_divide_value (n d : Z) :
  _safe_divide n d = if Z.eqb d 0 then pzero else fdiv (of_Z n) (of_Z d).
Proof.
  unfold _safe_divide. destruct (Z.eqb d 0) eqn:E.
  - reflexivity.
  - rewrite of_Z_zero_iff, E. reflexivity.
Qed.

Lemma retention_rate_number (col : column) (rows : nat) :
  (Z.of_nat rows < 2 ^ 1023)%Z ->
  is_nan (Spec.retention_rate col rows) = false.
Proof.
  intros B. unfold Spec.retention_rate.
  destruct rows as [|k]; [reflexivity|].
  rewrite round_number. apply fdiv_number.
  - apply of_Z_number.
  - apply of_Z_number.
  - rewrite of_Z_zero_iff. apply Z.eqb_neq. lia.
  - right. apply of_Z_finite. lia.
Qed.

End Kpis.

End KpiMore.

(* ------------------------------------------------------------------ *)
(** * Further properties of [_safe_divide] and [compute_kpis] *)

(** X1: [_safe_divide] gives 0.0 on a zero denominator, whatever the
    numerator is.  On any other denominator, negative ones included, and
    with both integers in the range [float] converts, it gives the float
    quotient, and that is never NaN. *)
Theorem safe_divide_guards_zero (n d : Z) :
  (d = 0%Z -> _safe_divide n d = pzero) /\
  (d <> 0%Z ->
   is_finite (of_Z n) = true -> is_finite (of_Z d) = true ->
   _safe_divide n d = fdiv (of_Z n) (of_Z d) /\
   is_nan (_safe_divide n d) = false).
Proof.
  rewrite KpiMore.safe_divide_value. split.
  - intros ->. reflexivity.
  - intros H Fn Fd. apply Z.eqb_neq in H. rewrite H.
    split; [reflexivity|].
    apply FloatMore.fdiv_number.
    + apply FloatMore.of_Z_number.
    + apply FloatMore.of_Z_number.
    + rewrite FloatMore.of_Z_zero_iff. exact H.
    + right. exact Fd.
Qed.

Lemma safe_divide_guards_zero_witness :
  _safe_divide 3 0 = pzero /\
  _safe_divide 1 (-4) = fdiv (of_Z 1) (of_Z (-4)) /\
  is_nan (_safe_divide 1 (-4)) = false.
Proof.
  split.
  - apply (proj1 (safe_divide_guards_zero 3 0)). reflexivity.
  - apply (proj2 (safe_divide_guards_zero 1 (-4))).
    + discriminate.
    + reflexivity.
    + reflexivity.
Defined.

(** X2: [total_players] is the number of rows of the table, whatever its
    columns are; it is 0 on a table without rows. *)
Theorem total_players_is_row_count
  {U : UCD} {Nm : Numerics} (df : DataFrame) :
  total_players (compute_kpis df) = Z.of_nat (nrows df).
Proof. rewrite KpiMore.compute_kpis_value. reflexivity. Qed.

(** X3: the KPIs are read from the row count and from the four columns
    EngagementLevel, AvgSessionDurationMinutes, SessionsPerWeek and
    InGamePurchases only: two tables that agree on these have the same
    KPIs. *)
Theorem kpis_read_four_columns
  {U : UCD} {Nm : Numerics} (df1 df2 : DataFrame) :
  nrows df1 = nrows df2 ->
  (forall name,
     In name [EngagementLevel; AvgSessionDurationMinutes; SessionsPerWeek;
              InGamePurchases] ->
     get_column name df1 = get_column name df2) ->
  compute_kpis df1 = compute_kpis df2.
Proof.
  intros Hn Hc. rewrite !KpiMore.compute_kpis_value.
  unfold KpiMore.mean_of, KpiMore.retention_of.
  rewrite Hn.
  rewrite (Hc EngagementLevel), (Hc AvgSessionDurationMinutes),
    (Hc SessionsPerWeek), (Hc InGamePurchases) by (simpl; auto).
  reflexivity.
Qed.

Lemma kpis_read_four_columns_witness :
  compute_kpis (U := Ref.ucd_rows) (Nm := Ref.decimal_numerics)
    Examples.four_levels
  = compute_kpis (U := Ref.ucd_rows) (Nm := Ref.decimal_numerics)
      (add_column PlayerID (Examples.ints [1; 2; 3; 4]%Z) Examples.four_levels).
Proof.
  apply (@kpis_read_four_columns Ref.ucd_rows Ref.decimal_numerics
           Examples.four_levels
           (add_column PlayerID (Examples.ints [1; 2; 3; 4]%Z)
                       Examples.four_levels)).
  - reflexivity.
  - intros name H. simpl in H.
    destruct H as [<-|[<-|[<-|[<-|[]]]]]; reflexivity.
Defined.

(** X4: coercing the numeric columns beforehand changes nothing: the KPIs of
    a table whose numeric columns went through [pd.to_numeric] are the KPIs
    of the table. *)
Theorem kpis_unchanged_by_coercion
  {U : UCD} {Nm : Numerics} (df : DataFrame) :
  compute_kpis (coerce_numeric numeric_cols df) = compute_kpis df.
Proof.
  rewrite !KpiMore.compute_kpis_value.
  unfold KpiMore.mean_of, KpiMore.retention_of, coerce_numeric.
  rewrite TableFacts.nrows_update_columns.
  rewrite !TableFacts.get_update_columns by apply TableFacts.numeric_cols_distinct.
  replace (existsb (pystr_eqb EngagementLevel) numeric_cols)
    with false by reflexivity.
  replace (existsb (pystr_eqb AvgSessionDurationMinutes) numeric_cols)
    with true by reflexivity.
  replace (existsb (pystr_eqb SessionsPerWeek) numeric_cols)
    with true by reflexivity.
  replace (existsb (pystr_eqb InGamePurchases) numeric_cols)
    with true by reflexivity.
  destruct (get_column EngagementLevel df),
    (get_column AvgSessionDurationMinutes df),
    (get_column SessionsPerWeek df),
    (get_column InGamePurchases df); simpl;
    rewrite ?KpiMore.rounded_mean_to_numeric; reflexivity.
Qed.

(** X5: with an EngagementLevel column the retention rate is a number: on a
    table whose row count is a machine integer it is never the undefined
    sentinel, whatever the cells are. *)
Theorem retention_defined_with_engagement
  {U : UCD} {Nm : Numerics} (df : DataFrame) :
  has_column EngagementLevel df = true ->
  (Z.of_nat (nrows df) < 2 ^ 63)%Z ->
  is_nan (retention_rate_high_engagement (compute_kpis df)) = false.
Proof.
  intros H B. rewrite KpiMore.compute_kpis_value. simpl.
  unfold KpiMore.retention_of.
  destruct (TableFacts.has_column_true _ _ H) as [col G]. rewrite G.
  apply KpiMore.retention_rate_number.
  assert ((2 ^ 63 < 2 ^ 1023)%Z) by (apply Z.pow_lt_mono_r; lia). lia.
Qed.

Lemma retention_defined_with_engagement_witness :
  is_nan (retention_rate_high_engagement
            (compute_kpis (U := Ref.ucd_rows) (Nm := Ref.decimal_numerics)
                          Examples.four_levels)) = false.
Proof.
  apply (@retention_defined_with_engagement Ref.ucd_rows Ref.decimal_numerics
           Examples.four_levels).
  - reflexivity.
  - reflexivity.
Defined.

(* ------------------------------------------------------------------ *)
(** * Facts on groups *)

Module GroupFacts.

Import PyFloat PyStr Pandas Engagement TableFacts Spec SegmentFacts SortFacts.

Lemma float_eqb_eq (x y : float) : float_eqb x y = true -> x = y.
Proof.
  destruct x as [s|s| |s m e], y as [t|t| |t n f]; simpl; try discriminate;
    try reflexivity.
  - intros H. apply eqb_prop in H. congruence.
  - intros H. apply eqb_prop in H. congruence.
  - intros H. apply andb_true_iff in H. destruct H as [H He].
    apply andb_true_iff in H. destruct H as [Hs Hm].
    apply eqb_prop in Hs. apply Pos.eqb_eq in Hm. apply Z.eqb_eq in He.
    congruence.
Qed.

Lemma float_eqb_refl (x : float) : float_eqb x x = true.
Proof.
  destruct x as [s|s| |s m e]; simpl; try reflexivity;
    rewrite ?eqb_reflx, ?Pos.eqb_refl, ?Z.eqb_refl; reflexivity.
Qed.

Lemma cell_eqb_eq (a b : cell) : cell_eqb a b = true -> a = b.
Proof.
  destruct a, b; simpl; try discriminate; intros H.
  - apply pystr_eqb_eq in H. congruence.
  - apply Z.eqb_eq in H. congruence.
  - apply float_eqb_eq in H. congruence.
  - apply eqb_prop in H. congruence.
Qed.

Lemma cell_eqb_refl (a : cell) : cell_eqb a a = true.
Proof.
  destruct a; simpl.
  - apply pystr_eqb_refl.
  - apply Z.eqb_refl.
  - apply float_eqb_refl.
  - apply eqb_reflx.
Qed.

Lemma cell_eqb_neq (a b : cell) : cell_eqb a b = false -> a <> b.
Proof. intros H E. subst. rewrite cell_eqb_refl in H. discriminate. Qed.

Lemma pystr_leb_trans (a b c : pystr) :
  pystr_leb a b = true -> pystr_leb b c = true -> pystr_leb a c = true.
Proof.
  revert b c; induction a as [|x a IH]; intros [|y b] [|z c]; simpl;
    try discriminate; try reflexivity.
  destruct (N.ltb_spec x y), (N.ltb_spec y z), (N.ltb_spec x z);
    try reflexivity; try lia; try discriminate.
  - destruct (N.eqb_spec y z); [lia | discriminate].
  - destruct (N.eqb_spec x y); [lia | discriminate].
  - destruct (N.eqb_spec x y); [|discriminate].
    destruct (N.eqb_spec y z); [|discriminate].
    destruct (N.eqb_spec x z); [|lia]. apply IH.
Qed.

Lemma pystr_leb_antisym (a b : pystr) :
  pystr_leb a b = true -> pystr_leb b a = true -> a = b.
Proof.
  revert b; induction a as [|x a IH]; intros [|y b]; simpl;
    try discriminate; try reflexivity.
  destruct (N.ltb_spec x y), (N.ltb_spec y x); try lia; try discriminate.
  - destruct (N.eqb_spec y x); [lia | discriminate].
  - destruct (N.eqb_spec x y); [lia | discriminate].
  - destruct (N.eqb_spec x y); [|discriminate].
    destruct (N.eqb_spec y x); [|discriminate].
    intros H1 H2. f_equal; [assumption | apply IH; assumption].
Qed.

(** A column of strings. *)
Lemma strings_leb (s t : pystr) :
  cell_leb (VStr s) (VStr t) = pystr_leb s t.
Proof. reflexivity. Qed.

Lemma insert_key_strings (s : pystr) (ks : list pystr) :
  exists ks', insert_key (VStr s) (map VStr ks) = map VStr ks' /\
    (forall x, In x ks' <-> x = s \/ In x ks) /\
    (StronglySorted (fun a b => pystr_leb a b = true) ks -> NoDup ks ->
     StronglySorted (fun a b => pystr_leb a b = true) ks' /\ NoDup ks').
Proof.
  induction ks as [|h r IH].
  - exists [s]. simpl. split; [reflexivity|]. split.
    + intros x. intuition.
    + intros _ _. split; repeat constructor. intros [].
  - simpl. destruct (pystr_eqb s h) eqn:E.
    + apply pystr_eqb_eq in E. subst h.
      exists (s :: r). split; [reflexivity|]. split.
      * intros x. simpl. intuition.
      * intros Hs Hn. split; assumption.
    + rewrite strings_leb. destruct (pystr_leb s h) eqn:L.
      * exists (s :: h :: r). split; [reflexivity|]. split.
        { intros x. simpl. intuition. }
        intros Hs Hn.
        assert (F : Forall (fun b => pystr_leb s b = true) (h :: r)).
        { constructor; [exact L|]. inversion Hs as [|? ? _ Fh]; subst.
          revert Fh. apply Forall_impl. intros b Hb.
          exact (pystr_leb_trans _ _ _ L Hb). }
        split; [constructor; assumption|].
        constructor; [|exact Hn].
        intros [->|Hin].
        { rewrite pystr_eqb_refl in E. discriminate. }
        inversion Hs as [|? ? _ Fh]; subst.
        rewrite Forall_forall in Fh. specialize (Fh s Hin).
        pose proof (pystr_leb_antisym _ _ L Fh) as ->.
        rewrite pystr_eqb_refl in E. discriminate.
      * destruct IH as [ks' [E' [M P]]].
        exists (h :: ks'). split; [simpl; rewrite E'; reflexivity|]. split.
        { intros x. simpl. rewrite M. intuition. }
        intros Hs Hn. inversion Hs as [|? ? Sr Fh]; subst.
        inversion Hn as [|? ? Nh Nr]; subst.
        destruct (P Sr Nr) as [S' N'].
        assert (Hh : pystr_leb h s = true).
        { destruct (pystr_leb_total s h); congruence. }
        split.
        { constructor; [exact S'|]. apply Forall_forall. intros b Hb.
          apply M in Hb. destruct Hb as [->|Hb]; [exact Hh|].
          rewrite Forall_forall in Fh. apply Fh, Hb. }
        constructor; [|exact N'].
        intros Hin. apply M in Hin. destruct Hin as [->|Hin]; [|tauto].
        rewrite pystr_eqb_refl in E. discriminate.
Qed.

(** The groups of a column of strings: every string of the column once, in
    ascending order. *)
Lemma group_keys_strings (l : list pystr) :
  exists ks, group_keys (map VStr l) = map VStr ks /\
    (forall x, In x ks <-> In x l) /\
    StronglySorted (fun a b => pystr_leb a b = true) ks /\ NoDup ks.
Proof.
  unfold group_keys.
  assert (F : filter (fun c => negb (is_null c)) (map VStr l) = map VStr l).
  { induction l as [|s l IH]; simpl; [reflexivity|]. rewrite IH. reflexivity. }
  rewrite F. clear F.
  induction l as [|s l [ks [E [M [Hs Hn]]]]]; simpl.
  - exists []. split; [reflexivity|]. split; [tauto|].
    split; constructor.
  - rewrite E. destruct (insert_key_strings s ks) as [ks' [E' [M' P]]].
    exists ks'. split; [exact E'|]. split.
    + intros x. rewrite M', M. simpl. intuition.
    + apply P; assumption.
Qed.

Lemma NoDup_map_VStr (ks : list pystr) : NoDup ks -> NoDup (map VStr ks).
Proof.
  induction 1 as [|k ks Hk Hn IH]; simpl; constructor; [|exact IH].
  intros Hin. apply in_map_iff in Hin. destruct Hin as [x [E Hx]].
  injection E as ->. contradiction.
Qed.

(** ** Rows taken in another order *)

Lemma take_seq (pre c : column) :
  take (seq (length pre) (length c)) (pre ++ c) = c.
Proof.
  revert pre; induction c as [|x c IH]; intros pre; [reflexivity|].
  unfold take in *. simpl.
  rewrite nth_error_app2 by lia. rewrite Nat.sub_diag. simpl. f_equal.
  specialize (IH (pre ++ [x])).
  rewrite length_app, <- app_assoc in IH. simpl in IH.
  rewrite Nat.add_1_r in IH. exact IH.
Qed.

Lemma take_permutation (idx : list nat) (c : column) :
  Permutation idx (seq 0 (length c)) -> Permutation (take idx c) c.
Proof.
  intros P. unfold take.
  rewrite (Permutation_flat_map _ P).
  pose proof (take_seq [] c) as T. simpl in T. unfold take in T.
  rewrite T. reflexivity.
Qed.

End GroupFacts.

(* ------------------------------------------------------------------ *)
(** * The rows of the segment tables *)

Module GroupRows.

Import PyFloat PyStr Pandas Engagement TableFacts Spec SegmentFacts SortFacts.
Import GroupFacts.

(** ** Counting the rows of the groups *)

Lemma sum_zero {A : Type} (l : list A) :
  fold_right Z.add 0%Z (map (fun _ => 0%Z) l) = 0%Z.
Proof. induction l as [|x l IH]; simpl; [reflexivity | exact IH]. Qed.

Lemma sum_add {A : Type} (f g : A -> Z) (l : list A) :
  fold_right Z.add 0%Z (map (fun k => (f k + g k)%Z) l)
  = (fold_right Z.add 0%Z (map f l) + fold_right Z.add 0%Z (map g l))%Z.
Proof. induction l as [|x l IH]; simpl; [reflexivity | rewrite IH; lia]. Qed.

(** A row is counted in the group of its label and in no other. *)
Lemma sum_one_group (keys : list cell) (x : cell) (n : Z) :
  NoDup keys -> In x keys ->
  fold_right Z.add 0%Z (map (fun k => if cell_eqb x k then n else 0%Z) keys)
  = n.
Proof.
  induction 1 as [|k keys Hk Hn IH]; simpl; [intros []|].
  intros [->|Hin].
  - rewrite cell_eqb_refl.
    assert (Z0 : fold_right Z.add 0%Z
                   (map (fun k => if cell_eqb x k then n else 0%Z) keys) = 0%Z).
    { transitivity (fold_right Z.add 0%Z (map (fun _ : cell => 0%Z) keys));
        [|apply sum_zero].
      f_equal. apply map_ext_in.
      intros k Hin. destruct (cell_eqb x k) eqn:E; [|reflexivity].
      apply cell_eqb_eq in E. subst. contradiction. }
    rewrite Z0. lia.
  - destruct (cell_eqb x k) eqn:E.
    + apply cell_eqb_eq in E. subst. contradiction.
    + rewrite (IH Hin). lia.
Qed.

Lemma count_cons (v : cell) (l : column) :
  count (v :: l) = ((if is_null v then 0 else 1) + count l)%Z.
Proof.
  unfold count. cbn [filter]. destruct (is_null v); cbn [negb length];
    [reflexivity | rewrite Nat2Z.inj_succ; lia].
Qed.

(** The counts of the groups add up to the count of the whole column, when
    every label is one of the groups. *)
Lemma members_partition (keys : list cell) (keycol col : column) :
  NoDup keys -> (forall c, In c keycol -> In c keys) ->
  length keycol = length col ->
  fold_right Z.add 0%Z (map (fun k => count (members keycol col k)) keys)
  = count col.
Proof.
  intros Hn. revert col.
  induction keycol as [|c kc IH]; intros [|v vs] Hin Hl; simpl in Hl;
    try discriminate.
  - apply sum_zero.
  - rewrite count_cons. rewrite <- (IH vs); [|intros; apply Hin; right; assumption | lia].
    rewrite <- (@sum_one_group keys c (if is_null v then 0 else 1)%Z Hn
                  (Hin c (or_introl eq_refl))).
    rewrite <- sum_add. f_equal. apply map_ext. intros k.
    unfold members. simpl. destruct (cell_eqb c k); simpl.
    + apply count_cons.
    + reflexivity.
Qed.

Lemma fold_right_permutation (l l' : list Z) :
  Permutation l l' -> fold_right Z.add 0%Z l = fold_right Z.add 0%Z l'.
Proof. induction 1; simpl; lia. Qed.

Lemma map_snd_combine {A B : Type} (l : list A) (l' : list B) :
  length l = length l' -> map snd (combine l l') = l'.
Proof.
  revert l'; induction l as [|x l IH]; intros [|y l'] H; simpl in *;
    try discriminate; [reflexivity|]. f_equal. apply IH. lia.
Qed.

Lemma last_map {A B : Type} (f : A -> B) (l : list A) (a : A) (b : B) :
  l <> [] -> last (map f l) b = f (last l a).
Proof.
  induction l as [|x l IH]; [congruence|]. intros _.
  destruct l as [|y l]; [reflexivity|].
  change (last (map f (y :: l)) b = f (last (y :: l) a)).
  apply IH. discriminate.
Qed.

(** The player count comes last in the aggregation dictionary, and so does
    its column. *)
Lemma agg_all_last {Nm : Numerics} (d : DataFrame) (keycol : column)
  (keys : list cell)
  (multi : bool) (aggs : list (pystr * aggspec)) (pid : column)
  (lcols : list (label * column)) :
  get_column PlayerID d = Some pid ->
  agg_all d keycol keys multi (aggs ++ [(PlayerID, One Count)]) = Ok lcols ->
  exists front l,
    lcols
    = front ++ [(l, map (fun k => VInt (count (members keycol pid k))) keys)].
Proof.
  intros G. revert lcols. induction aggs as [|e r IH]; intros lcols; simpl.
  - unfold agg_one. simpl fst. rewrite G. simpl. intros H. injection H as <-.
    exists []. eexists. reflexivity.
  - destruct (agg_one d keycol keys multi e) as [cols|]; [|discriminate].
    simpl.
    destruct (agg_all d keycol keys multi (r ++ [(PlayerID, One Count)]))
      as [more|]; [|discriminate].
    simpl. intros H. injection H as <-.
    destruct (IH more eq_refl) as [front [l ->]].
    exists (cols ++ front), l. apply app_assoc.
Qed.

Lemma select_aggs_players (a s i : bool) :
  select_aggs a s i true
  = select_aggs a s i false ++ [(PlayerID, One Count)].
Proof. unfold select_aggs. rewrite !app_nil_r, !app_assoc. reflexivity. Qed.

Section Rows.
Context {U : UCD} {Nm : Numerics} {S : Sorter}.

(** The table [group_by] sorts: the groups of the key column, then the
    aggregated columns under their output names. *)
Lemma group_by_rows (d : DataFrame) (key : pystr) (keycol : column) :
  In key grouping_keys ->
  get_column key d = Some keycol ->
  1 <= aggregated_columns d ->
  exists (lcols : list (label * column)) (t : DataFrame) (i : nat),
    agg_all d keycol (group_keys keycol)
      (existsb (fun e => is_many (snd e))
         (filter (fun kv => has_column (fst kv) d) aggregations))
      (filter (fun kv => has_column (fst kv) d) aggregations) = Ok lcols /\
    length lcols
    = length (output_names
                (filter (fun kv => has_column (fst kv) d) aggregations)) /\
    well_formed (grouped_table d key keycol lcols) /\
    i < ncols (grouped_table d key keycol lcols) /\
    group_by d key = Ok t /\
    reordered (argsort_desc (column_at i (grouped_table d key keycol lcols)))
              (grouped_table d key keycol lcols) t.
Proof.
  intros Hin G Hc.
  assert (Hk : has_column key d = true).
  { rewrite has_column_get, G. reflexivity. }
  assert (Hne : filter (fun kv => has_column (fst kv) d) aggregations <> []).
  { rewrite available_aggs_select. intros N.
    apply select_aggs_nil in N. unfold aggregated_columns in Hc. lia. }
  unfold group_by. rewrite Hk. simpl negb. cbv iota.
  unfold groupby_agg. rewrite G.
  pose proof (names_ok_all (has_column AvgSessionDurationMinutes d)
                (has_column SessionsPerWeek d) (has_column InGamePurchases d)
                (has_column PlayerID d) Hin) as OK.
  unfold names_ok in OK. rewrite <- available_aggs_select in OK.
  set (aggs := filter (fun kv => has_column (fst kv) d) aggregations) in *.
  assert (P : Forall (fun e => has_column (fst e) d = true) aggs).
  { apply Forall_forall. intros x Hx. unfold aggs in Hx.
    apply filter_In in Hx. tauto. }
  destruct (agg_all_present d keycol (group_keys keycol)
              (existsb (fun e => is_many (snd e)) aggs) P)
    as [lcols [E [M F]]].
  destruct aggs as [|e r] eqn:Ea; [congruence|]. rewrite <- Ea in *.
  rewrite E. simpl bind.
  assert (L : length lcols = length (output_names aggs)).
  { unfold output_names, agg_output_labels. rewrite <- M.
    rewrite !length_map. reflexivity. }
  unfold set_labels, rename, labels, reset_index. simpl.
  rewrite rename_combine.
  replace (map rename_count (map flatten_label (map fst lcols)))
    with (output_names aggs)
    by (unfold output_names, agg_output_labels; rewrite M; reflexivity).
  rewrite map_fst_combine by (rewrite length_map; symmetry; exact L).
  rewrite length_combine, length_map, L, Nat.min_id.
  pose proof (@well_formed_groups key (group_keys keycol) (output_names aggs)
                (map snd lcols) F) as W.
  apply andb_true_iff in OK. destruct OK as [Len Distinct].
  apply Nat.eqb_eq in Len. fold (aggregated_columns d) in Len.
  unfold grouped_table. fold aggs.
  set (names := output_names aggs) in *.
  set (keys := group_keys keycol) in *.
  assert (Lc : length (map snd lcols) = length names).
  { rewrite length_map. exact L. }
  exists lcols.
  assert (N : ncols {| nrows := length keys;
                       columns := (key, keys) :: combine names (map snd lcols) |}
              = length names + 1).
  { unfold ncols. simpl. rewrite length_combine, Lc, Nat.min_id. lia. }
  clearbody names keys.
  destruct names as [|n0 [|n1 ns]].
  - simpl in Len. lia.
  - pose (u := {| nrows := length keys;
                  columns := (key, keys) :: combine [n0] (map snd lcols) |}).
    fold u in N, W. fold u.
    destruct (@sort_values_at _ key u 0) as [t [Et [C R]]].
    { unfold u, get_column, column_at. simpl.
      rewrite pystr_eqb_refl. reflexivity. }
    simpl Nat.ltb. cbv iota. exists t, 0.
    split; [reflexivity|]. split; [exact L|]. split; [exact W|].
    split; [lia|]. split; [exact Et | exact R].
  - simpl in Distinct. apply andb_true_iff in Distinct.
    destruct Distinct as [D0 D1].
    apply negb_true_iff in D0. apply negb_true_iff in D1.
    pose (u := {| nrows := length keys;
                  columns := (key, keys)
                             :: combine (n0 :: n1 :: ns) (map snd lcols) |}).
    fold u in N, W. fold u.
    destruct (@sort_values_at _ n1 u 2) as [t [Et [C R]]].
    { unfold u, get_column, column_at.
      destruct (map snd lcols) as [|c0 [|c1 cs]]; simpl in Lc;
        try discriminate.
      simpl. rewrite D0, D1, pystr_eqb_refl. reflexivity. }
    simpl Nat.ltb. cbv iota. simpl nth. exists t, 2.
    split; [reflexivity|]. split; [exact L|]. split; [exact W|].
    split; [simpl in N; lia|]. split; [exact Et | exact R].
Qed.

Lemma normalized_column (col : column) :
  str_title (str_strip (astype_str col)) = map VStr (map normalized col).
Proof.
  unfold str_title, str_strip, str_map, astype_str. rewrite !map_map.
  apply map_ext. intros c. reflexivity.
Qed.

(** The grouping columns are normalized and not coerced. *)
Lemma prepared_key (df : DataFrame) (key : pystr) (col : column) :
  In key grouping_keys -> get_column key df = Some col ->
  get_column key (prepare_segments df) = Some (map VStr (map normalized col)).
Proof.
  intros Hin G. rewrite get_prepare_segments, G. simpl option_map.
  rewrite <- normalized_column.
  destruct Hin as [<-|[<-|[<-|[]]]]; reflexivity.
Qed.

(** The player identifiers are left as they are. *)
Lemma prepared_players (df : DataFrame) :
  get_column PlayerID (prepare_segments df) = get_column PlayerID df.
Proof.
  rewrite get_prepare_segments. destruct (get_column PlayerID df); reflexivity.
Qed.

Lemma segment_analysis_group_by (df : DataFrame) (segs : Segments)
  (key : pystr) (t : DataFrame) :
  segment_analysis df = Ok segs -> In (key, t) (segment_tables segs) ->
  group_by (prepare_segments df) key = Ok t.
Proof.
  unfold segment_analysis.
  destruct (group_by (prepare_segments df) GameGenre) as [g|] eqn:Eg;
    [|discriminate].
  destruct (group_by (prepare_segments df) Location) as [l|] eqn:El;
    [|discriminate].
  destruct (group_by (prepare_segments df) EngagementLevel) as [e|] eqn:Ee;
    [|discriminate].
  simpl. intros H. injection H as <-. simpl.
  intros [H|[H|[H|[]]]]; inversion H; subst; assumption.
Qed.

Lemma segment_keys (segs : Segments) (key : pystr) (t : DataFrame) :
  In (key, t) (segment_tables segs) -> In key grouping_keys.
Proof.
  simpl. intros [H|[H|[H|[]]]]; inversion H; subst; auto.
Qed.

Lemma take_length (idx : list nat) (c : column) :
  Permutation idx (seq 0 (length c)) -> length (take idx c) = length c.
Proof. intros P. apply Permutation_length, take_permutation, P. Qed.

(** The table of a grouping column that is present: the grouped table with
    its rows in another order. *)
Lemma segment_table_rows (df : DataFrame) (segs : Segments) (key : pystr)
  (t : DataFrame) (col : column) :
  sorter_ok S ->
  segment_analysis df = Ok segs -> In (key, t) (segment_tables segs) ->
  get_column key df = Some col ->
  1 <= aggregated_columns df ->
  exists (lcols : list (label * column)) (idx : list nat),
    agg_all (prepare_segments df) (map VStr (map normalized col))
      (group_keys (map VStr (map normalized col)))
      (existsb (fun e => is_many (snd e))
         (filter (fun kv => has_column (fst kv) (prepare_segments df))
                 aggregations))
      (filter (fun kv => has_column (fst kv) (prepare_segments df))
              aggregations) = Ok lcols /\
    length lcols
    = length (output_names
                (filter (fun kv => has_column (fst kv) (prepare_segments df))
                        aggregations)) /\
    Permutation idx
      (seq 0 (length (group_keys (map VStr (map normalized col))))) /\
    well_formed (grouped_table (prepare_segments df) key
                   (map VStr (map normalized col)) lcols) /\
    reordered idx
      (grouped_table (prepare_segments df) key
         (map VStr (map normalized col)) lcols) t.
Proof.
  intros Hs E Hin G Hc.
  pose proof (@segment_keys segs key t Hin) as Hk.
  pose proof (@segment_analysis_group_by df segs key t E Hin) as Eg.
  rewrite <- aggregated_prepare in Hc.
  destruct (@group_by_rows (prepare_segments df) key _ Hk
              (@prepared_key df key col Hk G) Hc)
    as [lcols [t' [i [A [L [W [Hi [Et R]]]]]]]].
  rewrite Eg in Et. injection Et as <-.
  exists lcols, (argsort_desc (column_at i
     (grouped_table (prepare_segments df) key
        (map VStr (map normalized col)) lcols))).
  split; [exact A|]. split; [exact L|]. split; [|split; [exact W | exact R]].
  destruct (Hs (column_at i
     (grouped_table (prepare_segments df) key
        (map VStr (map normalized col)) lcols))) as [P _].
  rewrite (column_at_length W Hi) in P. exact P.
Qed.

Lemma reordered_well_formed (idx : list nat) (u t : DataFrame) :
  Permutation idx (seq 0 (nrows u)) -> well_formed u -> reordered idx u t ->
  well_formed t.
Proof.
  intros P W [Hn Hc]. unfold well_formed in *. rewrite Hc, Hn.
  apply Forall_map. revert W. apply Forall_impl. intros [n c] H. simpl in *.
  rewrite take_length; [exact H | rewrite H; exact P].
Qed.

(** The column names of a table of [group_by]. *)
Lemma group_by_names (d : DataFrame) (key : pystr) :
  In key grouping_keys -> has_column key d = true ->
  1 <= aggregated_columns d ->
  exists t,
    group_by d key = Ok t /\
    map fst (columns t)
    = key :: output_names
               (select_aggs (has_column AvgSessionDurationMinutes d)
                  (has_column SessionsPerWeek d)
                  (has_column InGamePurchases d) (has_column PlayerID d)).
Proof.
  intros Hin Hk Hc. destruct (has_column_true _ _ Hk) as [keycol G].
  destruct (@group_by_rows d key keycol Hin G Hc)
    as [lcols [t [i [_ [L [_ [_ [Et [_ Hcols]]]]]]]]].
  exists t. split; [exact Et|].
  rewrite Hcols, map_map. cbn [fst]. unfold grouped_table. cbn [columns map fst].
  f_equal. rewrite <- available_aggs_select.
  apply map_fst_combine. rewrite length_map. symmetry. exact L.
Qed.

Lemma segment_table_names (df : DataFrame) (segs : Segments) (key : pystr)
  (t : DataFrame) :
  segment_analysis df = Ok segs -> In (key, t) (segment_tables segs) ->
  has_column key df = true ->
  1 <= aggregated_columns df ->
  map fst (columns t)
  = key :: output_names
             (select_aggs (has_column AvgSessionDurationMinutes df)
                (has_column SessionsPerWeek df)
                (has_column InGamePurchases df) (has_column PlayerID df)).
Proof.
  intros E Hin Hk Hc.
  pose proof (@segment_keys segs key t Hin) as Hkey.
  pose proof (@segment_analysis_group_by df segs key t E Hin) as Eg.
  rewrite <- aggregated_prepare in Hc.
  rewrite <- (has_prepare_segments key df) in Hk.
  destruct (@group_by_names (prepare_segments df) key Hkey Hk Hc)
    as [t' [Et N]].
  rewrite Eg in Et. injection Et as <-.
  rewrite N, !has_prepare_segments. reflexivity.
Qed.

(** Without any grouping column the three tables are empty. *)
Lemma segment_analysis_no_keys (df : DataFrame) :
  (forall key, In key grouping_keys -> has_column key df = false) ->
  segment_analysis df
  = Ok {| by_genre := empty_frame; by_location := empty_frame;
          by_engagement := empty_frame |}.
Proof.
  intros H. unfold segment_analysis.
  rewrite !group_by_absent;
    try (rewrite has_prepare_segments; apply H; simpl; auto).
  reflexivity.
Qed.

End Rows.
End GroupRows.

(* ------------------------------------------------------------------ *)
(** * Flattened labels *)

Module LabelFacts.

Lemma lstrip_char_clean (ch : N) (s : pystr) :
  hd_error (lstrip_char ch s) <> Some ch.
Proof.
  induction s as [|c r IH]; simpl; [discriminate|].
  destruct (N.eqb_spec c ch) as [E|E]; [exact IH|].
  simpl. congruence.
Qed.

Lemma lstrip_char_suffix (ch : N) (s : pystr) :
  exists sp, s = sp ++ lstrip_char ch s.
Proof.
  induction s as [|c r [sp IH]]; simpl; [exists []; reflexivity|].
  destruct (N.eqb c ch).
  - exists (c :: sp). simpl. f_equal. exact IH.
  - exists []. reflexivity.
Qed.

Lemma lstrip_char_fixed (ch : N) (s : pystr) :
  hd_error s <> Some ch -> lstrip_char ch s = s.
Proof.
  destruct s as [|c r]; simpl; [reflexivity|].
  destruct (N.eqb_spec c ch) as [->|E]; [congruence | reflexivity].
Qed.

Lemma strip_char_clean (ch : N) (s : pystr) :
  hd_error (strip_char ch s) <> Some ch /\
  hd_error (rev (strip_char ch s)) <> Some ch.
Proof.
  unfold strip_char.
  set (x := lstrip_char ch s). set (y := lstrip_char ch (rev x)).
  split.
  - destruct (@lstrip_char_suffix ch (rev x)) as [sp E]. fold y in E.
    assert (X : x = rev y ++ rev sp).
    { rewrite <- rev_app_distr, <- E, rev_involutive. reflexivity. }
    pose proof (@lstrip_char_clean ch s) as C. fold x in C.
    destruct (rev y) as [|c r]; [simpl; discriminate|].
    rewrite X in C. exact C.
  - rewrite rev_involutive. apply lstrip_char_clean.
Qed.

Lemma strip_char_fixed (ch : N) (s : pystr) :
  hd_error s <> Some ch -> hd_error (rev s) <> Some ch -> strip_char ch s = s.
Proof.
  intros A B. unfold strip_char.
  rewrite (@lstrip_char_fixed ch s A), (@lstrip_char_fixed ch (rev s) B).
  apply rev_involutive.
Qed.

Lemma hd_error_app {A : Type} (a b : list A) :
  a <> [] -> hd_error (a ++ b) = hd_error a.
Proof. destruct a; [congruence | reflexivity]. Qed.

End LabelFacts.

(* ------------------------------------------------------------------ *)
(** * The values of the segment tables *)

Module ValueFacts.

Import TableFacts Spec SegmentFacts.

Lemma take_map (f : cell -> cell) (idx : list nat) (c : column) :
  take idx (map f c) = map f (take idx c).
Proof.
  unfold take. induction idx as [|i idx IH]; simpl; [reflexivity|].
  rewrite map_app, IH, nth_error_map.
  destruct (nth_error c i); reflexivity.
Qed.

Lemma full_names :
  output_names aggregations
  = [lit "AvgSessionDurationMinutes_mean"; lit "SessionsPerWeek_mean";
     lit "InGamePurchases_mean"; lit "InGamePurchases_sum";
     lit "num_players"].
Proof. vm_compute. reflexivity. Qed.

Section Values.
Context {U : UCD} {Nm : Numerics}.

Lemma prepared_numeric (df : DataFrame) (n : pystr) (c : column) :
  In n [AvgSessionDurationMinutes; SessionsPerWeek; InGamePurchases] ->
  get_column n df = Some c ->
  get_column n (prepare_segments df) = Some (to_numeric c).
Proof.
  intros Hin G. rewrite get_prepare_segments, G. simpl option_map.
  destruct Hin as [<-|[<-|[<-|[]]]]; reflexivity.
Qed.

End Values.

End ValueFacts.

(* ------------------------------------------------------------------ *)
(** * Facts on loading and reporting *)

Module ReportFacts.

Import TableFacts Spec SegmentFacts Report.

Lemma find_in_nodup (n : pystr) (c : column) (cols : list (pystr * column)) :
  NoDup (map fst cols) -> In (n, c) cols ->
  find (fun p => pystr_eqb (fst p) n) cols = Some (n, c).
Proof.
  induction cols as [|[m d] r IH]; simpl; [intros _ []|].
  intros Hn Hin. inversion Hn as [|? ? Hm Hr]; subst.
  destruct Hin as [E|Hin].
  - inversion E; subst. rewrite pystr_eqb_refl. reflexivity.
  - destruct (pystr_eqb m n) eqn:E.
    + apply pystr_eqb_eq in E. subst. exfalso. apply Hm.
      apply (in_map fst) in Hin. exact Hin.
    + apply IH; assumption.
Qed.

Section Loading.
Context {U : UCD}.

Lemma strip_idempotent (s : pystr) : strip (strip s) = strip s.
Proof. apply TitleFacts.strip_fixed, TitleFacts.strip_clean_ends. Qed.


End Loading.

Lemma is_empty_empty_frame : is_empty empty_frame = true.
Proof. reflexivity. Qed.

Section Tables.
Context {U : UCD} {Nm : Numerics} {S : Sorter}.


End Tables.

End ReportFacts.

(* ------------------------------------------------------------------ *)
(** * Facts on the project checks *)

Module CheckFacts.

Import TableFacts ProjectCheck.

Lemma mem_in (x : pystr) (xs : list pystr) : mem x xs = true <-> In x xs.
Proof.
  unfold mem. rewrite existsb_exists. split.
  - intros [y [Hy E]]. apply pystr_eqb_eq in E. subst. exact Hy.
  - intros H. exists x. split; [exact H | apply pystr_eqb_refl].
Qed.

Lemma filter_nil_iff {A : Type} (f : A -> bool) (l : list A) :
  filter f l = [] <-> forall x, In x l -> f x = false.
Proof.
  induction l as [|a l IH]; simpl.
  - split; [intros _ x [] | reflexivity].
  - destruct (f a) eqn:E.
    + split; [discriminate|]. intros H. rewrite (H a) in E by auto.
      discriminate.
    + rewrite IH. split.
      * intros H x [<-|Hx]; auto.
      * intros H x Hx. apply H. auto.
Qed.

Lemma filter_split {A : Type} (f : A -> bool) (l : list A) :
  Permutation (filter f l ++ filter (fun x => negb (f x)) l) l.
Proof.
  induction l as [|a l IH]; simpl; [constructor|].
  destruct (f a); simpl.
  - constructor. exact IH.
  - apply Permutation_sym, Permutation_cons_app, Permutation_sym, IH.
Qed.

(** ** Dictionaries *)

Lemma dict_set_in {V : Type} (k : pystr) (v : V) (d : dict V) :
  In (k, v) (dict_set k v d).
Proof.
  induction d as [|[k' v'] r IH]; simpl; [auto|].
  destruct (pystr_eqb k' k) eqn:E.
  - apply pystr_eqb_eq in E. subst. left. reflexivity.
  - right. exact IH.
Qed.

Lemma dict_set_other {V : Type} (k : pystr) (v : V) (d : dict V)
  (x : pystr) (w : V) :
  x <> k -> In (x, w) d -> In (x, w) (dict_set k v d).
Proof.
  intros Hx. induction d as [|[k' v'] r IH]; simpl; [intros []|].
  destruct (pystr_eqb k' k) eqn:E.
  - apply pystr_eqb_eq in E. subst.
    intros [H|H]; [inversion H; subst; congruence | right; exact H].
  - intros [H|H]; [left; exact H | right; apply IH, H].
Qed.

Lemma dict_set_inv {V : Type} (k : pystr) (v : V) (d : dict V)
  (x : pystr) (w : V) :
  In (x, w) (dict_set k v d) -> (x = k /\ w = v) \/ In (x, w) d.
Proof.
  induction d as [|[k' v'] r IH]; simpl.
  - intros [H|[]]. inversion H; subst. auto.
  - destruct (pystr_eqb k' k) eqn:E.
    + apply pystr_eqb_eq in E. subst.
      intros [H|H]; [inversion H; subst; auto | auto].
    + intros [H|H]; [auto|]. destruct (IH H) as [?|?]; auto.
Qed.

(** A dictionary comprehension holds, for each key of the list and no other,
    the value computed for it. *)
Lemma dict_comprehension_in {V : Type} (f : pystr -> V) (keys : list pystr)
  (k : pystr) (v : V) :
  In (k, v) (dict_comprehension f keys) <-> In k keys /\ v = f k.
Proof.
  unfold dict_comprehension.
  assert (G : forall (d : dict V) (seen : list pystr),
             (forall x w, In (x, w) d <-> In x seen /\ w = f x) ->
             forall x w,
               In (x, w) (fold_left (fun d k => dict_set k (f k) d) keys d)
               <-> In x (seen ++ keys) /\ w = f x).
  { induction keys as [|a keys IH]; intros d seen Inv x w; simpl.
    - rewrite app_nil_r. apply Inv.
    - rewrite (IH (dict_set a (f a) d) (seen ++ [a])).
      + rewrite <- app_assoc. reflexivity.
      + clear x w. intros x w. rewrite in_app_iff. simpl. split.
        * intros H. apply dict_set_inv in H. destruct H as [[-> ->]|H].
          { auto. }
          apply Inv in H. tauto.
        * intros [[H|[<-|[]]] ->].
          { destruct (pystr_eqb x a) eqn:E.
            - apply pystr_eqb_eq in E. subst. apply dict_set_in.
            - apply dict_set_other; [apply pystr_eqb_neq, E|].
              apply Inv. auto. }
          apply dict_set_in. }
  apply (G [] []). intros x w. simpl. tauto.
Qed.

Lemma not_ok_in (f : pystr -> bool) (keys : list pystr) (k : pystr) :
  In k (not_ok (dict_comprehension f keys)) <-> In k keys /\ f k = false.
Proof.
  unfold not_ok. rewrite in_map_iff. split.
  - intros [[x w] [<- H]]. apply filter_In in H. destruct H as [H Hw].
    apply dict_comprehension_in in H. destruct H as [H ->].
    simpl in *. apply negb_true_iff in Hw. auto.
  - intros [H E]. exists (k, f k). split; [reflexivity|].
    apply filter_In. split.
    + apply dict_comprehension_in. auto.
    + simpl. rewrite E. reflexivity.
Qed.

Lemma not_ok_nil (f : pystr -> bool) (keys : list pystr) :
  not_ok (dict_comprehension f keys) = [] <->
  forall k, In k keys -> f k = true.
Proof.
  split.
  - intros H k Hk. destruct (f k) eqn:E; [reflexivity|].
    assert (X : In k (not_ok (dict_comprehension f keys)))
      by (apply not_ok_in; auto).
    rewrite H in X. destruct X.
  - intros H. destruct (not_ok (dict_comprehension f keys)) as [|k r] eqn:E;
      [reflexivity|].
    assert (X : In k (not_ok (dict_comprehension f keys)))
      by (rewrite E; left; reflexivity).
    apply not_ok_in in X. destruct X as [Hk Hf].
    rewrite (H k Hk) in Hf. discriminate.
Qed.

End CheckFacts.

(* ------------------------------------------------------------------ *)
(** * Lower case and the README check *)

Module ReadmeFacts.

Import ProjectCheck.

Lemma starts_with_app (n y : pystr) : starts_with n (n ++ y) = true.
Proof.
  induction n as [|c n IH]; simpl; [reflexivity|].
  rewrite N.eqb_refl. exact IH.
Qed.

Lemma contains_unfold (n h : pystr) :
  contains n h
  = starts_with n h || match h with [] => false | _ :: r => contains n r end.
Proof. destruct h; reflexivity. Qed.

Lemma contains_app (n x y : pystr) : contains n (x ++ n ++ y) = true.
Proof.
  induction x as [|c x IH].
  - cbn [app]. rewrite contains_unfold, starts_with_app. reflexivity.
  - cbn [app]. rewrite contains_unfold, IH. apply orb_true_r.
Qed.

Section Lower.
Context {U : UCD}.
Hypothesis rows : Ref.ascii_rows U.

(** Lowering an ASCII string lowers each of its characters, whatever is
    around it. *)
Lemma do_lower_ascii (s post : pystr) :
  forall before, Ref.is_ascii s ->
    do_lower before (s ++ post)
    = map Ref.ascii_to_lower s ++ do_lower (rev s ++ before) post.
Proof.
  induction s as [|c r IH]; intros before H; [reflexivity|].
  inversion H as [|? ? Hc Hr]; subst.
  destruct (rows Hc) as [_ [_ [El _]]].
  cbn [app do_lower map rev]. rewrite (IH (c :: before) Hr).
  unfold lower_at.
  replace (c =? 931)%N with false by (symmetry; apply N.eqb_neq; lia).
  rewrite El, <- app_assoc. reflexivity.
Qed.

Lemma lower_ascii (s : pystr) :
  Ref.is_ascii s -> lower s = map Ref.ascii_to_lower s.
Proof.
  intros H. unfold lower.
  rewrite <- (app_nil_r s) at 1. rewrite (do_lower_ascii [] [] H).
  apply app_nil_r.
Qed.

Lemma do_lower_inside (pre s post : pystr) :
  Ref.is_ascii s ->
  forall before, exists x y,
    do_lower before (pre ++ s ++ post) = x ++ map Ref.ascii_to_lower s ++ y.
Proof.
  intros H. induction pre as [|c pre IH]; intros before.
  - exists [], (do_lower (rev s ++ before) post).
    apply (do_lower_ascii post before H).
  - destruct (IH (c :: before)) as [x [y E]].
    exists (lower_at before c (pre ++ s ++ post) ++ x), y.
    cbn [app do_lower]. rewrite E, <- app_assoc. reflexivity.
Qed.

End Lower.

End ReadmeFacts.

(* ------------------------------------------------------------------ *)
(** * The segment tables, the report and the project checks *)

(** X6: when at least one aggregated column is present and the index sort
    sorts, the table of every grouping column that is present is well formed
    and has one row for each distinct normalized label of that column: its
    first column has no duplicates and holds exactly the normalized labels. *)
Theorem segment_rows_are_groups
  {U : UCD} {Nm : Numerics} {S : Sorter} (df : DataFrame) :
  sorter_ok S ->
  1 <= Spec.aggregated_columns df ->
  exists segs,
    segment_analysis df = Ok segs /\
    forall key t col,
      In (key, t) (Spec.segment_tables segs) ->
      get_column key df = Some col ->
      well_formed t /\
      nrows t = length (Spec.column_at 0 t) /\
      NoDup (Spec.column_at 0 t) /\
      forall c, In c (Spec.column_at 0 t)
                <-> exists x, In x col /\ c = VStr (Spec.normalized x).
Proof.
  intros Hs Hc.
  destruct (SegmentFacts.segment_analysis_tables df Hc) as [segs [E _]].
  exists segs. split; [exact E|].
  intros key t col Hin G.
  destruct (@GroupRows.segment_table_rows U Nm S df segs key t col Hs E Hin G Hc)
    as [lcols [idx [_ [_ [P [W R]]]]]].
  destruct (GroupFacts.group_keys_strings (map Spec.normalized col))
    as [ks [Ek [Mk [_ Nk]]]].
  pose proof (@SegmentFacts.column_at_reordered idx _ t 0 R) as C0.
  change (Spec.column_at 0 (Spec.grouped_table _ key _ lcols))
    with (group_keys (map VStr (map Spec.normalized col))) in C0.
  pose proof (@GroupFacts.take_permutation idx _ P) as Pt.
  rewrite <- C0 in Pt.
  split.
  { exact (@GroupRows.reordered_well_formed idx
             (Spec.grouped_table (prepare_segments df) key
                (map VStr (map Spec.normalized col)) lcols) t P W R). }
  split.
  { destruct R as [Hn _]. rewrite Hn. simpl.
    symmetry. apply Permutation_length. exact Pt. }
  split.
  { apply (Permutation_NoDup (Permutation_sym Pt)).
    rewrite Ek. apply GroupFacts.NoDup_map_VStr, Nk. }
  intros c. split.
  - intros Hc0. apply (Permutation_in _ Pt) in Hc0.
    rewrite Ek in Hc0. apply in_map_iff in Hc0. destruct Hc0 as [s [<- Hs0]].
    apply Mk in Hs0. apply in_map_iff in Hs0. destruct Hs0 as [x [<- Hx]].
    exists x. split; [exact Hx | reflexivity].
  - intros [x [Hx ->]]. apply (Permutation_in _ (Permutation_sym Pt)).
    rewrite Ek. apply in_map, Mk, in_map, Hx.
Qed.

Lemma segment_rows_are_groups_witness :
  exists segs,
    segment_analysis (U := Ref.ucd_rows) (Nm := Ref.decimal_numerics)
      (S := Ref.insertion_sorter) Examples.full_table = Ok segs /\
    forall key t col,
      In (key, t) (Spec.segment_tables segs) ->
      get_column key Examples.full_table = Some col ->
      well_formed t /\
      nrows t = length (Spec.column_at 0 t) /\
      NoDup (Spec.column_at 0 t) /\
      forall c, In c (Spec.column_at 0 t)
                <-> exists x, In x col /\
                      c = VStr (Spec.normalized (U := Ref.ucd_rows)
                                  (Nm := Ref.decimal_numerics) x).
Proof.
  apply (@segment_rows_are_groups Ref.ucd_rows Ref.decimal_numerics
           Ref.insertion_sorter Examples.full_table).
  - exact SortFacts.insertion_sorter_ok.
  - vm_compute. lia.
Defined.

(** X7: the player counts of a segment table add up.  On a well-formed table
    with a PlayerID column, the last column of the table of every grouping
    column that is present holds integers, one for each group, and their sum
    is the number of PlayerID cells that are not missing: no row is lost and
    none is counted twice. *)
Theorem player_counts_add_up
  {U : UCD} {Nm : Numerics} {S : Sorter} (df : DataFrame) (pid : column) :
  sorter_ok S ->
  well_formed df ->
  get_column PlayerID df = Some pid ->
  exists segs,
    segment_analysis df = Ok segs /\
    forall key t,
      In (key, t) (Spec.segment_tables segs) -> has_column key df = true ->
      exists ns : list Z,
        last (map snd (columns t)) [] = map VInt ns /\
        length ns = nrows t /\
        fold_right Z.add 0%Z ns = count pid.
Proof.
  intros Hs Wf Gp.
  assert (Hp : has_column PlayerID df = true).
  { rewrite TableFacts.has_column_get, Gp. reflexivity. }
  assert (Hc : 1 <= Spec.aggregated_columns df).
  { unfold Spec.aggregated_columns. rewrite Hp. simpl. lia. }
  destruct (SegmentFacts.segment_analysis_tables df Hc) as [segs [E _]].
  exists segs. split; [exact E|].
  intros key t Hin Hk.
  destruct (TableFacts.has_column_true _ _ Hk) as [col G].
  destruct (@GroupRows.segment_table_rows U Nm S df segs key t col Hs E Hin G Hc)
    as [lcols [idx [A [L [P [W R]]]]]].
  rewrite SegmentFacts.available_aggs_select in A.
  rewrite !SegmentFacts.has_prepare_segments, Hp in A.
  rewrite GroupRows.select_aggs_players in A.
  assert (Gp' : get_column PlayerID (prepare_segments df) = Some pid).
  { rewrite GroupRows.prepared_players. exact Gp. }
  destruct (GroupRows.agg_all_last _ _ _ _ _ Gp' A) as [front [l El]].
  destruct (GroupFacts.group_keys_strings (map Spec.normalized col))
    as [ks [Ek [Mk [_ Nk]]]].
  destruct R as [Hn Hcols].
  set (keycol := map VStr (map Spec.normalized col)) in *.
  set (keys := group_keys keycol) in *.
  set (counts := map (fun k => count (members keycol pid k)) keys).
  assert (Lc : last (map snd (columns t)) [] = take idx (map VInt counts)).
  { assert (Eu : map snd (columns (Spec.grouped_table
                       (prepare_segments df) key keycol lcols))
                 = keys :: map snd lcols).
    { unfold Spec.grouped_table. cbn [columns map snd]. f_equal.
      apply GroupRows.map_snd_combine. rewrite length_map. symmetry. exact L. }
    rewrite Hcols, map_map.
    rewrite (map_ext (fun x : pystr * column => snd (fst x, take idx (snd x)))
               (fun x => take idx (snd x)) (fun x => eq_refl)).
    rewrite <- (map_map snd (take idx)), Eu.
    rewrite (@GroupRows.last_map _ _ (take idx) (keys :: map snd lcols) [] [])
      by discriminate.
    rewrite El, map_app. cbn [map snd]. rewrite app_comm_cons, last_last.
    unfold counts. rewrite map_map. reflexivity. }
  assert (Pc : Permutation (take idx (map VInt counts)) (map VInt counts)).
  { apply GroupFacts.take_permutation. unfold counts.
    rewrite !length_map. exact P. }
  destruct (Permutation_map_inv _ _ Pc) as [ns [En Pn]].
  exists ns. split; [rewrite Lc; exact En|]. split.
  { rewrite Hn. simpl. rewrite <- (Permutation_length Pn).
    unfold counts. apply length_map. }
  rewrite <- (GroupRows.fold_right_permutation Pn). unfold counts.
  apply GroupRows.members_partition.
  - subst keys keycol. rewrite Ek. apply GroupFacts.NoDup_map_VStr, Nk.
  - intros c Hcin. subst keys keycol. rewrite Ek.
    apply in_map_iff in Hcin. destruct Hcin as [s [<- Hsin]].
    apply in_map, Mk, Hsin.
  - subst keycol. rewrite !length_map.
    rewrite (@KpiFacts.well_formed_get key df col Wf G),
      (@KpiFacts.well_formed_get PlayerID df pid Wf Gp).
    reflexivity.
Qed.

Lemma player_counts_add_up_witness :
  exists segs,
    segment_analysis (U := Ref.ucd_rows) (Nm := Ref.decimal_numerics)
      (S := Ref.insertion_sorter) Examples.full_table = Ok segs /\
    forall key t,
      In (key, t) (Spec.segment_tables segs) ->
      has_column key Examples.full_table = true ->
      exists ns : list Z,
        last (map snd (columns t)) [] = map VInt ns /\
        length ns = nrows t /\
        fold_right Z.add 0%Z ns = count (Examples.ints [1; 2; 3]%Z).
Proof.
  apply (@player_counts_add_up Ref.ucd_rows Ref.decimal_numerics
           Ref.insertion_sorter Examples.full_table).
  - exact SortFacts.insertion_sorter_ok.
  - repeat constructor.
  - reflexivity.
Defined.

(** X8: the aggregated columns of a segment table hold the aggregates of the
    groups.  With the four aggregated columns present, in the table of a
    grouping column that is present, each row starts with a normalized label
    and goes on with the group mean of the parsed durations, the group mean
    of the parsed sessions, the group mean and the group sum of the parsed
    purchases, and the count of the player identifiers, each taken over the
    rows of the data whose normalized label is the label of the row.  The
    means are floats; the sum has the type of the parsed purchases column,
    an integer that wraps around when every purchase is an integer. *)
Theorem segment_values_are_group_aggregates
  {U : UCD} {Nm : Numerics} {S : Sorter} (df : DataFrame) (key : pystr)
  (labels dur ses pur pid : column) :
  In key Spec.grouping_keys ->
  get_column key df = Some labels ->
  get_column AvgSessionDurationMinutes df = Some dur ->
  get_column SessionsPerWeek df = Some ses ->
  get_column InGamePurchases df = Some pur ->
  get_column PlayerID df = Some pid ->
  exists segs t,
    segment_analysis df = Ok segs /\
    In (key, t) (Spec.segment_tables segs) /\
    Spec.column_at 1 t
    = map (fun k => VFloat (group_mean
                      (members (map VStr (map Spec.normalized labels))
                               (to_numeric dur) k)))
          (Spec.column_at 0 t) /\
    Spec.column_at 2 t
    = map (fun k => VFloat (group_mean
                      (members (map VStr (map Spec.normalized labels))
                               (to_numeric ses) k)))
          (Spec.column_at 0 t) /\
    Spec.column_at 3 t
    = map (fun k => VFloat (group_mean
                      (members (map VStr (map Spec.normalized labels))
                               (to_numeric pur) k)))
          (Spec.column_at 0 t) /\
    Spec.column_at 4 t
    = map (fun k => group_sum (to_numeric pur)
                      (members (map VStr (map Spec.normalized labels))
                               (to_numeric pur) k))
          (Spec.column_at 0 t) /\
    Spec.column_at 5 t
    = map (fun k => VInt (count (members (map VStr (map Spec.normalized labels))
                                         pid k)))
          (Spec.column_at 0 t).
Proof.
  intros Hkey Gk Gd Gs Gu Gp.
  assert (Hk : has_column key df = true)
    by (rewrite TableFacts.has_column_get, Gk; reflexivity).
  assert (Hd : has_column AvgSessionDurationMinutes df = true)
    by (rewrite TableFacts.has_column_get, Gd; reflexivity).
  assert (Hs : has_column SessionsPerWeek df = true)
    by (rewrite TableFacts.has_column_get, Gs; reflexivity).
  assert (Hu : has_column InGamePurchases df = true)
    by (rewrite TableFacts.has_column_get, Gu; reflexivity).
  assert (Hp : has_column PlayerID df = true)
    by (rewrite TableFacts.has_column_get, Gp; reflexivity).
  assert (Hc : 1 <= Spec.aggregated_columns df).
  { unfold Spec.aggregated_columns. rewrite Hp. simpl. lia. }
  destruct (SegmentFacts.segment_analysis_tables df Hc) as [segs [E _]].
  assert (Hin : exists t, In (key, t) (Spec.segment_tables segs)).
  { simpl. destruct Hkey as [<-|[<-|[<-|[]]]]; eauto. }
  destruct Hin as [t Hin]. exists segs, t.
  split; [exact E|]. split; [exact Hin|].
  pose proof (@GroupRows.segment_analysis_group_by U Nm S df segs key t E Hin)
    as Eg.
  assert (Hc' : 1 <= Spec.aggregated_columns (prepare_segments df))
    by (rewrite SegmentFacts.aggregated_prepare; exact Hc).
  destruct (@GroupRows.group_by_rows Nm S (prepare_segments df) key _ Hkey
              (@GroupRows.prepared_key U Nm df key labels Hkey Gk) Hc')
    as [lcols [t' [i [A [_ [_ [_ [Et R]]]]]]]].
  rewrite Eg in Et. injection Et as <-.
  revert R. unfold Spec.grouped_table. revert A.
  rewrite SegmentFacts.available_aggs_select.
  rewrite !SegmentFacts.has_prepare_segments, Hd, Hs, Hu, Hp.
  change (Spec.select_aggs true true true true) with aggregations.
  rewrite ValueFacts.full_names.
  set (keycol := map VStr (map Spec.normalized labels)).
  set (keys := group_keys keycol).
  unfold aggregations. cbn [agg_all existsb snd is_many orb].
  unfold agg_one. cbn [fst snd].
  rewrite (@ValueFacts.prepared_numeric U Nm df _ dur) by (simpl; auto).
  rewrite (@ValueFacts.prepared_numeric U Nm df _ ses) by (simpl; auto).
  rewrite (@ValueFacts.prepared_numeric U Nm df _ pur) by (simpl; auto).
  rewrite GroupRows.prepared_players, Gp.
  cbn [bind agg_labels map fst snd app apply_agg].
  intros A. injection A as <-. cbn [map snd combine].
  intros R.
  rewrite !(@SegmentFacts.column_at_reordered _ _ t _ R).
  unfold Spec.column_at. cbn [columns nth_error snd].
  rewrite !ValueFacts.take_map.
  repeat split; reflexivity.
Qed.

Lemma segment_values_are_group_aggregates_witness :
  exists segs t,
    segment_analysis (U := Ref.ucd_rows) (Nm := Ref.decimal_numerics)
      (S := Ref.insertion_sorter) Examples.two_genres = Ok segs /\
    In (GameGenre, t) (Spec.segment_tables segs) /\
    Spec.column_at 1 t
    = map (fun k => VFloat (group_mean (Nm := Ref.decimal_numerics)
             (members
             (map VStr (map (Spec.normalized (U := Ref.ucd_rows)
                               (Nm := Ref.decimal_numerics))
                            (Examples.strs ["action"; "puzzle"]%string)))
             (to_numeric (Nm := Ref.decimal_numerics)
                (Examples.ints [1; 2]%Z)) k)))
          (Spec.column_at 0 t) /\
    Spec.column_at 2 t
    = map (fun k => VFloat (group_mean (Nm := Ref.decimal_numerics)
             (members
             (map VStr (map (Spec.normalized (U := Ref.ucd_rows)
                               (Nm := Ref.decimal_numerics))
                            (Examples.strs ["action"; "puzzle"]%string)))
             (to_numeric (Nm := Ref.decimal_numerics)
                (Examples.ints [5; 1]%Z)) k)))
          (Spec.column_at 0 t) /\
    Spec.column_at 3 t
    = map (fun k => VFloat (group_mean (Nm := Ref.decimal_numerics)
             (members
             (map VStr (map (Spec.normalized (U := Ref.ucd_rows)
                               (Nm := Ref.decimal_numerics))
                            (Examples.strs ["action"; "puzzle"]%string)))
             (to_numeric (Nm := Ref.decimal_numerics)
                (Examples.ints [3; 4]%Z)) k)))
          (Spec.column_at 0 t) /\
    Spec.column_at 4 t
    = map (fun k => group_sum (Nm := Ref.decimal_numerics)
             (to_numeric (Nm := Ref.decimal_numerics) (Examples.ints [3; 4]%Z))
             (members
                (map VStr (map (Spec.normalized (U := Ref.ucd_rows)
                                  (Nm := Ref.decimal_numerics))
                               (Examples.strs ["action"; "puzzle"]%string)))
                (to_numeric (Nm := Ref.decimal_numerics)
                   (Examples.ints [3; 4]%Z)) k))
          (Spec.column_at 0 t) /\
    Spec.column_at 5 t
    = map (fun k => VInt (count (members
             (map VStr (map (Spec.normalized (U := Ref.ucd_rows)
                               (Nm := Ref.decimal_numerics))
                            (Examples.strs ["action"; "puzzle"]%string)))
             (Examples.ints [1; 2]%Z) k)))
          (Spec.column_at 0 t).
Proof.
  apply (@segment_values_are_group_aggregates Ref.ucd_rows
           Ref.decimal_numerics Ref.insertion_sorter Examples.two_genres
           GameGenre).
  - left. reflexivity.
  - reflexivity.
  - reflexivity.
  - reflexivity.
  - reflexivity.
  - reflexivity.
Defined.

(** X9: with the InGamePurchases column present, the table of every grouping
    column that is present is headed by the grouping column, then a [_mean]
    column for each of the duration and sessions columns that is present,
    the mean and the sum of the purchases, and [num_players] when PlayerID is
    present. *)
Theorem segment_columns_are_named
  {U : UCD} {Nm : Numerics} {S : Sorter} (df : DataFrame) :
  has_column InGamePurchases df = true ->
  exists segs,
    segment_analysis df = Ok segs /\
    forall key t,
      In (key, t) (Spec.segment_tables segs) -> has_column key df = true ->
      map fst (columns t)
      = key
        :: (if has_column AvgSessionDurationMinutes df
            then [lit "AvgSessionDurationMinutes_mean"] else [])
        ++ (if has_column SessionsPerWeek df
            then [lit "SessionsPerWeek_mean"] else [])
        ++ [lit "InGamePurchases_mean"; lit "InGamePurchases_sum"]
        ++ (if has_column PlayerID df then [lit "num_players"] else []).
Proof.
  intros Hi.
  assert (Hc : 1 <= Spec.aggregated_columns df).
  { unfold Spec.aggregated_columns. rewrite Hi. simpl. lia. }
  destruct (SegmentFacts.segment_analysis_tables df Hc) as [segs [E _]].
  exists segs. split; [exact E|].
  intros key t Hin Hk.
  rewrite (@GroupRows.segment_table_names U Nm S df segs key t E Hin Hk Hc).
  rewrite Hi. f_equal.
  destruct (has_column AvgSessionDurationMinutes df),
           (has_column SessionsPerWeek df), (has_column PlayerID df);
    vm_compute; reflexivity.
Qed.

Lemma segment_columns_are_named_witness :
  exists segs,
    segment_analysis (U := Ref.ucd_rows) (Nm := Ref.decimal_numerics)
      (S := Ref.insertion_sorter) Examples.two_genres = Ok segs /\
    forall key t,
      In (key, t) (Spec.segment_tables segs) ->
      has_column key Examples.two_genres = true ->
      map fst (columns t)
      = key
        :: (if has_column AvgSessionDurationMinutes Examples.two_genres
            then [lit "AvgSessionDurationMinutes_mean"] else [])
        ++ (if has_column SessionsPerWeek Examples.two_genres
            then [lit "SessionsPerWeek_mean"] else [])
        ++ [lit "InGamePurchases_mean"; lit "InGamePurchases_sum"]
        ++ (if has_column PlayerID Examples.two_genres
            then [lit "num_players"] else []).
Proof.
  apply (@segment_columns_are_named Ref.ucd_rows Ref.decimal_numerics
           Ref.insertion_sorter Examples.two_genres).
  reflexivity.
Defined.

(** X10: without the InGamePurchases column no value of the aggregation
    dictionary is a list, the labels of the aggregated columns are plain
    strings, and flattening joins their characters: each aggregated column is
    named by the characters of its source column with underscores between
    them, and none is named [num_players]. *)
Theorem segment_columns_are_spelled_without_purchases
  {U : UCD} {Nm : Numerics} {S : Sorter} (df : DataFrame) :
  has_column InGamePurchases df = false ->
  1 <= Spec.aggregated_columns df ->
  exists segs,
    segment_analysis df = Ok segs /\
    forall key t,
      In (key, t) (Spec.segment_tables segs) -> has_column key df = true ->
      map fst (columns t)
      = key
        :: map (fun name => join (lit "_") (map (fun c => [c]) name))
             ((if has_column AvgSessionDurationMinutes df
               then [AvgSessionDurationMinutes] else [])
              ++ (if has_column SessionsPerWeek df
                  then [SessionsPerWeek] else [])
              ++ (if has_column PlayerID df then [PlayerID] else [])) /\
      ~ In (lit "num_players") (map fst (columns t)).
Proof.
  intros Hi Hc.
  destruct (SegmentFacts.segment_analysis_tables df Hc) as [segs [E _]].
  exists segs. split; [exact E|].
  intros key t Hin Hk.
  rewrite (@GroupRows.segment_table_names U Nm S df segs key t E Hin Hk Hc).
  rewrite Hi.
  pose proof (@GroupRows.segment_keys segs key t Hin) as Hkey.
  split.
  - f_equal.
    destruct (has_column AvgSessionDurationMinutes df),
             (has_column SessionsPerWeek df), (has_column PlayerID df);
      vm_compute; reflexivity.
  - destruct Hkey as [<-|[<-|[<-|[]]]];
      destruct (has_column AvgSessionDurationMinutes df),
               (has_column SessionsPerWeek df), (has_column PlayerID df);
      vm_compute; intuition discriminate.
Qed.

Lemma segment_columns_are_spelled_without_purchases_witness :
  exists segs,
    segment_analysis (U := Ref.ucd_rows) (Nm := Ref.decimal_numerics)
      (S := Ref.insertion_sorter) Examples.sessions_only = Ok segs /\
    forall key t,
      In (key, t) (Spec.segment_tables segs) ->
      has_column key Examples.sessions_only = true ->
      map fst (columns t)
      = key
        :: map (fun name => join (lit "_") (map (fun c => [c]) name))
             ((if has_column AvgSessionDurationMinutes Examples.sessions_only
               then [AvgSessionDurationMinutes] else [])
              ++ (if has_column SessionsPerWeek Examples.sessions_only
                  then [SessionsPerWeek] else [])
              ++ (if has_column PlayerID Examples.sessions_only
                  then [PlayerID] else [])) /\
      ~ In (lit "num_players") (map fst (columns t)).
Proof.
  apply (@segment_columns_are_spelled_without_purchases Ref.ucd_rows
           Ref.decimal_numerics Ref.insertion_sorter Examples.sessions_only).
  - reflexivity.
  - vm_compute. lia.
Defined.

(** X11: when none of the three grouping columns is present,
    [segment_analysis] does not raise, whatever else the table holds: it
    returns three empty tables. *)
Theorem segments_empty_without_grouping_columns
  {U : UCD} {Nm : Numerics} {S : Sorter} (df : DataFrame) :
  (forall key, In key Spec.grouping_keys -> has_column key df = false) ->
  segment_analysis df
  = Ok {| by_genre := empty_frame; by_location := empty_frame;
          by_engagement := empty_frame |}.
Proof. apply GroupRows.segment_analysis_no_keys. Qed.

Lemma segments_empty_without_grouping_columns_witness :
  segment_analysis (U := Ref.ucd_rows) (Nm := Ref.decimal_numerics)
    (S := Ref.insertion_sorter) Examples.players_only
  = Ok {| by_genre := empty_frame; by_location := empty_frame;
          by_engagement := empty_frame |}.
Proof.
  apply (@segments_empty_without_grouping_columns Ref.ucd_rows
           Ref.decimal_numerics Ref.insertion_sorter Examples.players_only).
  intros key [<-|[<-|[<-|[]]]]; reflexivity.
Defined.

(** X12: a flattened column label never starts and never ends with an
    underscore, whatever the label. *)
Theorem flatten_label_has_clean_ends (l : label) :
  hd_error (flatten_label l) <> Some 95%N /\
  hd_error (rev (flatten_label l)) <> Some 95%N.
Proof. unfold flatten_label. apply LabelFacts.strip_char_clean. Qed.

(** X13: a label of two parts, neither empty, the first not starting and the
    second not ending with an underscore, is flattened to the two parts with
    an underscore between them. *)
Theorem flatten_label_joins_pair (a b : pystr) :
  a <> [] -> b <> [] ->
  hd_error a <> Some 95%N -> hd_error (rev b) <> Some 95%N ->
  flatten_label (LTuple [a; b]) = a ++ lit "_" ++ b.
Proof.
  intros Ha Hb Ca Cb. unfold flatten_label. cbn [label_parts filter].
  destruct a as [|x a]; [congruence|]. destruct b as [|y b]; [congruence|].
  cbn [pystr_eqb negb join].
  apply LabelFacts.strip_char_fixed.
  - exact Ca.
  - rewrite !rev_app_distr, <- app_assoc.
    rewrite LabelFacts.hd_error_app; [exact Cb|].
    intros E. apply (f_equal (@length N)) in E.
    rewrite length_rev in E. discriminate.
Qed.

Lemma flatten_label_joins_pair_witness :
  flatten_label (LTuple [lit "InGamePurchases"; lit "mean"])
  = lit "InGamePurchases" ++ lit "_" ++ lit "mean".
Proof.
  apply flatten_label_joins_pair; vm_compute; discriminate.
Defined.

(** X14: [load_data] changes the column names only.  When the file is read,
    the table returned has the rows and the cells of the table read, every
    column name is the name read with the white space at its ends removed,
    no name starts or ends with white space, and stripping the names again
    changes nothing. *)
Theorem load_data_strips_names
  {U : UCD} {R : Report.Reader} (path : pystr) (df : DataFrame) :
  Report.read_csv path = Report.ReadOk df ->
  exists df',
    Report.load_data path = Report.ReadOk df' /\
    nrows df' = nrows df /\
    map snd (columns df') = map snd (columns df) /\
    map fst (columns df') = map strip (map fst (columns df)) /\
    Forall clean_ends (map fst (columns df')) /\
    Report.strip_columns df' = df'.
Proof.
  intros E. unfold Report.load_data. rewrite E.
  exists (Report.strip_columns df). split; [reflexivity|].
  unfold Report.strip_columns. cbn [nrows columns].
  split; [reflexivity|]. rewrite !map_map. cbn [fst snd].
  split; [reflexivity|]. split; [reflexivity|]. split.
  - apply Forall_forall. intros n Hn. apply in_map_iff in Hn.
    destruct Hn as [p [<- _]]. apply TitleFacts.strip_clean_ends.
  - f_equal. apply map_ext. intros p. cbn [fst snd].
    rewrite ReportFacts.strip_idempotent. reflexivity.
Qed.

Lemma load_data_strips_names_witness :
  exists df',
    Report.load_data (U := Ref.ucd_rows)
      (R := FileExamples.one_csv (lit "data.csv") FileExamples.spaced_table)
      (lit "data.csv") = Report.ReadOk df' /\
    nrows df' = nrows FileExamples.spaced_table /\
    map snd (columns df') = map snd (columns FileExamples.spaced_table) /\
    map fst (columns df')
    = map (strip (U := Ref.ucd_rows))
          (map fst (columns FileExamples.spaced_table)) /\
    Forall (clean_ends (U := Ref.ucd_rows)) (map fst (columns df')) /\
    Report.strip_columns (U := Ref.ucd_rows) df' = df'.
Proof.
  apply (@load_data_strips_names Ref.ucd_rows
           (FileExamples.one_csv (lit "data.csv") FileExamples.spaced_table)
           (lit "data.csv") FileExamples.spaced_table).
  reflexivity.
Defined.

(** X15: a column read under a name with white space around it is found
    under the stripped name, provided no two columns get the same name by
    stripping. *)
Theorem stripped_column_found
  {U : UCD} (df : DataFrame) (n : pystr) (c : column) :
  NoDup (map strip (map fst (columns df))) ->
  In (n, c) (columns df) ->
  get_column (strip n) (Report.strip_columns df) = Some c.
Proof.
  intros Hn Hin. unfold get_column, Report.strip_columns. cbn [columns].
  rewrite (@ReportFacts.find_in_nodup (strip n) c).
  - reflexivity.
  - rewrite map_map. cbn [fst]. rewrite map_map in Hn. exact Hn.
  - apply in_map_iff. exists (n, c). split; [reflexivity | exact Hin].
Qed.

Lemma stripped_column_found_witness :
  get_column (strip (U := Ref.ucd_rows) (lit " PlayerID "))
    (Report.strip_columns (U := Ref.ucd_rows)
       {| nrows := 1;
          columns := [(lit " PlayerID ", [VInt 7]); (lit "Age", [VInt 30])] |})
  = Some [VInt 7%Z].
Proof.
  apply (@stripped_column_found Ref.ucd_rows
           {| nrows := 1;
              columns := [(lit " PlayerID ", [VInt 7]);
                          (lit "Age", [VInt 30])] |}
           (lit " PlayerID ") [VInt 7%Z]).
  - vm_compute. repeat constructor; simpl; intuition discriminate.
  - simpl. auto.
Defined.

(** X16: [main] returns 1 exactly when the data file is not found, and then
    it prints the one line that names the path, and nothing else. *)
Theorem main_returns_one_iff_file_missing
  {U : UCD} {Nm : Numerics} {S : Sorter}
  {R : Report.Reader} {P : Report.Printer} (data : pystr) :
  (snd (Report.main data) = Ok 1%Z
   <-> Report.read_csv data = Report.FileNotFound) /\
  (Report.read_csv data = Report.FileNotFound ->
   fst (Report.main data)
   = [lit "Data file not found at '" ++ data
        ++ lit "'. Place the CSV and try again."]).
Proof.
  unfold Report.main, Report.load_data.
  destruct (Report.read_csv data) as [|e|df]; cbn [fst snd].
  - split; [split; reflexivity | reflexivity].
  - split; [split; discriminate | discriminate].
  - destruct (segment_analysis (Report.strip_columns df)); cbn [fst snd];
      (split; [split; discriminate | discriminate]).
Qed.







(** X20: [check_dataset_columns] sorts every required column into exactly
    one of its two lists.  Together the lists hold the required columns, no
    column is in both, a column is missing exactly when no header of the
    file is that name once stripped, and all are missing when the file does
    not exist or cannot be read. *)
Theorem dataset_columns_are_partitioned
  {U : UCD} {F : ProjectCheck.Files}
  (path : pystr) (required : list pystr) :
  let r := ProjectCheck.check_dataset_columns path required in
  Permutation (ProjectCheck.present r ++ ProjectCheck.missing r) required /\
  (forall c, In c (ProjectCheck.present r) ->
             ~ In c (ProjectCheck.missing r)) /\
  (forall names,
     ProjectCheck.path_exists path = true ->
     ProjectCheck.read_head path = ProjectCheck.HeadColumns names ->
     forall c, In c (ProjectCheck.missing r)
               <-> In c required /\ ~ In c (map strip names)) /\
  (ProjectCheck.path_exists path = false \/
   ProjectCheck.read_head path = ProjectCheck.HeadRaises ->
   ProjectCheck.present r = [] /\ ProjectCheck.missing r = required).
Proof.
  unfold ProjectCheck.check_dataset_columns.
  destruct (ProjectCheck.path_exists path) eqn:Ep; cbn [negb].
  - destruct (ProjectCheck.read_head path) as [|names] eqn:Eh;
      cbn [ProjectCheck.present ProjectCheck.missing].
    + split; [reflexivity|]. split; [intros c []|].
      split; [discriminate|]. intros _. split; reflexivity.
    + split; [apply CheckFacts.filter_split|]. split.
      * intros c Hp Hm. apply filter_In in Hp. apply filter_In in Hm.
        destruct Hp as [_ Hp]. destruct Hm as [_ Hm].
        rewrite Hp in Hm. discriminate.
      * split.
        { intros names' _ E c. injection E as <-.
          rewrite filter_In, negb_true_iff.
          split; intros [A B]; split; auto.
          - intros Hin. apply CheckFacts.mem_in in Hin. congruence.
          - destruct (ProjectCheck.mem c (map strip names)) eqn:E;
              [|reflexivity].
            exfalso. apply B, CheckFacts.mem_in, E. }
        intros [H|H]; discriminate.
  - cbn [ProjectCheck.present ProjectCheck.missing].
    split; [reflexivity|]. split; [intros c []|].
    split; [discriminate|]. intros _. split; reflexivity.
Qed.

(** X21: the files [main] reports as missing are exactly the required paths
    that do not exist. *)
Theorem missing_files_are_the_absent_paths
  {U : UCD} {F : ProjectCheck.Files}
  (paths : list pystr) (p : pystr) :
  In p (ProjectCheck.not_ok (ProjectCheck.check_files paths))
  <-> In p paths /\ ProjectCheck.path_exists p = false.
Proof. unfold ProjectCheck.check_files. apply CheckFacts.not_ok_in. Qed.

(** X22: [main] returns 0 exactly when nothing is wrong: every required file
    exists, the data file is read and every required column is one of its
    headers once stripped, and the README is read and holds every section
    title, case ignored.  It then prints the opening line and the closing
    line, and nothing between them. *)
Theorem check_main_returns_zero_iff_all_pass
  {U : UCD} {F : ProjectCheck.Files} :
  (snd ProjectCheck.main = Some 0%Z <->
   (forall p, In p ProjectCheck.REQUIRED_FILES ->
              ProjectCheck.path_exists p = true) /\
   (exists names,
      ProjectCheck.read_head (lit "data/engagement_data.csv")
      = ProjectCheck.HeadColumns names /\
      forall c, In c ProjectCheck.REQUIRED_COLUMNS -> In c (map strip names)) /\
   (exists content,
      ProjectCheck.read_text (lit "README.md") = Some content /\
      forall s, In s ProjectCheck.README_SECTIONS ->
                ProjectCheck.contains (ProjectCheck.lower s)
                                      (ProjectCheck.lower content) = true)) /\
  (snd ProjectCheck.main = Some 0%Z ->
   fst ProjectCheck.main
   = [lit "Running project health checks..." ++ [10%N];
      lit "Project is GitHub-ready! You can confidently publish."]).
Proof.
  unfold ProjectCheck.main.
  set (mf := ProjectCheck.not_ok
               (ProjectCheck.check_files ProjectCheck.REQUIRED_FILES)).
  set (dr := ProjectCheck.check_dataset_columns
               (lit "data/engagement_data.csv") ProjectCheck.REQUIRED_COLUMNS).
  assert (Hmf : mf = [] <->
                forall p, In p ProjectCheck.REQUIRED_FILES ->
                          ProjectCheck.path_exists p = true).
  { apply CheckFacts.not_ok_nil. }
  assert (Hdr : ProjectCheck.path_exists (lit "data/engagement_data.csv") = true ->
                (ProjectCheck.missing dr = [] <->
                 exists names,
                   ProjectCheck.read_head (lit "data/engagement_data.csv")
                   = ProjectCheck.HeadColumns names /\
                   forall c, In c ProjectCheck.REQUIRED_COLUMNS ->
                             In c (map strip names))).
  { intros Ep. unfold dr, ProjectCheck.check_dataset_columns. rewrite Ep.
    cbn [negb].
    destruct (ProjectCheck.read_head (lit "data/engagement_data.csv"))
      as [|names]; cbn [ProjectCheck.missing].
    - split; [discriminate|]. intros [names [E _]]. discriminate.
    - rewrite CheckFacts.filter_nil_iff. split.
      + intros H. exists names. split; [reflexivity|]. intros c Hc.
        apply CheckFacts.mem_in. specialize (H c Hc).
        apply negb_false_iff in H. exact H.
      + intros [names' [E H]] c Hc. injection E as <-.
        apply negb_false_iff, CheckFacts.mem_in, H, Hc. }
  assert (Hd : In (lit "data/engagement_data.csv") ProjectCheck.REQUIRED_FILES).
  { left. reflexivity. }
  assert (Hr : In (lit "README.md") ProjectCheck.REQUIRED_FILES).
  { do 6 right. left. reflexivity. }
  unfold ProjectCheck.check_readme_sections.
  destruct (ProjectCheck.path_exists (lit "README.md")) eqn:Er; cbn [negb].
  - destruct (ProjectCheck.read_text (lit "README.md")) as [content|] eqn:Et.
    + set (mr := ProjectCheck.not_ok _).
      assert (Hmr : mr = [] <->
                forall s, In s ProjectCheck.README_SECTIONS ->
                  ProjectCheck.contains (ProjectCheck.lower s)
                                        (ProjectCheck.lower content) = true).
      { apply CheckFacts.not_ok_nil. }
      cbn [fst snd]. split.
      * split.
        { intros H.
          destruct mf as [|? ?]; [|destruct (ProjectCheck.missing dr), mr; discriminate].
          pose proof (proj1 Hmf eq_refl) as Pf.
          destruct (ProjectCheck.missing dr) as [|? ?] eqn:Em;
            [|destruct mr; discriminate].
          destruct mr as [|? ?]; [|discriminate].
          split; [exact Pf|]. split.
          - apply (Hdr (Pf _ Hd)). reflexivity.
          - exists content. split; [reflexivity|]. apply Hmr. reflexivity. }
        intros [Pf [Pd [content' [Ec Pr]]]]. injection Ec as <-.
        rewrite (proj2 Hmf Pf), (proj2 (Hdr (Pf _ Hd)) Pd), (proj2 Hmr Pr).
        reflexivity.
      * intros H.
        destruct mf as [|? ?]; [|destruct (ProjectCheck.missing dr), mr; discriminate].
        destruct (ProjectCheck.missing dr) as [|? ?];
          [|destruct mr; discriminate].
        destruct mr as [|? ?]; [|discriminate].
        reflexivity.
    + cbn [fst snd]. split; [|discriminate]. split; [discriminate|].
      intros [_ [_ [content [Ec _]]]]. discriminate.
  - set (mr := ProjectCheck.not_ok _).
    assert (Hmr : mr <> []).
    { intros E.
      pose proof (proj1 (CheckFacts.not_ok_nil (fun _ => false)
                           ProjectCheck.README_SECTIONS) E
                    (lit "Overview") (or_introl eq_refl)) as X.
      discriminate. }
    cbn [fst snd]. split.
    + split.
      * intros H. exfalso.
        destruct mf, (ProjectCheck.missing dr), mr; try discriminate.
        apply Hmr. reflexivity.
      * intros [Pf _]. rewrite (Pf _ Hr) in Er. discriminate.
    + intros H. exfalso.
      destruct mf, (ProjectCheck.missing dr), mr; try discriminate.
      apply Hmr. reflexivity.
Qed.

(** X23: the project check returns 0 or 1, or does not return: the exception
    of opening the README leaves [main] exactly when README.md exists and
    cannot be read, and then only the opening line has been printed.  (A
    data file that cannot be read is reported instead, as missing columns.) *)
Theorem check_main_raises_iff_readme_unreadable
  {U : UCD} {F : ProjectCheck.Files} :
  (snd ProjectCheck.main = None <->
   ProjectCheck.path_exists (lit "README.md") = true /\
   ProjectCheck.read_text (lit "README.md") = None) /\
  (snd ProjectCheck.main = None ->
   fst ProjectCheck.main = [lit "Running project health checks..." ++ [10%N]]) /\
  (forall z, snd ProjectCheck.main = Some z -> z = 0%Z \/ z = 1%Z).
Proof.
  unfold ProjectCheck.main, ProjectCheck.check_readme_sections.
  destruct (ProjectCheck.path_exists (lit "README.md")); cbn [negb].
  - destruct (ProjectCheck.read_text (lit "README.md")) as [content|];
      cbn [fst snd].
    + split; [split; [discriminate | intros [_ H]; discriminate]|].
      split; [discriminate|].
      intros z H. injection H as <-.
      repeat match goal with
             | |- context [match ?a with [] => _ | _ :: _ => _ end] =>
                 destruct a
             end; auto.
    + split; [split; auto|]. split; [reflexivity | discriminate].
  - cbn [fst snd].
    split; [split; [discriminate | intros [H _]; discriminate]|].
    split; [discriminate|].
    intros z H. injection H as <-.
    repeat match goal with
           | |- context [match ?a with [] => _ | _ :: _ => _ end] =>
               destruct a
           end; auto.
Qed.

(** X24: the README check ignores the case of ASCII letters.  When the README
    is read and holds, somewhere, an ASCII string that equals an ASCII
    section title up to the case of its letters, the section is reported as
    found. *)
Theorem readme_section_found_in_any_case
  {U : UCD} {F : ProjectCheck.Files}
  (path : pystr) (sections : list pystr) (pre s' post s : pystr) :
  Ref.ascii_rows U ->
  ProjectCheck.path_exists path = true ->
  ProjectCheck.read_text path = Some (pre ++ s' ++ post) ->
  In s sections ->
  Ref.is_ascii s -> Ref.is_ascii s' ->
  map Ref.ascii_to_lower s' = map Ref.ascii_to_lower s ->
  exists d,
    ProjectCheck.check_readme_sections path sections = Some d /\
    In (s, true) d /\
    ~ In s (ProjectCheck.not_ok d).
Proof.
  intros rows Ep Et Hin Hs Hs' E.
  unfold ProjectCheck.check_readme_sections. rewrite Ep, Et. cbn [negb].
  eexists. split; [reflexivity|].
  assert (C : ProjectCheck.contains (ProjectCheck.lower s)
                (ProjectCheck.lower (pre ++ s' ++ post)) = true).
  { rewrite (ReadmeFacts.lower_ascii rows Hs). unfold ProjectCheck.lower.
    destruct (@ReadmeFacts.do_lower_inside U rows pre s' post Hs' [])
      as [x [y ->]].
    rewrite E. apply ReadmeFacts.contains_app. }
  split.
  - apply CheckFacts.dict_comprehension_in. split; [exact Hin|].
    symmetry. exact C.
  - intros H. apply CheckFacts.not_ok_in in H. destruct H as [_ H].
    rewrite C in H. discriminate.
Qed.

Lemma readme_section_found_in_any_case_witness :
  exists d,
    ProjectCheck.check_readme_sections (U := Ref.ucd_rows)
      (F := FileExamples.project [lit "README.md"] ProjectCheck.HeadRaises
              (Some (lit "# " ++ lit "TECH stack" ++ lit " and more")))
      (lit "README.md") ProjectCheck.README_SECTIONS = Some d /\
    In (lit "Tech Stack", true) d /\
    ~ In (lit "Tech Stack") (ProjectCheck.not_ok d).
Proof.
  apply (@readme_section_found_in_any_case Ref.ucd_rows
           (FileExamples.project [lit "README.md"] ProjectCheck.HeadRaises
              (Some (lit "# " ++ lit "TECH stack" ++ lit " and more")))
           (lit "README.md") ProjectCheck.README_SECTIONS
           (lit "# ") (lit "TECH stack") (lit " and more") (lit "Tech Stack")).
  - exact TitleFacts.ucd_rows_ascii.
  - reflexivity.
  - reflexivity.
  - do 4 right. left. reflexivity.
  - repeat constructor.
  - repeat constructor.
  - reflexivity.
Defined.



(** X26: the rows of a segment table are the groups, whole, in sorted order.
    When at least one aggregated column is present and the index sort sorts,
    the table of every grouping column that is present is the table of the
    groups (the labels, then the aggregated columns as [agg] gives them,
    under their output names) with its rows taken in the order of a
    permutation, the same one for every column; its third column, the second
    aggregated one, is descending when two or more columns are aggregated,
    and its first column, the labels, when one is. *)
Theorem segment_rows_are_sorted
  {U : UCD} {Nm : Numerics} {S : Sorter} (df : DataFrame) :
  sorter_ok S ->
  1 <= Spec.aggregated_columns df ->
  exists segs,
    segment_analysis df = Ok segs /\
    forall key t col,
      In (key, t) (Spec.segment_tables segs) ->
      get_column key df = Some col ->
      exists (lcols : list (label * column)) (idx : list nat),
        agg_all (prepare_segments df) (map VStr (map Spec.normalized col))
          (group_keys (map VStr (map Spec.normalized col)))
          (existsb (fun e => is_many (snd e))
             (filter (fun kv => has_column (fst kv) (prepare_segments df))
                     aggregations))
          (filter (fun kv => has_column (fst kv) (prepare_segments df))
                  aggregations) = Ok lcols /\
        Permutation idx
          (seq 0 (length (group_keys (map VStr (map Spec.normalized col))))) /\
        Spec.reordered idx
          (Spec.grouped_table (prepare_segments df) key
             (map VStr (map Spec.normalized col)) lcols) t /\
        (2 <= Spec.aggregated_columns df ->
         descending (Spec.column_at 2 t)) /\
        (Spec.aggregated_columns df = 1 ->
         descending (Spec.column_at 0 t)).
Proof.
  intros Hs Hc.
  destruct (SegmentFacts.segment_analysis_tables df Hc) as [segs [E T]].
  exists segs. split; [exact E|].
  intros key t col Hin G.
  assert (Hk : has_column key df = true)
    by (rewrite TableFacts.has_column_get, G; reflexivity).
  destruct (@GroupRows.segment_table_rows U Nm S df segs key t col Hs E Hin G Hc)
    as [lcols [idx [A [_ [P [_ R]]]]]].
  destruct (T key t Hin Hk) as [_ [A2 A1]].
  exists lcols, idx.
  split; [exact A|]. split; [exact P|]. split; [exact R|].
  split; intros H; apply SegmentFacts.index_sorted_descending; auto.
Qed.

Lemma segment_rows_are_sorted_witness :
  exists segs,
    segment_analysis (U := Ref.ucd_rows) (Nm := Ref.decimal_numerics)
      (S := Ref.insertion_sorter) Examples.full_table = Ok segs /\
    forall key t col,
      In (key, t) (Spec.segment_tables segs) ->
      get_column key Examples.full_table = Some col ->
      exists (lcols : list (label * column)) (idx : list nat),
        agg_all (Nm := Ref.decimal_numerics)
          (prepare_segments (U := Ref.ucd_rows) (Nm := Ref.decimal_numerics)
             Examples.full_table)
          (map VStr (map (Spec.normalized (U := Ref.ucd_rows)
                            (Nm := Ref.decimal_numerics)) col))
          (group_keys (map VStr (map (Spec.normalized (U := Ref.ucd_rows)
                                        (Nm := Ref.decimal_numerics)) col)))
          (existsb (fun e => is_many (snd e))
             (filter (fun kv => has_column (fst kv)
                        (prepare_segments (U := Ref.ucd_rows)
                           (Nm := Ref.decimal_numerics) Examples.full_table))
                     aggregations))
          (filter (fun kv => has_column (fst kv)
                     (prepare_segments (U := Ref.ucd_rows)
                        (Nm := Ref.decimal_numerics) Examples.full_table))
                  aggregations) = Ok lcols /\
        Permutation idx
          (seq 0 (length (group_keys
                   (map VStr (map (Spec.normalized (U := Ref.ucd_rows)
                                     (Nm := Ref.decimal_numerics)) col))))) /\
        Spec.reordered idx
          (Spec.grouped_table
             (prepare_segments (U := Ref.ucd_rows) (Nm := Ref.decimal_numerics)
                Examples.full_table) key
             (map VStr (map (Spec.normalized (U := Ref.ucd_rows)
                               (Nm := Ref.decimal_numerics)) col)) lcols) t /\
        (2 <= Spec.aggregated_columns Examples.full_table ->
         descending (Spec.column_at 2 t)) /\
        (Spec.aggregated_columns Examples.full_table = 1 ->
         descending (Spec.column_at 0 t)).
Proof.
  apply (@segment_rows_are_sorted Ref.ucd_rows Ref.decimal_numerics
           Ref.insertion_sorter Examples.full_table).
  - exact SortFacts.insertion_sorter_ok.
  - vm_compute. lia.
Defined.
